(** * sf-coverage-viewer: the Salesforce service and the application

    A shallow embedding of [src/services/salesforce-service.js] (class
    [SalesforceService]) and of [src/app.js] (class [CoverageApp]: the
    start-up and the handling of a request), followed by the properties
    the specification states about them and by further properties of the
    code.

    Conventions of the embedding.
    - An [async] method is a state transformer returning a completion:
      normal return, thrown error, process exit, or a promise that never
      settles.  [await] is the bind of that monad.
    - The Node runtime (child processes, the file system, [path.join],
      [os.platform], [JSON.parse], [server.listen]) is an interface,
      [NodeRuntime]; every definition and theorem is parametric in it.
      A call of the runtime that can throw returns the error or the
      value.
    - JavaScript strings are byte strings; the JSON the CLI prints is seen
      through the typed view [Json.data], which carries exactly the fields
      the program reads, at the types of the CLI's JSON contract.
    - A line count of the JSON is an integer literal ([Z]), of any size;
      [JSON.parse] reads it as the nearest binary64 number, and every
      count, total, quotient and percentage of the program is a binary64
      number, computed with the IEEE 754 operations of [SpecFloat] at
      precision 53 and maximal exponent 1024.
    - What the program writes to the console is not part of the state.
    - The HTTP layer is seen through the calls a handler makes on the
      response object; the template engine, whose source is not part of
      what is embedded, and the remaining built-ins of the request
      handling form a second interface, [WebRuntime]. *)

From Stdlib Require Import ZArith Lia Floats.SpecFloat.
From Stdlib Require Import Strings.Ascii Strings.String.
From stdpp Require Import gmap strings list fin_maps.

Open Scope string_scope.
Open Scope list_scope.
Open Scope Z_scope.

(** ** JavaScript strings *)

Module JsString.

Definition toLowerCase_char (c : ascii) : ascii :=
  let n := nat_of_ascii c in
  if ((65 <=? n)%nat && (n <=? 90)%nat)%bool then ascii_of_nat (n + 32) else c.

(** [String.prototype.toLowerCase], on the ASCII letters. *)
Fixpoint toLowerCase (s : string) : string :=
  match s with
  | EmptyString => EmptyString
  | String c rest => String (toLowerCase_char c) (toLowerCase rest)
  end.

(** [String.prototype.includes]: [pat] occurs somewhere in [s]. *)
Fixpoint includes (s pat : string) : bool :=
  String.prefix pat s ||
  match s with
  | EmptyString => false
  | String _ rest => includes rest pat
  end.

(** White space and line terminators removed by [trim] (ASCII part). *)
Definition is_whitespace (c : ascii) : bool :=
  let n := nat_of_ascii c in
  ((9 <=? n)%nat && (n <=? 13)%nat) || (n =? 32)%nat.

Fixpoint trimStart (s : string) : string :=
  match s with
  | EmptyString => EmptyString
  | String c rest => if is_whitespace c then trimStart rest else s
  end.

Fixpoint trimEnd (s : string) : string :=
  match s with
  | EmptyString => EmptyString
  | String c rest =>
      match trimEnd rest with
      | EmptyString => if is_whitespace c then EmptyString else String c EmptyString
      | rest' => String c rest'
      end
  end.

(** [String.prototype.trim]. *)
Definition trim (s : string) : string := trimEnd (trimStart s).

(** [String.prototype.split] with a one-character separator. *)
Fixpoint split (sep : ascii) (s : string) : list string :=
  match s with
  | EmptyString => [EmptyString]
  | String c rest =>
      if Ascii.eqb c sep then EmptyString :: split sep rest
      else match split sep rest with
           | w :: ws => String c w :: ws
           | [] => [String c EmptyString]
           end
  end.

(** Truthiness of a string: every string but the empty one. *)
Definition truthy (s : string) : bool :=
  match s with EmptyString => false | _ => true end.

End JsString.

(** ** Child processes and the Node runtime *)

(** What a child process emits, in the order of emission: [data] on its
    two pipes, then ['close'] with the exit code ([None] is [null]: the
    child was killed by a signal, for instance at the timeout), or
    ['error'] when it could not be spawned. *)
Inductive ChildEvent :=
| stdout_data (chunk : string)
| stderr_data (chunk : string)
| close_event (code : option Z)
| error_event (message : string).

(** The arguments [runCommand] hands to [child_process.spawn]. *)
Record SpawnCall := {
  file : option string;          (* args[0]; [None] is [undefined] *)
  argv : list string;            (* args.slice(1) *)
  stdio : string;
  timeout : option Z
}.

(** Errors a JavaScript computation can throw. *)
Inductive JsError :=
| Error (message : string)
| TypeError.

(** *** The typed view of the CLI's JSON envelope

    [None] stands for an absent or [null] property.  A text that is the
    JSON [null] behaves like a text that is not JSON: the first property
    access throws inside the [try] block that holds [JSON.parse]. *)
Module Json.

Record ApexClassOrTrigger := { Name : option string }.

(** One row of a query result that is an object; the aggregate query
    fills [ApexClassOrTrigger], [NumLinesCovered] and [NumLinesUncovered],
    the class listing fills [Name].  A count is the integer literal of
    the JSON text. *)
Record record := {
  ApexClassOrTrigger_ : option ApexClassOrTrigger;
  Name_ : option string;
  NumLinesCovered : option Z;
  NumLinesUncovered : option Z
}.

(** One entry of [nonScratchOrgs] or [scratchOrgs]. *)
Record org := {
  alias : option string;
  username : option string
}.

(** [data.result]: the org lists of [org list], the org fields of
    [org display], the rows of [data query].

    The rows of [records] are read one after the other, and reading a
    property of a row that is [null] throws: [records] holds the rows in
    front of the first [null] row, which are objects, and [null_row]
    tells whether there is such a row after them.  What follows a [null]
    row is never read. *)
Record result := {
  nonScratchOrgs : option (list org);
  scratchOrgs : option (list org);
  result_alias : option string;
  result_username : option string;
  instanceUrl : option string;
  id : option string;
  records : option (list record);
  null_row : bool
}.

Record data := { result_ : option result }.

End Json.

Class NodeRuntime := {
  (** the state of everything outside the program *)
  World : Type;
  (** [child_process.spawn]: the error the call itself throws (an
      undefined file, an argument with a NUL byte, a time-out that is
      not a number of milliseconds, a failure of the system other than
      a file not found), or the events the child emits; and the world
      after it *)
  child_process_spawn : SpawnCall -> World -> (JsError + list ChildEvent) * World;
  fs_existsSync : string -> World -> bool;
  os_platform : string;
  path_join : list string -> string;
  (** [JSON.parse]: the message of the error thrown, or the data *)
  JSON_parse : string -> string + Json.data;
  (** the message of the [TypeError] thrown when the property of that
      name is read from [null] *)
  null_property_message : string -> string;
  (** [server.listen(config.server.port, config.server.host, ...)], with
      the port and the host of the environment: the error the call
      itself throws, for a port that is no port number for instance *)
  server_listen : World -> option JsError
}.

(** ** Program state and the monad of [async] methods *)

Record Config := { commandTimeout : option Z }.

(** How the evaluation of a function body or of an awaited promise ends. *)
Inductive Completion (A : Type) :=
| Normal (a : A)
| Throw (e : JsError)
| Exit (code : Z)
| Pending.
Arguments Normal {A} a.
Arguments Throw {A} e.
Arguments Exit {A} code.
Arguments Pending {A}.

Section Program.

Context {RT : NodeRuntime}.

Record State := {
  world : World;
  (** every call of [child_process.spawn] so far, oldest first *)
  spawned : list SpawnCall;
  (** [this.sfCommand] of the service; [None] is [null] *)
  sfCommand : option (list string);
  (** whether [startServer] has run to its end *)
  serverStarted : bool
}.

Definition Async (A : Type) : Type := State -> Completion A * State.

Definition ret {A} (a : A) : Async A := fun s => (Normal a, s).

Definition bind {A B} (m : Async A) (k : A -> Async B) : Async B :=
  fun s =>
    match m s with
    | (Normal a, s') => k a s'
    | (Throw e, s') => (Throw e, s')
    | (Exit c, s') => (Exit c, s')
    | (Pending, s') => (Pending, s')
    end.

Definition throw {A} (e : JsError) : Async A := fun s => (Throw e, s).

(** [try { body } catch (e) { handler }] *)
Definition try_catch {A} (body : Async A) (handler : JsError -> Async A) : Async A :=
  fun s =>
    match body s with
    | (Throw e, s') => handler e s'
    | other => other
    end.

(** [process.exit(code)] *)
Definition process_exit {A} (code : Z) : Async A := fun s => (Exit code, s).

(** [for (const x of items) { body }] in a function whose loop body may
    [return v] ([Some v]) or fall through to the next item ([None]). *)
Fixpoint for_of {A R} (items : list A) (body : A -> Async (option R))
  : Async (option R) :=
  match items with
  | [] => ret None
  | x :: rest =>
      bind (body x) (fun r =>
        match r with
        | Some v => ret (Some v)
        | None => for_of rest body
        end)
  end.

End Program.

Notation "'let_await' x ':=' m 'in' k" := (bind m (fun x => k))
  (at level 10, x name, m at level 100, k at level 200).

(** ** JavaScript numbers

    The numbers of the program are binary64 numbers, and [+], [>], [/],
    [*] and [Math.round] are the operations below.  [canonical n] is the
    number [JSON.parse] reads from the integer literal [n]: the binary64
    number nearest to [n], ties to the even mantissa, an infinity when
    [n] is out of range.  [of_Z n] writes a small integer constant, 100
    for instance, with [n] itself as mantissa and exponent 0; the
    operations of [SpecFloat] round their exact result to binary64
    whatever the mantissas of the operands. *)
Module Number.

Definition t := spec_float.

Definition of_Z (n : Z) : t :=
  match n with
  | Z0 => S754_zero false
  | Zpos p => S754_finite false p 0
  | Zneg p => S754_finite true p 0
  end.

Definition canonical (n : Z) : t := binary_normalize 53 1024 n 0 false.

Definition add : t -> t -> t := SFadd 53 1024.
Definition div : t -> t -> t := SFdiv 53 1024.
Definition mul : t -> t -> t := SFmul 53 1024.

(** [x > y] is [ltb y x]; a comparison with NaN is false. *)
Definition ltb : t -> t -> bool := SFltb.

(** Truthiness of a number: every number but the zeros and NaN. *)
Definition truthy (x : t) : bool :=
  match x with
  | S754_zero _ | S754_nan => false
  | _ => true
  end.

(** [Math.round]: the integer nearest to [x], ties towards +infinity;
    NaN, the infinities, the zeros and the integers are returned as
    they are, and a negative [x] no smaller than -0.5 gives -0. *)
Definition Math_round (x : t) : t :=
  match x with
  | S754_finite s m (Zneg k) =>
      let n := Z.pow_pos 2 k in
      let v := if s then Zneg m else Zpos m in
      match (2 * v + n) / (2 * n) with
      | Z0 => S754_zero s
      | r => of_Z r
      end
  | _ => x
  end.

#[global] Instance eq_dec : EqDecision t.
Proof. solve_decision. Defined.

(** The literal [0.0]. *)
Definition zero : t := S754_zero false.

(** [x <= y], for stating bounds. *)
Definition leb : t -> t -> bool := SFleb.

End Number.

(** ** Values the service returns *)

Module CommandResult.
Record t := {
  success : bool;
  stdout : string;
  stderr : string;
  code : option Z          (* [None] is [null] *)
}.
End CommandResult.

Module OrgDescriptor.
Record t := {
  alias : string;
  username : string;
  type : string;
  identifier : option string   (* [None] is [undefined] or [null] *)
}.
End OrgDescriptor.

Module OrgInfo.
Record t := {
  name : string;
  url : string;
  username : string;
  id : string
}.
End OrgInfo.

Module CoverageEntry.
Record t := {
  covered : Number.t;
  uncovered : Number.t;
  total : Number.t;
  percentage : Number.t
}.
End CoverageEntry.

Module Response.
Record t := {
  success : bool;
  coverage : gmap string CoverageEntry.t;
  totalCovered : Number.t;
  totalUncovered : Number.t;
  overallPercentage : Number.t;
  error : option string;
  toolingAPIUsed : bool
}.

Definition with_toolingAPIUsed (b : bool) (r : t) : t :=
  {| success := success r; coverage := coverage r;
     totalCovered := totalCovered r; totalUncovered := totalUncovered r;
     overallPercentage := overallPercentage r; error := error r;
     toolingAPIUsed := b |}.

Definition with_error (e : string) (r : t) : t :=
  {| success := success r; coverage := coverage r;
     totalCovered := totalCovered r; totalUncovered := totalUncovered r;
     overallPercentage := overallPercentage r; error := Some e;
     toolingAPIUsed := toolingAPIUsed r |}.

Definition with_coverage (c : gmap string CoverageEntry.t) (r : t) : t :=
  {| success := success r; coverage := c;
     totalCovered := totalCovered r; totalUncovered := totalUncovered r;
     overallPercentage := overallPercentage r; error := error r;
     toolingAPIUsed := toolingAPIUsed r |}.

Definition add_totals (c u : Number.t) (r : t) : t :=
  {| success := success r; coverage := coverage r;
     totalCovered := Number.add (totalCovered r) c;
     totalUncovered := Number.add (totalUncovered r) u;
     overallPercentage := overallPercentage r; error := error r;
     toolingAPIUsed := toolingAPIUsed r |}.

Definition with_overallPercentage (p : Number.t) (r : t) : t :=
  {| success := success r; coverage := coverage r;
     totalCovered := totalCovered r; totalUncovered := totalUncovered r;
     overallPercentage := p; error := error r;
     toolingAPIUsed := toolingAPIUsed r |}.

Definition with_success (ok : bool) (r : t) : t :=
  {| success := ok; coverage := coverage r;
     totalCovered := totalCovered r; totalUncovered := totalUncovered r;
     overallPercentage := overallPercentage r; error := error r;
     toolingAPIUsed := toolingAPIUsed r |}.
End Response.

(** [o[key] = v] on an object created by [{}]: every key becomes an own
    property, except [__proto__], whose assignment invokes the inherited
    setter and leaves the own properties unchanged. *)
Definition set_property {V} (o : gmap string V) (key : string) (v : V) : gmap string V :=
  if decide (key = "__proto__") then o else <[key := v]> o.

(** [x || d] on a string that may be absent. *)
Definition or_string (x : option string) (d : string) : string :=
  match x with
  | Some s => if JsString.truthy s then s else d
  | None => d
  end.

(** [x || 0] on a count that may be absent: the number read from the
    literal, or 0 when there is none or when that number is falsy. *)
Definition or_zero (x : option Z) : Number.t :=
  match x with
  | Some n =>
      let v := Number.canonical n in
      if Number.truthy v then v else Number.zero
  | None => Number.zero
  end.

(** [x || []] on an array that may be absent. *)
Definition or_empty {A} (x : option (list A)) : list A := default [] x.

(** [Math.round((part / whole * 100) * 100) / 100] *)
Definition round_percent (part whole : Number.t) : Number.t :=
  Number.div
    (Number.Math_round
       (Number.mul
          (Number.mul (Number.div part whole) (Number.of_Z 100))
          (Number.of_Z 100)))
    (Number.of_Z 100).

(** ** class SalesforceService *)

Section SalesforceService.

Context {RT : NodeRuntime}.
Variable config : Config.

(** The [options] argument of [runCommand]; [{}] is [no_options]. *)
Record RunOptions := { options_timeout : option Z }.
Definition no_options : RunOptions := {| options_timeout := None |}.

(** [a || b] on numbers that may be absent ([0] is falsy). *)
Definition or_number (a b : option Z) : option Z :=
  match a with
  | Some 0 | None => b
  | Some n => Some n
  end.

(** The [data], ['close'] and ['error'] handlers of [runCommand] run
    over the events in order: the value the promise is resolved with by
    the first ['close'] or ['error'], if there is one.  Later calls of
    [resolve] have no effect. *)
Fixpoint settle (events : list ChildEvent) (stdout stderr : string)
  : option CommandResult.t :=
  match events with
  | [] => None
  | stdout_data data :: rest => settle rest (stdout +:+ data) stderr
  | stderr_data data :: rest => settle rest stdout (stderr +:+ data)
  | close_event code :: _ =>
      Some {| CommandResult.success := bool_decide (code = Some 0);
              CommandResult.stdout := JsString.trim stdout;
              CommandResult.stderr := JsString.trim stderr;
              CommandResult.code := code |}
  | error_event message :: _ =>
      Some {| CommandResult.success := false;
              CommandResult.stdout := EmptyString;
              CommandResult.stderr := message;
              CommandResult.code := Some (-1) |}
  end.

Definition spawn_call (args : list string) (options : RunOptions) : SpawnCall :=
  {| file := head args;
     argv := tail args;
     stdio := "pipe";
     timeout :=
       match options_timeout options with
       | Some t => Some t      (* ...options *)
       | None => or_number (options_timeout options) (commandTimeout config)
       end |}.

(** [new Promise((resolve) => { ... })]: what [spawn] throws inside the
    executor rejects the promise; otherwise the promise is resolved by
    the handlers, or never. *)
Definition runCommand (args : list string) (options : RunOptions)
  : Async CommandResult.t :=
  fun s =>
    let call := spawn_call args options in
    let (child, w) := child_process_spawn call (world s) in
    let s' := {| world := w;
                 spawned := spawned s ++ [call];
                 sfCommand := sfCommand s;
                 serverStarted := serverStarted s |} in
    match child with
    | inl e => (Throw e, s')
    | inr events =>
        match settle events EmptyString EmptyString with
        | Some result => (Normal result, s')
        | None => (Pending, s')
        end
    end.

Definition simpleCommands : list string := ["sf"; "npx sf"].

(** [cmd.split(' ')] *)
Definition split_cmd (cmd : string) : list string := JsString.split " " cmd.

Definition possiblePaths (npmPrefix : string) : list string :=
  let isWindows := bool_decide (os_platform = "win32") in
  let sfFile := if isWindows then "sf.cmd" else "sf" in
  [ path_join [npmPrefix; "node_modules"; ".bin"; sfFile];
    path_join [npmPrefix; "bin"; sfFile] ].

Definition existsSync (p : string) : Async bool :=
  fun s => (Normal (fs_existsSync p (world s)), s).

Definition findSFCLI : Async (option (list string)) :=
  (* Try simple commands first *)
  let_await found :=
    for_of simpleCommands (fun cmd =>
      try_catch
        (let_await result := runCommand (split_cmd cmd ++ ["--version"]) no_options in
         if CommandResult.success result &&
            JsString.includes (JsString.toLowerCase (CommandResult.stdout result))
                              "salesforce"
         then ret (Some (split_cmd cmd))
         else ret None)
        (fun e => ret None)) in
  match found with
  | Some cmd => ret (Some cmd)
  | None =>
      (* Try npm prefix method *)
      let_await found :=
        try_catch
          (let_await npmResult := runCommand ["npm"; "config"; "get"; "prefix"] no_options in
           if CommandResult.success npmResult then
             let npmPrefix := JsString.trim (CommandResult.stdout npmResult) in
             for_of (possiblePaths npmPrefix) (fun sfPath =>
               let_await present := existsSync sfPath in
               if present then
                 try_catch
                   (let_await testResult := runCommand [sfPath; "--version"] no_options in
                    if CommandResult.success testResult
                    then ret (Some [sfPath])
                    else ret None)
                   (fun e => ret None)
               else ret None)
           else ret None)
          (fun e => ret None) in
      match found with
      | Some cmd => ret (Some cmd)
      | None => ret None
      end
  end.

Definition set_sfCommand (v : option (list string)) : Async unit :=
  fun s => (Normal tt, {| world := world s; spawned := spawned s;
                          sfCommand := v; serverStarted := serverStarted s |}).

Definition initialize : Async unit :=
  let_await found := findSFCLI in
  let_await _u := set_sfCommand found in
  match found with
  | None => throw (Error "SF CLI not found. Please install SF CLI.")
  | Some _ => ret tt
  end.

(** [[...this.sfCommand, ...args]]: spreading [null] throws. *)
Definition runSFCommand (args : list string) : Async CommandResult.t :=
  fun s =>
    match sfCommand s with
    | None => (Throw TypeError, s)
    | Some cmd => runCommand (cmd ++ args) no_options s
    end.

Definition org_descriptor (type : string) (org : Json.org) : OrgDescriptor.t :=
  {| OrgDescriptor.alias := or_string (Json.alias org) EmptyString;
     OrgDescriptor.username := or_string (Json.username org) EmptyString;
     OrgDescriptor.type := type;
     OrgDescriptor.identifier :=
       match Json.alias org with
       | Some a => if JsString.truthy a then Some a else Json.username org
       | None => Json.username org
       end |}.

Definition getAvailableOrgs : Async (list OrgDescriptor.t) :=
  let_await result := runSFCommand ["org"; "list"; "--json"] in
  if negb (CommandResult.success result) then ret []
  else
    match JSON_parse (CommandResult.stdout result) with
    | inl message => ret []          (* catch (e) *)
    | inr data =>
        let orgs := [] in
        (* Non-scratch orgs *)
        let nonScratch := or_empty (Json.result_ data ≫= Json.nonScratchOrgs) in
        let orgs := orgs ++ map (org_descriptor "Production/Sandbox") nonScratch in
        (* Scratch orgs *)
        let scratch := or_empty (Json.result_ data ≫= Json.scratchOrgs) in
        let orgs := orgs ++ map (org_descriptor "Scratch Org") scratch in
        ret orgs
    end.

Definition getOrgInfo (orgAlias : string) : Async (option OrgInfo.t) :=
  let_await result :=
    runSFCommand ["org"; "display"; "--target-org"; orgAlias; "--json"] in
  if negb (CommandResult.success result) then ret None
  else
    match JSON_parse (CommandResult.stdout result) with
    | inl message => ret None        (* catch (e) *)
    | inr data =>
        match Json.result_ data with
        | None => ret None           (* reading a property of undefined: catch (e) *)
        | Some orgData =>
            ret (Some
              {| OrgInfo.name :=
                   or_string (Json.result_alias orgData)
                     (or_string (Json.result_username orgData) "Unknown");
                 OrgInfo.url := or_string (Json.instanceUrl orgData) "Unknown";
                 OrgInfo.username := or_string (Json.result_username orgData) "Unknown";
                 OrgInfo.id := or_string (Json.id orgData) "Unknown" |})
        end
    end.

Definition testToolingAPI (orgAlias : string) : Async bool :=
  let query := "SELECT COUNT() FROM ApexClass LIMIT 1" in
  let_await result :=
    runSFCommand ["data"; "query"; "--query"; query;
                  "--target-org"; orgAlias;
                  "--use-tooling-api"; "--json"] in
  ret (CommandResult.success result).

Definition initial_response : Response.t :=
  {| Response.success := false;
     Response.coverage := ∅;
     Response.totalCovered := Number.zero;
     Response.totalUncovered := Number.zero;
     Response.overallPercentage := Number.zero;
     Response.error := None;
     Response.toolingAPIUsed := false |}.

(** The template literal of the Tooling API query, line breaks and
    indentation included. *)
Definition tooling_query : string := "
                SELECT ApexClassOrTrigger.Name, NumLinesCovered, NumLinesUncovered 
                FROM ApexCodeCoverageAggregate 
                WHERE ApexClassOrTrigger.NamespacePrefix = null
                ORDER BY ApexClassOrTrigger.Name
            ".

Definition fallback_query : string :=
  "SELECT Id, Name FROM ApexClass WHERE NamespacePrefix = null LIMIT 50".

(** The callback of [records.forEach] that processes coverage data, on
    a row that is an object. *)
Definition process_coverage (response : Response.t) (record : Json.record)
  : Response.t :=
  match Json.ApexClassOrTrigger_ record ≫= Json.Name with
  | Some name =>
      if JsString.truthy name then
        let covered := or_zero (Json.NumLinesCovered record) in
        let uncovered := or_zero (Json.NumLinesUncovered record) in
        let total := Number.add covered uncovered in
        let entry :=
          {| CoverageEntry.covered := covered;
             CoverageEntry.uncovered := uncovered;
             CoverageEntry.total := total;
             CoverageEntry.percentage :=
               if Number.ltb Number.zero total
               then round_percent covered total else Number.zero |} in
        Response.add_totals covered uncovered
          (Response.with_coverage
             (set_property (Response.coverage response) name entry) response)
      else response
  | None => response
  end.

(** The callback of [records.forEach] that just shows the class list,
    on a row that is an object. *)
Definition process_class (response : Response.t) (record : Json.record)
  : Response.t :=
  match Json.Name_ record with
  | Some name =>
      if JsString.truthy name then
        let entry :=
          {| CoverageEntry.covered := Number.zero;
             CoverageEntry.uncovered := Number.zero;
             CoverageEntry.total := Number.zero;
             CoverageEntry.percentage := Number.zero |} in
        Response.with_coverage
          (set_property (Response.coverage response) name entry) response
      else response
  | None => response
  end.

(** Whether [records.forEach] comes to a row that is [null]; the
    callback then throws, the rows in front of it having been
    processed. *)
Definition rows_end_in_null (data : Json.data) : bool :=
  match Json.result_ data with
  | Some result => Json.null_row result
  | None => false
  end.

(** The end of the [try] block of [getCoverageData], reached when no
    row has thrown: the overall percentage, then
    [response.success = true]. *)
Definition finish (response : Response.t) : Response.t :=
  let totalLines :=
    Number.add (Response.totalCovered response) (Response.totalUncovered response) in
  let response :=
    Response.with_overallPercentage
      (if Number.ltb Number.zero totalLines
       then round_percent (Response.totalCovered response) totalLines
       else Number.zero)
      response in
  Response.with_success true response.

Definition getCoverageData (orgAlias : string) : Async Response.t :=
  let response := initial_response in
  (* Test Tooling API availability *)
  let_await toolingAvailable := testToolingAPI orgAlias in
  let response := Response.with_toolingAPIUsed toolingAvailable response in
  let_await result :=
    if toolingAvailable then
      (* Use Tooling API for coverage data *)
      runSFCommand ["data"; "query"; "--query"; tooling_query;
                    "--target-org"; orgAlias;
                    "--use-tooling-api"; "--json"]
    else
      (* Fallback - just get class list *)
      runSFCommand ["data"; "query"; "--query"; fallback_query;
                    "--target-org"; orgAlias; "--json"] in
  if negb (CommandResult.success result) then
    ret (Response.with_error ("Query failed: " +:+ CommandResult.stderr result) response)
  else
    match JSON_parse (CommandResult.stdout result) with
    | inl message =>                 (* catch (e) *)
        ret (Response.with_error ("Failed to parse data: " +:+ message) response)
    | inr data =>
        let records := or_empty (Json.result_ data ≫= Json.records) in
        if toolingAvailable then
          (* Process coverage data *)
          let response := fold_left process_coverage records response in
          if rows_end_in_null data then     (* catch (e) *)
            ret (Response.with_error
                   ("Failed to parse data: " +:+
                    null_property_message "ApexClassOrTrigger") response)
          else ret (finish response)
        else
          (* Just show class list *)
          let response := fold_left process_class records response in
          if rows_end_in_null data then     (* catch (e) *)
            ret (Response.with_error
                   ("Failed to parse data: " +:+ null_property_message "Name")
                   response)
          else
            ret (finish
                   (Response.with_error
                      "Tooling API not available - showing class list only"
                      response))
    end.

(** ** class CoverageApp: start-up *)

(** [http.createServer] and then [server.listen]; what [listen] throws
    is thrown by [startServer]. *)
Definition startServer : Async unit :=
  fun s =>
    match server_listen (world s) with
    | Some e => (Throw e, s)
    | None =>
        (Normal tt, {| world := world s; spawned := spawned s;
                       sfCommand := sfCommand s; serverStarted := true |})
    end.

(** [CoverageApp.init] *)
Definition init : Async unit :=
  try_catch
    (let_await _u := initialize in startServer)
    (fun error => process_exit 1).

End SalesforceService.

(** ** class CoverageApp: request handling

    The handlers of [src/app.js].  A handler runs in the monad of
    [Web.Handler], whose state adds to the state of the program the calls
    made on the response object of the request.  One request is followed
    at a time, to its end. *)

(** The calls a handler makes on the response object [res], in order;
    the headers object of [writeHead] holds [Content-Type] only. *)
Inductive ResCall :=
| res_setHeader (name value : string)
| res_writeHead (statusCode : Z) (contentType : string)
| res_end (body : string).

(** The data handed to the template engine; every one also carries
    [config: this.config]. *)
Inductive TemplateData :=
| home_data (title : string) (orgs : list OrgDescriptor.t)
| coverage_data (title : string) (orgInfo : OrgInfo.t) (coverageData : Response.t)
| org_not_found_data (title : string) (orgAlias : string)
| error_data (title : string) (error : string).

(** What request handling needs besides [NodeRuntime].  The class
    [TemplateEngine] of [src/utils/template-engine.js] is not among the
    sources: its [render] is taken as given, a promise that is fulfilled
    with the page, is rejected, or never settles. *)
Class WebRuntime (RT : NodeRuntime) := {
  (** [url.parse(u, true).pathname]: the error [url.parse] throws, or
      the path; [None] is [null] *)
  url_parse_pathname : string -> JsError + option string;
  (** [decodeURIComponent]: the error thrown, or the decoded text *)
  decodeURIComponent : string -> JsError + string;
  (** [JSON.stringify(v, null, 2)] on the two values the API returns *)
  JSON_stringify_orgs : list OrgDescriptor.t -> string;
  JSON_stringify_coverage : Response.t -> string;
  (** [templateEngine.render]: the page, or the reason of the rejection;
      [None] when the promise never settles *)
  templateEngine_render :
    string -> TemplateData -> World -> option (JsError + string) * World;
  (** [fs.readFile]: what the callback is called with *)
  fs_readFile : string -> World -> (JsError + string) * World;
  (** [__dirname] of [src/app.js] *)
  dirname : string
}.

Record SecurityConfig := {
  contentSecurityPolicy : string;
  frameOptions : string;
  xssProtection : string
}.

Record AppConfig := {
  app_name : string;               (* config.app.name *)
  security : SecurityConfig;
  salesforce : Config
}.

(** [String.prototype.startsWith] *)
Definition startsWith (s searchString : string) : bool := String.prefix searchString s.

Module Web.
Section Handler.

Context {RT : NodeRuntime}.

(** One request being handled: the state of the program and the calls
    made so far on the response object of the request. *)
Record Exchange := {
  service : State;
  res : list ResCall
}.

Definition Handler (A : Type) : Type := Exchange -> Completion A * Exchange.

Definition ret {A} (a : A) : Handler A := fun x => (Normal a, x).

Definition bind {A B} (m : Handler A) (k : A -> Handler B) : Handler B :=
  fun x =>
    match m x with
    | (Normal a, x') => k a x'
    | (Throw e, x') => (Throw e, x')
    | (Exit c, x') => (Exit c, x')
    | (Pending, x') => (Pending, x')
    end.

Definition throw {A} (e : JsError) : Handler A := fun x => (Throw e, x).

Definition try_catch {A} (body : Handler A) (handler : JsError -> Handler A) : Handler A :=
  fun x =>
    match body x with
    | (Throw e, x') => handler e x'
    | other => other
    end.

(** A method of the service, called from a handler. *)
Definition call {A} (m : Async A) : Handler A :=
  fun x =>
    let (c, s') := m (service x) in
    (c, {| service := s'; res := res x |}).

(** A method of [res]. *)
Definition on_res (c : ResCall) : Handler unit :=
  fun x => (Normal tt, {| service := service x; res := res x ++ [c] |}).

(** A promise that nobody awaits.  The caller goes on at once; when the
    promise is rejected, the [unhandledRejection] handler that
    [server.js] installs ends the process with status 1. *)
Definition detached (m : Handler unit) : Handler unit :=
  fun x =>
    match m x with
    | (Throw e, x') => (Exit 1, x')
    | (Pending, x') => (Normal tt, x')
    | other => other
    end.

End Handler.
End Web.

Notation "'do_await' x ':=' m 'in' k" := (Web.bind m (fun x => k))
  (at level 10, x name, m at level 100, k at level 200).

Section CoverageApp.

Context {RT : NodeRuntime} {WRT : WebRuntime RT}.
Variable config : AppConfig.

Definition render (name : string) (data : TemplateData) : Web.Handler string :=
  fun x =>
    let s := Web.service x in
    let (outcome, w) := templateEngine_render name data (world s) in
    (match outcome with
     | Some (inr html) => Normal html
     | Some (inl reason) => Throw reason
     | None => Pending
     end,
     {| Web.service := {| world := w; spawned := spawned s;
                             sfCommand := sfCommand s;
                             serverStarted := serverStarted s |};
           Web.res := Web.res x |}).

Definition readFile (fullPath : string) : Web.Handler (JsError + string) :=
  fun x =>
    let s := Web.service x in
    let (r, w) := fs_readFile fullPath (world s) in
    (Normal r, {| Web.service := {| world := w; spawned := spawned s;
                                    sfCommand := sfCommand s;
                                    serverStarted := serverStarted s |};
                  Web.res := Web.res x |}).

Definition setSecurityHeaders : Web.Handler unit :=
  let security := security config in
  do_await _u := Web.on_res (res_setHeader "X-Content-Type-Options" "nosniff") in
  do_await _u := Web.on_res (res_setHeader "X-Frame-Options" (frameOptions security)) in
  do_await _u := Web.on_res (res_setHeader "X-XSS-Protection" (xssProtection security)) in
  do_await _u := Web.on_res (res_setHeader "Content-Security-Policy"
                               (contentSecurityPolicy security)) in
  do_await _u := Web.on_res (res_setHeader "Access-Control-Allow-Origin" "*") in
  do_await _u := Web.on_res (res_setHeader "Access-Control-Allow-Methods"
                               "GET, POST, OPTIONS") in
  Web.on_res (res_setHeader "Access-Control-Allow-Headers" "Content-Type").

Definition sendOrgNotFound (orgAlias : string) : Web.Handler unit :=
  let templateData := org_not_found_data "Organization Not Found" orgAlias in
  Web.detached
    (do_await html := render "pages/error" templateData in
     do_await _u := Web.on_res (res_writeHead 404 "text/html; charset=utf-8") in
     Web.on_res (res_end html)).

Definition send404 : Web.Handler unit :=
  let templateData :=
    error_data "404 - Page Not Found" "The requested page could not be found." in
  Web.detached
    (do_await html := render "pages/error" templateData in
     do_await _u := Web.on_res (res_writeHead 404 "text/html; charset=utf-8") in
     Web.on_res (res_end html)).

Definition sendError (message : string) : Web.Handler unit :=
  let templateData := error_data "Server Error" message in
  Web.detached
    (do_await html := render "pages/error" templateData in
     do_await _u := Web.on_res (res_writeHead 500 "text/html; charset=utf-8") in
     Web.on_res (res_end html)).

Definition handleHomePage : Web.Handler unit :=
  do_await orgs := Web.call (getAvailableOrgs (salesforce config)) in
  let templateData := home_data (app_name config) orgs in
  do_await html := render "pages/home" templateData in
  do_await _u := Web.on_res (res_writeHead 200 "text/html; charset=utf-8") in
  Web.on_res (res_end html).

Definition handleCoveragePage (orgAlias : string) : Web.Handler unit :=
  do_await orgInfo := Web.call (getOrgInfo (salesforce config) orgAlias) in
  match orgInfo with
  | None => sendOrgNotFound orgAlias
  | Some orgInfo =>
      do_await coverageData := Web.call (getCoverageData (salesforce config) orgAlias) in
      let templateData :=
        coverage_data ("Coverage Report: " +:+ OrgInfo.name orgInfo)
                      orgInfo coverageData in
      do_await html := render "pages/coverage" templateData in
      do_await _u := Web.on_res (res_writeHead 200 "text/html; charset=utf-8") in
      Web.on_res (res_end html)
  end.

Definition handleAPIOrgs : Web.Handler unit :=
  do_await orgs := Web.call (getAvailableOrgs (salesforce config)) in
  do_await _u := Web.on_res (res_writeHead 200 "application/json; charset=utf-8") in
  Web.on_res (res_end (JSON_stringify_orgs orgs)).

Definition handleAPICoverage (orgAlias : string) : Web.Handler unit :=
  do_await coverageData := Web.call (getCoverageData (salesforce config) orgAlias) in
  do_await _u := Web.on_res (res_writeHead 200 "application/json; charset=utf-8") in
  Web.on_res (res_end (JSON_stringify_coverage coverageData)).

(** The callback of [fs.readFile] runs once the file has been read;
    [handleRequest] does not wait for it. *)
Definition serveStaticFile (filePath contentType : string) : Web.Handler unit :=
  let fullPath := path_join [dirname; ".."; filePath] in
  do_await read := readFile fullPath in
  match read with
  | inl err => send404
  | inr data =>
      do_await _u := Web.on_res (res_writeHead 200 contentType) in
      Web.on_res (res_end data)
  end.

(** [decodeURIComponent(pathname.split('/')[i])]; an index past the end
    gives [undefined], which is decoded as the text [undefined]. *)
Definition decode_segment (pathname : string) (i : nat) : Web.Handler string :=
  match decodeURIComponent (default "undefined" (JsString.split "/" pathname !! i)) with
  | inl e => Web.throw e
  | inr text => Web.ret text
  end.

(** [url.parse] runs first, outside the [try] block: what it throws
    rejects the promise of [handleRequest] before any header is set. *)
Definition handleRequest (req_url : string) : Web.Handler unit :=
  match url_parse_pathname req_url with
  | inl e => Web.throw e
  | inr pathname =>
      (* Set security headers *)
      do_await _u := setSecurityHeaders in
      Web.try_catch
        ((* Route handling *)
         if bool_decide (pathname = Some "/") then handleHomePage
         else if bool_decide (pathname = Some "/css/styles.css") then
           serveStaticFile "public/css/styles.css" "text/css"
         else if bool_decide (pathname = Some "/js/app.js") then
           serveStaticFile "public/js/app.js" "application/javascript"
         else
           match pathname with
           | None => Web.throw TypeError        (* null.startsWith *)
           | Some pathname =>
               if startsWith pathname "/coverage/" then
                 do_await orgAlias := decode_segment pathname 2 in
                 handleCoveragePage orgAlias
               else if bool_decide (pathname = "/api/orgs") then handleAPIOrgs
               else if startsWith pathname "/api/coverage/" then
                 do_await orgAlias := decode_segment pathname 3 in
                 handleAPICoverage orgAlias
               else send404
           end)
        (fun error => sendError "Internal server error")
  end.

End CoverageApp.


(** ** Notions used to state the properties *)

(** [round(x, 2)]: [x] rounded to two decimals the way the program does
    it, [Math.round(x * 100) / 100]. *)
Definition round2 (x : Number.t) : Number.t :=
  Number.div (Number.Math_round (Number.mul x (Number.of_Z 100))) (Number.of_Z 100).

(** [part / whole * 100] *)
Definition ratio_percent (part whole : Number.t) : Number.t :=
  Number.mul (Number.div part whole) (Number.of_Z 100).

(** A binary64 number between 0 and 100 inclusive. *)
Definition is_percentage (p : Number.t) : bool :=
  valid_binary 53 1024 p &&
  Number.leb Number.zero p &&
  Number.leb p (Number.canonical 100).

Definition is_data (e : ChildEvent) : bool :=
  match e with
  | stdout_data _ | stderr_data _ => true
  | _ => false
  end.

(** The events of a child up to its first ['close'] or ['error'], and
    that event; [None] when the child emits neither. *)
Fixpoint until_settled (events : list ChildEvent)
  : option (list ChildEvent * ChildEvent) :=
  match events with
  | [] => None
  | e :: rest =>
      if is_data e then
        match until_settled rest with
        | Some (before, last) => Some (e :: before, last)
        | None => None
        end
      else Some ([], e)
  end.

(** Everything written to the standard output, respectively the standard
    error, in a list of events. *)
Fixpoint stdout_of (events : list ChildEvent) : string :=
  match events with
  | [] => EmptyString
  | stdout_data d :: rest => d +:+ stdout_of rest
  | _ :: rest => stdout_of rest
  end.

Fixpoint stderr_of (events : list ChildEvent) : string :=
  match events with
  | [] => EmptyString
  | stderr_data d :: rest => d +:+ stderr_of rest
  | _ :: rest => stderr_of rest
  end.

(** The three queries of [getCoverageData], as arguments of the CLI. *)
Definition probe_args (orgAlias : string) : list string :=
  ["data"; "query"; "--query"; "SELECT COUNT() FROM ApexClass LIMIT 1";
   "--target-org"; orgAlias; "--use-tooling-api"; "--json"].

Definition tooling_args (orgAlias : string) : list string :=
  ["data"; "query"; "--query"; tooling_query;
   "--target-org"; orgAlias; "--use-tooling-api"; "--json"].

Definition fallback_args (orgAlias : string) : list string :=
  ["data"; "query"; "--query"; fallback_query; "--target-org"; orgAlias; "--json"].

Definition zero_entry : CoverageEntry.t :=
  {| CoverageEntry.covered := Number.zero;
     CoverageEntry.uncovered := Number.zero;
     CoverageEntry.total := Number.zero;
     CoverageEntry.percentage := Number.zero |}.

(** The name under which a row of the aggregate query is stored: the
    rows without a name, or with an empty one, are skipped. *)
Definition coverage_name (record : Json.record) : option string :=
  match Json.ApexClassOrTrigger_ record ≫= Json.Name with
  | Some name => if JsString.truthy name then Some name else None
  | None => None
  end.

(** The same for a row of the class listing. *)
Definition class_name (record : Json.record) : option string :=
  match Json.Name_ record with
  | Some name => if JsString.truthy name then Some name else None
  | None => None
  end.

(** The entry stored for a row of the aggregate query. *)
Definition entry_of (record : Json.record) : CoverageEntry.t :=
  let covered := or_zero (Json.NumLinesCovered record) in
  let uncovered := or_zero (Json.NumLinesUncovered record) in
  {| CoverageEntry.covered := covered;
     CoverageEntry.uncovered := uncovered;
     CoverageEntry.total := Number.add covered uncovered;
     CoverageEntry.percentage :=
       if Number.ltb Number.zero (Number.add covered uncovered)
       then round2 (ratio_percent covered (Number.add covered uncovered))
       else Number.zero |}.

(** The total of an entry is the binary64 sum of its two counts, and its
    percentage is the rounded ratio when the total is greater than 0,
    and 0 otherwise. *)
Definition well_formed (e : CoverageEntry.t) : Prop :=
  CoverageEntry.total e
    = Number.add (CoverageEntry.covered e) (CoverageEntry.uncovered e) /\
  CoverageEntry.percentage e =
    if Number.ltb Number.zero (CoverageEntry.total e)
    then round2 (ratio_percent (CoverageEntry.covered e) (CoverageEntry.total e))
    else Number.zero.

(** The names under which the rows of an aggregate result are stored, in
    the order of the rows. *)
Definition stored_names (records : list Json.record) : list string :=
  omap coverage_name records.

(** The covered, respectively uncovered, lines of all the rows that are
    stored: their sum from the first row to the last, in the arithmetic
    of the program. *)
Definition add_covered (acc : Number.t) (record : Json.record) : Number.t :=
  match coverage_name record with
  | Some _ => Number.add acc (or_zero (Json.NumLinesCovered record))
  | None => acc
  end.

Definition add_uncovered (acc : Number.t) (record : Json.record) : Number.t :=
  match coverage_name record with
  | Some _ => Number.add acc (or_zero (Json.NumLinesUncovered record))
  | None => acc
  end.

Definition rows_covered (records : list Json.record) : Number.t :=
  fold_left add_covered records Number.zero.

Definition rows_uncovered (records : list Json.record) : Number.t :=
  fold_left add_uncovered records Number.zero.

(** Sums over the entries of a coverage map, in the arithmetic of the
    program and in the order in which [names] lists the keys: for an
    object filled row by row, the order in which its properties were
    created. *)
Definition add_entry (field : CoverageEntry.t -> Number.t)
  (m : gmap string CoverageEntry.t) (acc : Number.t) (name : string) : Number.t :=
  match m !! name with
  | Some e => Number.add acc (field e)
  | None => acc
  end.

Definition sum_covered (m : gmap string CoverageEntry.t) (names : list string)
  : Number.t :=
  fold_left (add_entry CoverageEntry.covered m) names Number.zero.

Definition sum_uncovered (m : gmap string CoverageEntry.t) (names : list string)
  : Number.t :=
  fold_left (add_entry CoverageEntry.uncovered m) names Number.zero.

(** The response [getCoverageData] returns once the probe has answered
    [toolingAvailable] and the query has come back with [result]. *)
Definition response_of {RT : NodeRuntime} (toolingAvailable : bool)
  (result : CommandResult.t) : Response.t :=
  let response := Response.with_toolingAPIUsed toolingAvailable initial_response in
  if negb (CommandResult.success result) then
    Response.with_error ("Query failed: " +:+ CommandResult.stderr result) response
  else
    match JSON_parse (CommandResult.stdout result) with
    | inl message =>
        Response.with_error ("Failed to parse data: " +:+ message) response
    | inr data =>
        let records := or_empty (Json.result_ data ≫= Json.records) in
        if toolingAvailable then
          let response := fold_left process_coverage records response in
          if rows_end_in_null data then
            Response.with_error
              ("Failed to parse data: " +:+
               null_property_message "ApexClassOrTrigger") response
          else finish response
        else
          let response := fold_left process_class records response in
          if rows_end_in_null data then
            Response.with_error
              ("Failed to parse data: " +:+ null_property_message "Name") response
          else
            finish
              (Response.with_error
                 "Tooling API not available - showing class list only" response)
    end.

(** The value [runCommand] resolves with when the child, having emitted
    [before], settles with [last]. *)
Definition result_of (before : list ChildEvent) (last : ChildEvent)
  : CommandResult.t :=
  match last with
  | error_event message =>
      {| CommandResult.success := false;
         CommandResult.stdout := EmptyString;
         CommandResult.stderr := message;
         CommandResult.code := Some (-1) |}
  | close_event code =>
      {| CommandResult.success := bool_decide (code = Some 0);
         CommandResult.stdout := JsString.trim (stdout_of before);
         CommandResult.stderr := JsString.trim (stderr_of before);
         CommandResult.code := code |}
  | _ =>
      {| CommandResult.success := false;
         CommandResult.stdout := EmptyString;
         CommandResult.stderr := EmptyString;
         CommandResult.code := None |}
  end.

(** The child could not be spawned, or exited with a status other than 0. *)
Definition is_failure (last : ChildEvent) : bool :=
  match last with
  | error_event _ => true
  | close_event code => negb (bool_decide (code = Some 0))
  | _ => false
  end.

(** The error text of a failed child: the message of the spawn error, or
    what the child wrote to its standard error. *)
Definition failure_text (before : list ChildEvent) (last : ChildEvent) : string :=
  match last with
  | error_event message => message
  | _ => JsString.trim (stderr_of before)
  end.

(** The identifier of a descriptor is a non-empty string. *)
Definition has_identifier (d : OrgDescriptor.t) : Prop :=
  exists i, OrgDescriptor.identifier d = Some i /\ i <> EmptyString.

(** A computation that neither starts the server nor assigns
    [this.sfCommand]. *)
Definition keeps_service {RT : NodeRuntime} {A} (m : Async A) : Prop :=
  forall s c s', m s = (c, s') ->
    serverStarted s' = serverStarted s /\ sfCommand s' = sfCommand s.

(** Whether the version output carries the marker of the tool. *)
Definition has_marker (result : CommandResult.t) : bool :=
  CommandResult.success result &&
  JsString.includes (JsString.toLowerCase (CommandResult.stdout result)) "salesforce".

Section FirstWorking.

Context {RT : NodeRuntime}.
Variable config : Config.

(** whether a candidate is tried at all *)
Variable usable : list string -> State -> bool.
(** whether its [--version] run makes it the answer *)
Variable accept : CommandResult.t -> bool.

(** [FirstWorking candidates s found s']: trying the candidates in the
    order of the list from state [s], [found] is the first usable one
    whose [--version] run is accepted, or [None] if there is none, and
    [s'] is the state after the last run.  A candidate whose run is
    rejected, [spawn] having thrown, is passed over like one whose run
    is not accepted. *)
Inductive FirstWorking
  : list (list string) -> State -> option (list string) -> State -> Prop :=
| FirstWorking_none s :
    FirstWorking [] s None s
| FirstWorking_skip c cs s found s' :
    usable c s = false ->
    FirstWorking cs s found s' ->
    FirstWorking (c :: cs) s found s'
| FirstWorking_found c cs s result s' :
    usable c s = true ->
    runCommand config (c ++ ["--version"]) no_options s = (Normal result, s') ->
    accept result = true ->
    FirstWorking (c :: cs) s (Some c) s'
| FirstWorking_next c cs s result s1 found s' :
    usable c s = true ->
    runCommand config (c ++ ["--version"]) no_options s = (Normal result, s1) ->
    accept result = false ->
    FirstWorking cs s1 found s' ->
    FirstWorking (c :: cs) s found s'
| FirstWorking_thrown c cs s e s1 found s' :
    usable c s = true ->
    runCommand config (c ++ ["--version"]) no_options s = (Throw e, s1) ->
    FirstWorking cs s1 found s' ->
    FirstWorking (c :: cs) s found s'.

End FirstWorking.



(** *** Bounds through the binary64 rounding *)

(** The exponent function of binary64. *)
Definition fexp64 (e : Z) : Z := fexp 53 1024 e.

(** The rounding record [mrs] lies below the grid point [b], strictly so
    when digits have been shifted out of it. *)
Definition under (mrs : shr_record) (b : Z) : Prop :=
  0 <= shr_m mrs <= b /\ (shr_r mrs || shr_s mrs = true -> shr_m mrs < b).

(** [x] is a non-negative number of value at most [B]. *)
Definition at_most (x : Number.t) (B : Z) : Prop :=
  x = S754_zero false \/
  exists m e, x = S754_finite false m e /\ e <= 0 /\ Z.pos m <= B * 2 ^ (- e).

(** *** Notions for the properties of the tool resolution *)

(** A computation that neither throws nor ends the process. *)
Definition settles_or_pends {RT : NodeRuntime} {A} (m : Async A) : Prop :=
  forall s c s', m s = (c, s') -> c = Pending \/ exists a, c = Normal a.

(** A computation that does not end the process. *)
Definition no_exit {RT : NodeRuntime} {A} (m : Async A) : Prop :=
  forall s c s', m s = (c, s') -> forall code, c <> Exit code.

(** [e] is thrown by the call of [spawn] that was made last. *)
Definition thrown_by_spawn {RT : NodeRuntime} (e : JsError) (s' : State) : Prop :=
  exists call w, last (spawned s') = Some call /\
                 fst (child_process_spawn call w) = inl e.

(** A computation that spawns at most [n] children, and only appends to
    the log of the spawned children. *)
Definition spawns_at_most {RT : NodeRuntime} {A} (n : nat) (m : Async A) : Prop :=
  forall s c s', m s = (c, s') ->
    exists calls, spawned s' = spawned s ++ calls /\ (length calls <= n)%nat.

(** *** Notions for the accuracy of the percentages *)

(** The value of a non-negative number in units of 2^-1074, the smallest
    positive binary64 number. *)
Definition scaled (x : Number.t) : Z :=
  match x with
  | S754_finite false m e => Z.pos m * 2 ^ (e + 1074)
  | _ => 0
  end.

(** [x] is zero, or a positive number whose exponent lies between [lo]
    and [hi]. *)
Definition exponent_within (x : Number.t) (lo hi : Z) : Prop :=
  x = S754_zero false \/ exists m e, x = S754_finite false m e /\ lo <= e <= hi.

(** *** Notions for the properties of the request handling *)

(** The calls of [setSecurityHeaders]. *)
Definition security_headers (config : AppConfig) : list ResCall :=
  [ res_setHeader "X-Content-Type-Options" "nosniff";
    res_setHeader "X-Frame-Options" (frameOptions (security config));
    res_setHeader "X-XSS-Protection" (xssProtection (security config));
    res_setHeader "Content-Security-Policy" (contentSecurityPolicy (security config));
    res_setHeader "Access-Control-Allow-Origin" "*";
    res_setHeader "Access-Control-Allow-Methods" "GET, POST, OPTIONS";
    res_setHeader "Access-Control-Allow-Headers" "Content-Type" ].

(** What answers a request: no call at all, or one [writeHead] with the
    status 200, 404 or 500 followed by one [end]. *)
Definition is_reply (calls : list ResCall) : Prop :=
  calls = [] \/
  exists statusCode contentType body,
    calls = [res_writeHead statusCode contentType; res_end body] /\
    (statusCode = 200 \/ statusCode = 404 \/ statusCode = 500).

(** A handler that answers at most once, has written nothing when it
    throws, and ends the process with status 1 if at all. *)
Definition replies_once {RT : NodeRuntime} {A} (m : Web.Handler A) : Prop :=
  forall x c x', m x = (c, x') ->
    exists calls,
      Web.res x' = Web.res x ++ calls /\ is_reply calls /\
      (forall e, c = Throw e -> calls = []) /\
      (forall code, c = Exit code -> code = 1).

(** A handler that leaves the response alone and does not end the
    process. *)
Definition silent {RT : NodeRuntime} {A} (m : Web.Handler A) : Prop :=
  forall x c x', m x = (c, x') ->
    Web.res x' = Web.res x /\ forall code, c <> Exit code.

(** The text of [s] before its first slash. *)
Fixpoint first_segment (s : string) : string :=
  match s with
  | EmptyString => EmptyString
  | String c rest =>
      if Ascii.eqb c "/" then EmptyString else String c (first_segment rest)
  end.

(** The state [s] in the world [w]. *)
Definition in_world {RT : NodeRuntime} (w : World) (s : State) : State :=
  {| world := w; spawned := spawned s; sfCommand := sfCommand s;
     serverStarted := serverStarted s |}.

(** ** A scripted runtime, for concrete runs *)

Module Demo.

(** The command line of a call of [spawn]. *)
Definition command_line (c : SpawnCall) : list string :=
  match file c with
  | Some f => f :: argv c
  | None => argv c
  end.

(** Whether an argument of the call has a NUL byte. *)
Definition has_nul (c : SpawnCall) : bool :=
  existsb (fun a => JsString.includes a (String "000"%char EmptyString))
          (command_line c).

Fixpoint lookup_script (table : list (list string * list ChildEvent))
  (cl : list string) : list ChildEvent :=
  match table with
  | [] => [error_event "spawn ENOENT"]
  | (k, events) :: rest => if decide (k = cl) then events else lookup_script rest cl
  end.

Fixpoint lookup_parse (table : list (string * Json.data)) (text : string)
  : string + Json.data :=
  match table with
  | [] => inl "Unexpected token"
  | (k, d) :: rest => if decide (k = text) then inr d else lookup_parse rest text
  end.

Fixpoint join_path (parts : list string) : string :=
  match parts with
  | [] => "."
  | [p] => p
  | p :: rest => p +:+ "/" +:+ join_path rest
  end.

(** [spawn] throws a [TypeError] when the file is undefined or when an
    argument has a NUL byte, as Node does; otherwise children answer by
    their command line, taken from [script].  The files in [files]
    exist, [JSON.parse] is the table [parses], and the port is one
    [listen] accepts. *)
Definition runtime (script : list (list string * list ChildEvent))
  (files : list string) (parses : list (string * Json.data)) : NodeRuntime :=
  {| World := unit;
     child_process_spawn := fun c w =>
       (match file c with
        | None => inl TypeError
        | Some _ =>
            if has_nul c then inl TypeError
            else inr (lookup_script script (command_line c))
        end, w);
     fs_existsSync := fun p _ => bool_decide (p ∈ files);
     os_platform := "linux";
     path_join := join_path;
     JSON_parse := lookup_parse parses;
     null_property_message := fun name =>
       "Cannot read properties of null (reading '" +:+ name +:+ "')";
     server_listen := fun _ => None |}.

(** The same runtime started with a port that is no port number, 70000
    for instance: [listen] throws. *)
Definition bad_port (RT : NodeRuntime) : NodeRuntime :=
  {| World := @World RT;
     child_process_spawn := @child_process_spawn RT;
     fs_existsSync := @fs_existsSync RT;
     os_platform := @os_platform RT;
     path_join := @path_join RT;
     JSON_parse := @JSON_parse RT;
     null_property_message := @null_property_message RT;
     server_listen := fun _ => Some (Error "options.port should be >= 0 and < 65536") |}.

Definition config : Config := {| commandTimeout := Some 30000 |}.

Definition start {RT : NodeRuntime} (w : World) (cmd : option (list string)) : State :=
  {| world := w; spawned := []; sfCommand := cmd; serverStarted := false |}.

Definition ok (out : string) : list ChildEvent :=
  [stdout_data out; close_event (Some 0)].

Definition failed (err : string) : list ChildEvent :=
  [stderr_data err; close_event (Some 1)].

Definition coverage_row (name : string) (covered uncovered : Z) : Json.record :=
  {| Json.ApexClassOrTrigger_ := Some {| Json.Name := Some name |};
     Json.Name_ := None;
     Json.NumLinesCovered := Some covered;
     Json.NumLinesUncovered := Some uncovered |}.

Definition class_row (name : string) : Json.record :=
  {| Json.ApexClassOrTrigger_ := None;
     Json.Name_ := Some name;
     Json.NumLinesCovered := None;
     Json.NumLinesUncovered := None |}.

Definition rows (records : list Json.record) : Json.data :=
  {| Json.result_ := Some
       {| Json.nonScratchOrgs := None; Json.scratchOrgs := None;
          Json.result_alias := None; Json.result_username := None;
          Json.instanceUrl := None; Json.id := None;
          Json.records := Some records; Json.null_row := false |} |}.

(** The rows [records] followed by a [null]. *)
Definition rows_then_null (records : list Json.record) : Json.data :=
  {| Json.result_ := Some
       {| Json.nonScratchOrgs := None; Json.scratchOrgs := None;
          Json.result_alias := None; Json.result_username := None;
          Json.instanceUrl := None; Json.id := None;
          Json.records := Some records; Json.null_row := true |} |}.

Definition org_lists (nonScratch scratch : list Json.org) : Json.data :=
  {| Json.result_ := Some
       {| Json.nonScratchOrgs := Some nonScratch; Json.scratchOrgs := Some scratch;
          Json.result_alias := None; Json.result_username := None;
          Json.instanceUrl := None; Json.id := None;
          Json.records := None; Json.null_row := false |} |}.

(** The Tooling API answers: the probe succeeds and the aggregate query
    prints rows that parse to [records]. *)
Definition tooling (records : list Json.record) : NodeRuntime :=
  runtime [ ("sf" :: probe_args "dev", ok "{count}");
            ("sf" :: tooling_args "dev", ok "{rows}") ]
          []
          [ ("{rows}", rows records) ].

(** The Tooling API is refused: the probe fails and the class listing
    prints rows that parse to [records]. *)
Definition fallback (records : list Json.record) : NodeRuntime :=
  runtime [ ("sf" :: probe_args "dev", failed "not available");
            ("sf" :: fallback_args "dev", ok "{rows}") ]
          []
          [ ("{rows}", rows records) ].


(** The aggregate query exits with status 1. *)
Definition refused : NodeRuntime :=
  runtime [ ("sf" :: probe_args "dev", ok "{count}");
            ("sf" :: tooling_args "dev", failed "ERROR: session expired  ") ]
          [] [].

(** [org list] prints the given orgs. *)
Definition with_orgs (nonScratch scratch : list Json.org) : NodeRuntime :=
  runtime [ (["sf"; "org"; "list"; "--json"], ok "{orgs}") ]
          []
          [ ("{orgs}", org_lists nonScratch scratch) ].

(** [sf] is not on the path, [npx sf] works. *)
Definition npx_only : NodeRuntime :=
  runtime [ (["npx"; "sf"; "--version"], ok "@salesforce/cli/2.15.9 linux-x64 node-v18.17.1") ]
          [] [].

(** Only the copy under the npm prefix works. *)
Definition under_prefix : NodeRuntime :=
  runtime [ (["npm"; "config"; "get"; "prefix"], ok "/usr/local
");
            (["/usr/local/bin/sf"; "--version"], ok "2.15.9") ]
          ["/usr/local/bin/sf"] [].

(** No CLI anywhere. *)
Definition bare : NodeRuntime := runtime [] [] [].

(** What [runCommand] resolves with for [ok], for [failed], and when the
    command is not in the script. *)
Definition exit0 (out : string) : CommandResult.t :=
  {| CommandResult.success := true;
     CommandResult.stdout := out;
     CommandResult.stderr := EmptyString;
     CommandResult.code := Some 0 |}.

Definition exit1 (err : string) : CommandResult.t :=
  {| CommandResult.success := false;
     CommandResult.stdout := EmptyString;
     CommandResult.stderr := err;
     CommandResult.code := Some 1 |}.

Definition not_spawned : CommandResult.t :=
  {| CommandResult.success := false;
     CommandResult.stdout := EmptyString;
     CommandResult.stderr := "spawn ENOENT";
     CommandResult.code := Some (-1) |}.

(** The state after the given command lines have been run from [s]. *)
Definition after {RT : NodeRuntime} (s : State) (commands : list (list string)) : State :=
  {| world := world s;
     spawned := spawned s ++ map (fun args => spawn_call config args no_options) commands;
     sfCommand := sfCommand s;
     serverStarted := serverStarted s |}.

(** An initialized service in the world [w]. *)
Definition ready (RT : NodeRuntime) (w : World) : State :=
  start w (Some ["sf"]).

(** The states after the probe, and after the query that follows it. *)
Definition probed {RT : NodeRuntime} (s : State) : State :=
  after s [["sf"] ++ probe_args "dev"].

Definition queried {RT : NodeRuntime} (tooling : bool) (s : State) : State :=
  after (probed s)
    [["sf"] ++ (if tooling then tooling_args "dev" else fallback_args "dev")].

(** The value a completion returns, [d] when it does not return. *)
Definition returned {A} (d : A) (c : Completion A) : A :=
  match c with
  | Normal a => a
  | _ => d
  end.

(** Rows for the concrete runs: a class with 23 of 160 lines covered and
    a trigger without executable lines; a row with a negative count; two
    rows of the same name. *)
Definition usual_rows : list Json.record :=
  [coverage_row "AccountService" 23 137; coverage_row "OrderTrigger" 0 0].


Definition twin_rows : list Json.record :=
  [coverage_row "Invoice" 1 0; coverage_row "Invoice" 2 0].


(** A listing with a class named [__proto__], and an org alias with a
    NUL byte in it. *)
Definition proto_classes : list Json.record :=
  [class_row "__proto__"; class_row "OrderHelper"].

Definition nul_alias : string := String "d" (String "000"%char EmptyString).

Definition listed_classes : list Json.record :=
  [class_row "AccountService"; class_row "OrderHelper"].

Definition named_org : Json.org :=
  {| Json.alias := Some "dev"; Json.username := Some "dev@example.com" |}.

Definition scratch_org : Json.org :=
  {| Json.alias := None; Json.username := Some "test-abc@example.com" |}.

Definition nameless_org : Json.org :=
  {| Json.alias := None; Json.username := None |}.

End Demo.

(** ** Scripted runtimes for the further concrete runs *)

Module WebDemo.

(** A child that goes on writing after it has been reported closed. *)
Definition chatty : NodeRuntime :=
  Demo.runtime
    [ (["sf"; "--version"],
       [ stdout_data " @salesforce/cli/2.15.9"; stderr_data "warning "; stdout_data " linux-x64
";
         close_event (Some 0); stdout_data "late"; close_event (Some 1) ]) ]
    [] [].

(** [org display] prints an org that has a username and an instance URL,
    but neither an alias nor an id. *)
Definition org_display : Json.data :=
  {| Json.result_ := Some
       {| Json.nonScratchOrgs := None; Json.scratchOrgs := None;
          Json.result_alias := None;
          Json.result_username := Some "dev@example.com";
          Json.instanceUrl := Some "https://example.my.salesforce.com";
          Json.id := None;
          Json.records := None; Json.null_row := false |} |}.

Definition displayed : NodeRuntime :=
  Demo.runtime
    [ (["sf"; "org"; "display"; "--target-org"; "dev"; "--json"], Demo.ok "{org}") ]
    []
    [ ("{org}", org_display) ].

Definition config : AppConfig :=
  {| app_name := "Salesforce Coverage Viewer";
     security := {| contentSecurityPolicy := "default-src 'self' 'unsafe-inline'";
                    frameOptions := "DENY";
                    xssProtection := "1; mode=block" |};
     salesforce := Demo.config |}.

(** The page of a template: its name and the title it is given. *)
Definition page (name : string) (data : TemplateData) : string :=
  name +:+ ": " +:+
  match data with
  | home_data title _ => title
  | coverage_data title _ _ => title
  | org_not_found_data title orgAlias => title +:+ " (" +:+ orgAlias +:+ ")"
  | error_data title error => title +:+ " (" +:+ error +:+ ")"
  end.

Fixpoint read_file (files : list (string * string)) (fullPath : string)
  : JsError + string :=
  match files with
  | [] => inl (Error "ENOENT")
  | (k, data) :: rest => if decide (k = fullPath) then inr data else read_file rest fullPath
  end.

(** Request handling over the runtime [RT]: the URL is its own path,
    except for [http://[/], whose host [url.parse] rejects; a text with
    a percent sign is not decodable, the templates named in [broken] are
    rejected and the others render to [page], and the static files are
    those of the table [files]. *)
Definition web (RT : NodeRuntime) (broken : list string)
  (files : list (string * string)) : WebRuntime RT :=
  {| url_parse_pathname := fun u =>
       if bool_decide (u = "http://[/") then inl TypeError else inr (Some u);
     decodeURIComponent := fun text =>
       if JsString.includes text "%" then inl (Error "URI malformed") else inr text;
     JSON_stringify_orgs := fun orgs =>
       match orgs with [] => "[]" | _ => "[...]" end;
     JSON_stringify_coverage := fun response =>
       if Response.success response then "{success: true}" else "{success: false}";
     templateEngine_render := fun name data w =>
       (if bool_decide (name ∈ broken)
        then Some (inl (Error "ENOENT: no such template"))
        else Some (inr (page name data)), w);
     fs_readFile := fun fullPath w => (read_file files fullPath, w);
     dirname := "/srv/app/src" |}.

(** A class without uncovered lines and a class without covered lines. *)
Definition extreme_rows : list Json.record :=
  [Demo.coverage_row "Covered" 7 0; Demo.coverage_row "Untested" 0 12].

(** A row whose name is [__proto__] and an ordinary one. *)
Definition proto_rows : list Json.record :=
  [Demo.coverage_row "__proto__" 5 5; Demo.coverage_row "Account" 1 1].

(** The CLI knows the org [dev] and answers the coverage queries. *)
Definition serving : NodeRuntime :=
  Demo.runtime
    [ (["sf"; "org"; "display"; "--target-org"; "dev"; "--json"], Demo.ok "{org}");
      ("sf" :: probe_args "dev", Demo.ok "{count}");
      ("sf" :: tooling_args "dev", Demo.ok "{rows}") ]
    []
    [ ("{org}", WebDemo.org_display); ("{rows}", Demo.rows Demo.usual_rows) ].

(** A request that arrives at an initialized service. *)
Definition arrival (RT : NodeRuntime) (w : World) : Web.Exchange :=
  {| Web.service := Demo.ready RT w; Web.res := [] |}.

End WebDemo.



(** * Properties *)

(** ** Binary64 rounding never crosses a grid point

    The lemmas of this part follow a mantissa through [binary_round_aux]
    to bound the result of the division and of the two multiplications
    of [round_percent]. *)

Lemma digits2_pos_bounds (p : positive) :
  2 ^ (Z.pos (digits2_pos p) - 1) <= Z.pos p < 2 ^ Z.pos (digits2_pos p).
Proof.
  induction p as [p IH | p IH |]; cbn [digits2_pos].
  - rewrite Pos2Z.inj_succ.
    replace (Z.succ (Z.pos (digits2_pos p)) - 1) with (Z.succ (Z.pos (digits2_pos p) - 1)) by lia.
    rewrite !Z.pow_succ_r by lia. lia.
  - rewrite Pos2Z.inj_succ.
    replace (Z.succ (Z.pos (digits2_pos p)) - 1) with (Z.succ (Z.pos (digits2_pos p) - 1)) by lia.
    rewrite !Z.pow_succ_r by lia. lia.
  - cbn. lia.
Qed.

Lemma Zdigits2_le_of_lt_pow (m k : Z) :
  0 <= k -> 0 <= m < 2 ^ k -> Zdigits2 m <= k.
Proof.
  intros Hk [Hm0 Hm]. destruct m as [| p | p]; cbn [Zdigits2]; [lia | | lia].
  pose proof (digits2_pos_bounds p) as [Hlo _].
  destruct (Z_lt_le_dec k (Z.pos (digits2_pos p))) as [Hlt | ?]; [| lia].
  exfalso.
  assert (2 ^ k <= 2 ^ (Z.pos (digits2_pos p) - 1)) by (apply Z.pow_le_mono_r; lia).
  lia.
Qed.

Lemma Zdigits2_nonneg m : 0 <= Zdigits2 m.
Proof. destruct m; cbn; lia. Qed.

Lemma pow2_xI (n : positive) : 2 ^ Z.pos n~1 = 2 * (2 ^ Z.pos n * 2 ^ Z.pos n).
Proof.
  replace (Z.pos n~1) with (Z.pos n + Z.pos n + 1) by lia.
  rewrite !Z.pow_add_r by lia. change (2 ^ 1) with 2. ring.
Qed.

Lemma pow2_xO (n : positive) : 2 ^ Z.pos n~0 = 2 ^ Z.pos n * 2 ^ Z.pos n.
Proof.
  replace (Z.pos n~0) with (Z.pos n + Z.pos n) by lia.
  rewrite Z.pow_add_r by lia. reflexivity.
Qed.


Lemma shr_1_under mrs b : under mrs (2 * b) -> under (shr_1 mrs) b.
Proof.
  destruct mrs as [m r s]. unfold under. cbn [shr_m shr_r shr_s].
  intros [[H0 Hb] Hs].
  destruct m as [| [p | p |] | p]; cbn [shr_1 shr_m shr_r shr_s]; try lia;
    (split; [lia |]); cbn [orb]; intros H; first [lia | apply Hs in H; lia].
Qed.

Lemma iter_pos_shr_1_under (n : positive) : forall mrs b,
  under mrs (2 ^ Z.pos n * b) -> under (SpecFloat.iter_pos shr_1 n mrs) b.
Proof.
  induction n as [n IH | n IH |]; intros mrs b H; cbn [SpecFloat.iter_pos].
  - apply IH, IH, shr_1_under.
    replace (2 * (2 ^ Z.pos n * (2 ^ Z.pos n * b))) with (2 ^ Z.pos n~1 * b); [exact H |].
    rewrite pow2_xI. ring.
  - apply IH, IH.
    replace (2 ^ Z.pos n * (2 ^ Z.pos n * b)) with (2 ^ Z.pos n~0 * b); [exact H |].
    rewrite pow2_xO. ring.
  - apply shr_1_under. exact H.
Qed.

Lemma shr_1_m mrs : 0 <= shr_m mrs -> shr_m (shr_1 mrs) = shr_m mrs / 2.
Proof.
  destruct mrs as [m r s]. cbn [shr_m]. intros H.
  destruct m as [| [p | p |] | p]; cbn [shr_1 shr_m]; try lia.
  - reflexivity.
  - rewrite Pos2Z.inj_xI. apply Z.div_unique with 1; lia.
  - rewrite Pos2Z.inj_xO. apply Z.div_unique with 0; lia.
  - reflexivity.
Qed.

Lemma iter_pos_shr_1_m (n : positive) : forall mrs,
  0 <= shr_m mrs -> shr_m (SpecFloat.iter_pos shr_1 n mrs) = shr_m mrs / 2 ^ Z.pos n.
Proof.
  assert (Hnn : forall mrs, 0 <= shr_m mrs -> 0 <= shr_m (shr_1 mrs)).
  { intros mrs H. rewrite shr_1_m by exact H. apply Z.div_pos; lia. }
  induction n as [n IH | n IH |]; intros mrs H; cbn [SpecFloat.iter_pos].
  - assert (H1 := Hnn _ H).
    assert (H2 : 0 <= shr_m (SpecFloat.iter_pos shr_1 n (shr_1 mrs))).
    { rewrite IH by exact H1. apply Z.div_pos; lia. }
    rewrite IH, IH, shr_1_m by assumption.
    rewrite !Z.div_div by lia. f_equal.
    rewrite pow2_xI. ring.
  - assert (H2 : 0 <= shr_m (SpecFloat.iter_pos shr_1 n mrs)).
    { rewrite IH by exact H. apply Z.div_pos; lia. }
    rewrite IH, IH by assumption.
    rewrite !Z.div_div by lia. f_equal.
    rewrite pow2_xO. ring.
  - rewrite shr_1_m by exact H. reflexivity.
Qed.

Lemma shr_snd mrs e n : snd (shr mrs e n) = e + Z.max 0 n.
Proof. destruct n; cbn [shr snd]; lia. Qed.

Lemma shr_under mrs e n b :
  under mrs (2 ^ Z.max 0 n * b) -> under (fst (shr mrs e n)) b.
Proof.
  destruct n as [| p | p]; cbn [shr fst].
  - change (Z.max 0 0) with 0. rewrite Z.pow_0_r, Z.mul_1_l. auto.
  - rewrite Z.max_r by lia. apply iter_pos_shr_1_under.
  - rewrite Z.max_l by lia. rewrite Z.pow_0_r, Z.mul_1_l. auto.
Qed.

Lemma shr_floor mrs e n :
  0 <= shr_m mrs -> shr_m (fst (shr mrs e n)) = shr_m mrs / 2 ^ Z.max 0 n.
Proof.
  intros H. destruct n as [| p | p]; cbn [shr fst].
  - change (Z.max 0 0) with 0. rewrite Z.pow_0_r, Z.div_1_r. reflexivity.
  - rewrite Z.max_r by lia. apply iter_pos_shr_1_m, H.
  - rewrite Z.max_l by lia. rewrite Z.pow_0_r, Z.div_1_r. reflexivity.
Qed.

Lemma round_nearest_even_under mrs b :
  under mrs b ->
  0 <= round_nearest_even (shr_m mrs) (loc_of_shr_record mrs) <= b.
Proof.
  destruct mrs as [m r s]. unfold under. cbn [shr_m shr_r shr_s].
  intros [H Hs].
  destruct r, s; cbn [loc_of_shr_record round_nearest_even orb] in *;
    try destruct (Z.even m); try specialize (Hs eq_refl); lia.
Qed.

Lemma Zdigits2_mono a b : 0 <= a <= b -> Zdigits2 a <= Zdigits2 b.
Proof.
  intros [Ha Hab].
  destruct a as [| p | p]; [apply Zdigits2_nonneg | | lia].
  destruct b as [| q | q]; try lia. cbn [Zdigits2].
  pose proof (digits2_pos_bounds p) as [Hp _].
  pose proof (digits2_pos_bounds q) as [_ Hq].
  destruct (Z_lt_le_dec (Z.pos (digits2_pos q)) (Z.pos (digits2_pos p))) as [Hlt | ?]; [| lia].
  exfalso.
  assert (2 ^ Z.pos (digits2_pos q) <= 2 ^ (Z.pos (digits2_pos p) - 1))
    by (apply Z.pow_le_mono_r; lia).
  lia.
Qed.


Lemma fexp64_eq e : fexp64 e = Z.max (e - 53) (-1074).
Proof. reflexivity. Qed.

Lemma binary_round_aux_bound (sx : bool) (m e : Z) (l : location) (b : Z) :
  let e1 := e + Z.max 0 (fexp64 (Zdigits2 m + e) - e) in
  under (shr_record_of_loc m l) (2 ^ Z.max 0 (fexp64 (Zdigits2 m + e) - e) * b) ->
  Z.max e1 (fexp64 (Zdigits2 b + e1)) <= 971 ->
  binary_round_aux 53 1024 sx m e l = S754_zero sx \/
  exists m3 e2,
    binary_round_aux 53 1024 sx m e l = S754_finite sx m3 e2 /\
    e1 <= e2 <= Z.max e1 (fexp64 (Zdigits2 b + e1)) /\
    Z.pos m3 * 2 ^ (e2 - e1) <= b.
Proof.
  intros e1 Hunder Hmax.
  unfold binary_round_aux, shr_fexp.
  fold (fexp64 (Zdigits2 m + e)).
  set (n1 := fexp64 (Zdigits2 m + e) - e) in *.
  pose proof (shr_snd (shr_record_of_loc m l) e n1) as He1.
  pose proof (shr_under _ e n1 b Hunder) as Hu1.
  destruct (shr (shr_record_of_loc m l) e n1) as [mrs1 e1'].
  cbn [fst snd] in He1, Hu1. subst e1'. fold e1.
  pose proof (round_nearest_even_under _ _ Hu1) as Hm2.
  set (m2 := round_nearest_even (shr_m mrs1) (loc_of_shr_record mrs1)) in *.
  fold (fexp64 (Zdigits2 m2 + e1)).
  set (n2 := fexp64 (Zdigits2 m2 + e1) - e1).
  pose proof (shr_snd (shr_record_of_loc m2 loc_Exact) e1 n2) as He2.
  pose proof (shr_floor (shr_record_of_loc m2 loc_Exact) e1 n2) as Hfl.
  destruct (shr (shr_record_of_loc m2 loc_Exact) e1 n2) as [mrs2 e2].
  cbn [fst snd shr_record_of_loc shr_m] in He2, Hfl.
  specialize (Hfl (proj1 Hm2)).
  assert (Hdig : Zdigits2 m2 <= Zdigits2 b) by (apply Zdigits2_mono; lia).
  assert (He2le : e1 <= e2 <= Z.max e1 (fexp64 (Zdigits2 b + e1))).
  { subst e2 n2. rewrite !fexp64_eq in *. lia. }
  assert (Hpow : 0 < 2 ^ Z.max 0 n2) by (apply Z.pow_pos_nonneg; lia).
  assert (Hm3 : 0 <= shr_m mrs2 /\ shr_m mrs2 * 2 ^ (e2 - e1) <= b).
  { rewrite Hfl. replace (e2 - e1) with (Z.max 0 n2) by lia. split.
    - apply Z.div_pos; lia.
    - pose proof (Z.mul_div_le m2 (2 ^ Z.max 0 n2) Hpow). lia. }
  destruct (shr_m mrs2) as [| m3 | m3]; [left; reflexivity | | lia].
  right. exists m3, e2.
  replace (e2 <=? 1024 - 53) with true by (symmetry; apply Z.leb_le; lia).
  repeat split; lia.
Qed.


Lemma shr_record_of_loc_under m l b :
  0 <= m <= b -> (l <> loc_Exact -> m < b) -> under (shr_record_of_loc m l) b.
Proof.
  intros Hm Hl. unfold under.
  destruct l as [| []]; cbn [shr_record_of_loc shr_m shr_r shr_s orb];
    (split; [exact Hm |]); intros H; try discriminate; apply Hl; discriminate.
Qed.

Lemma round_at_most (m e : Z) (l : location) (B : Z) :
  e <= 0 -> 0 < B < 2 ^ 53 ->
  0 <= m <= B * 2 ^ (- e) -> (l <> loc_Exact -> m < B * 2 ^ (- e)) ->
  at_most (binary_round_aux 53 1024 false m e l) B.
Proof.
  intros He HB Hm Hl.
  set (k1 := Z.max 0 (fexp64 (Zdigits2 m + e) - e)).
  set (e1 := e + k1).
  assert (Hpe : 0 < 2 ^ (- e)) by (apply Z.pow_pos_nonneg; lia).
  assert (Hdm : Zdigits2 m + e <= 53).
  { assert (Zdigits2 m <= 53 - e); [| lia].
    apply Zdigits2_le_of_lt_pow; [lia |]. split; [lia |].
    replace (53 - e) with (53 + - e) by lia. rewrite Z.pow_add_r by lia. nia. }
  assert (He1 : e1 <= 0) by (subst e1 k1; rewrite fexp64_eq; lia).
  assert (Hk1 : 0 <= k1) by (subst k1; lia).
  assert (Hsplit : 2 ^ (- e) = 2 ^ k1 * 2 ^ (- e1)).
  { rewrite <- Z.pow_add_r by lia. f_equal. lia. }
  assert (Hpe1 : 0 < 2 ^ (- e1)) by (apply Z.pow_pos_nonneg; lia).
  assert (Hdb : Zdigits2 (B * 2 ^ (- e1)) + e1 <= 53).
  { assert (Zdigits2 (B * 2 ^ (- e1)) <= 53 - e1); [| lia].
    apply Zdigits2_le_of_lt_pow; [lia |]. split; [nia |].
    replace (53 - e1) with (53 + - e1) by lia. rewrite Z.pow_add_r by lia. nia. }
  destruct (binary_round_aux_bound false m e l (B * 2 ^ (- e1))) as [Hz | (m3 & e2 & Hr & He2 & Hv)].
  - fold k1. apply shr_record_of_loc_under.
    + replace (2 ^ k1 * (B * 2 ^ (- e1))) with (B * 2 ^ (- e)) by (rewrite Hsplit; ring). exact Hm.
    + replace (2 ^ k1 * (B * 2 ^ (- e1))) with (B * 2 ^ (- e)) by (rewrite Hsplit; ring). exact Hl.
  - fold k1. fold e1. rewrite fexp64_eq. lia.
  - left. exact Hz.
  - fold k1 in He2, Hv. fold e1 in He2, Hv. rewrite fexp64_eq in He2.
    right. exists m3, e2. split; [exact Hr |]. split; [lia |].
    assert (Hp : 0 < 2 ^ (e2 - e1)) by (apply Z.pow_pos_nonneg; lia).
    assert (Hs2 : 2 ^ (- e1) = 2 ^ (- e2) * 2 ^ (e2 - e1)).
    { rewrite <- Z.pow_add_r by lia. f_equal. lia. }
    rewrite Hs2 in Hv. nia.
Qed.

Lemma new_location_exact (nb_steps k : Z) :
  new_location nb_steps k <> loc_Exact -> k <> 0.
Proof.
  unfold new_location, new_location_even, new_location_odd.
  intros H ->. destruct (Z.even nb_steps); cbn in H; congruence.
Qed.

Lemma div_at_most_one (c t : Z) :
  0 <= c <= t -> 0 < t -> at_most (Number.div (Number.of_Z c) (Number.of_Z t)) 1.
Proof.
  intros [Hc Hct] Ht.
  destruct t as [| q | q]; try lia.
  destruct c as [| p | p]; try lia; [left; reflexivity |].
  cbn [Number.of_Z Number.div SFdiv xorb]; unfold Number.div; cbn [SFdiv xorb]. unfold SFdiv_core_binary.
  fold (fexp64 (Zdigits2 (Z.pos p) + 0 - (Zdigits2 (Z.pos q) + 0))).
  set (e' := Z.min (fexp64 (Zdigits2 (Z.pos p) + 0 - (Zdigits2 (Z.pos q) + 0))) (0 - 0)).
  assert (Hd : Zdigits2 (Z.pos p) <= Zdigits2 (Z.pos q)) by (apply Zdigits2_mono; lia).
  assert (He' : e' < 0) by (subst e'; rewrite fexp64_eq; lia).
  replace (0 - 0 - e') with (- e') by lia.
  destruct (- e') as [| s | s] eqn:Hs; try lia.
  rewrite Z.shiftl_mul_pow2 by lia.
  pose proof (Z_div_mod (Z.pos p * 2 ^ Z.pos s) (Z.pos q) ltac:(lia)) as Hdm.
  destruct (Z.div_eucl (Z.pos p * 2 ^ Z.pos s) (Z.pos q)) as [q' r].
  destruct Hdm as [Heq Hr].
  assert (Hpow : 0 < 2 ^ Z.pos s) by (apply Z.pow_pos_nonneg; lia).
  apply round_at_most; rewrite ?Hs, ?Z.mul_1_l; try lia.
  - split; nia.
  - intros Hl. apply new_location_exact in Hl. nia.
Qed.

Lemma mul_100_at_most (x : spec_float) (B : Z) :
  0 < B -> 100 * B < 2 ^ 53 ->
  at_most x B -> at_most (Number.mul x (Number.of_Z 100)) (100 * B).
Proof.
  intros HB Hlt [-> | (m & e & -> & He & Hm)]; [left; reflexivity |].
  unfold Number.mul; cbn [Number.of_Z SFmul xorb].
  assert (Hpe : 0 < 2 ^ (- e)) by (apply Z.pow_pos_nonneg; lia).
  apply round_at_most; try lia.
  - rewrite Z.add_0_r, Pos2Z.inj_mul. lia.
  - intros H. contradiction H. reflexivity.
Qed.


Lemma round_at_most_integer (x : spec_float) (B : Z) :
  0 <= B -> at_most x B -> exists r, 0 <= r <= B /\ Number.Math_round x = Number.of_Z r.
Proof.
  intros HB [-> | (m & e & -> & He & Hm)]; [exists 0; split; [lia | reflexivity] |].
  destruct e as [| k | k]; try lia.
  - exists (Z.pos m). cbn in Hm. split; [lia | reflexivity].
  - cbn [Number.Math_round]. rewrite Z.pow_pos_fold.
    change (- Z.neg k) with (Z.pos k) in Hm.
    assert (Hp : 0 < 2 ^ Z.pos k) by (apply Z.pow_pos_nonneg; lia).
    set (r := (2 * Z.pos m + 2 ^ Z.pos k) / (2 * 2 ^ Z.pos k)).
    assert (Hr : 0 <= r <= B).
    { subst r. split.
      - apply Z.div_pos; lia.
      - apply Z.lt_succ_r, Z.div_lt_upper_bound; lia. }
    exists r. split; [exact Hr |]. destruct r; reflexivity.
Qed.


Lemma hundredths_are_percentages (r : Z) :
  0 <= r <= 10000 -> is_percentage (Number.div (Number.of_Z r) (Number.of_Z 100)) = true.
Proof.
  assert (H : forallb (fun r => is_percentage (Number.div (Number.of_Z r) (Number.of_Z 100)))
                      (seqZ 0 10001) = true) by (vm_compute; reflexivity).
  intros Hr. rewrite forallb_forall in H. apply H.
  apply list_elem_of_In, elem_of_seqZ. lia.
Qed.


Lemma round_percent_is_percentage (part whole : Z) :
  0 <= part <= whole -> 0 < whole ->
  is_percentage (round_percent (Number.of_Z part) (Number.of_Z whole)) = true.
Proof.
  intros Hp Hw. unfold round_percent.
  pose proof (div_at_most_one part whole Hp Hw) as H1.
  apply (mul_100_at_most _ 1) in H1; [| lia | cbn; lia].
  apply (mul_100_at_most _ (100 * 1)) in H1; [| lia | cbn; lia].
  apply round_at_most_integer in H1; [| lia].
  destruct H1 as (r & Hr & ->).
  apply hundredths_are_percentages. lia.
Qed.

(** ** The binary64 numbers of the counts below 2^53

    An integer below 2^53 is a binary64 number, and on such numbers the
    sum of the program is the integer sum and its quotient is the
    binary64 quotient of the two integers. *)

Lemma Zdigits2_unique (m k : Z) :
  0 < k -> 2 ^ (k - 1) <= m < 2 ^ k -> Zdigits2 m = k.
Proof.
  intros Hk [Hlo Hhi].
  assert (0 < 2 ^ (k - 1)) by (apply Z.pow_pos_nonneg; lia).
  destruct m as [| p | p]; try lia. cbn [Zdigits2].
  pose proof (digits2_pos_bounds p) as [Hp1 Hp2].
  assert (Z.pos (digits2_pos p) - 1 < k) by (apply (Z.pow_lt_mono_r_iff 2); lia).
  assert (k - 1 < Z.pos (digits2_pos p)) by (apply (Z.pow_lt_mono_r_iff 2); lia).
  lia.
Qed.

Lemma Zdigits2_shift (p : positive) (k : Z) :
  0 <= k -> Zdigits2 (Z.pos p * 2 ^ k) = Zdigits2 (Z.pos p) + k.
Proof.
  intros Hk. cbn [Zdigits2].
  pose proof (digits2_pos_bounds p) as [Hp1 Hp2].
  assert (Hpk : 0 < 2 ^ k) by (apply Z.pow_pos_nonneg; lia).
  apply Zdigits2_unique; [lia |]. split.
  - replace (Z.pos (digits2_pos p) + k - 1) with (Z.pos (digits2_pos p) - 1 + k) by lia.
    rewrite Z.pow_add_r by lia. nia.
  - rewrite Z.pow_add_r by lia. nia.
Qed.

Lemma iter_xO_value (p n : positive) :
  Z.pos (Pos.iter xO p n) = Z.pos p * 2 ^ Z.pos n.
Proof.
  change (Pos.iter xO p n) with (shift_pos n p).
  rewrite shift_pos_correct. rewrite Z.pow_pos_fold. lia.
Qed.

Lemma shr_1_even y :
  0 <= y ->
  shr_1 {| shr_m := 2 * y; shr_r := false; shr_s := false |}
  = {| shr_m := y; shr_r := false; shr_s := false |}.
Proof. intros Hy. destruct y as [| p | p]; try lia; reflexivity. Qed.

Lemma iter_shr_1_exact (n : positive) : forall x,
  0 <= x ->
  SpecFloat.iter_pos shr_1 n {| shr_m := x * 2 ^ Z.pos n; shr_r := false; shr_s := false |}
  = {| shr_m := x; shr_r := false; shr_s := false |}.
Proof.
  induction n as [n IH | n IH |]; intros x Hx; cbn [SpecFloat.iter_pos].
  - assert (Hp : 0 < 2 ^ Z.pos n) by (apply Z.pow_pos_nonneg; lia).
    replace (x * 2 ^ Z.pos n~1) with (2 * ((x * 2 ^ Z.pos n) * 2 ^ Z.pos n))
      by (rewrite pow2_xI; ring).
    rewrite shr_1_even by nia. rewrite IH by nia. apply IH. exact Hx.
  - assert (Hp : 0 < 2 ^ Z.pos n) by (apply Z.pow_pos_nonneg; lia).
    replace (x * 2 ^ Z.pos n~0) with ((x * 2 ^ Z.pos n) * 2 ^ Z.pos n)
      by (rewrite pow2_xO; ring).
    rewrite IH by nia. apply IH. exact Hx.
  - replace (x * 2 ^ 1) with (2 * x) by lia. apply shr_1_even. exact Hx.
Qed.

(** A mantissa of 53 digits followed by [j] zeros is rounded to itself. *)
Lemma binary_round_aux_exact (M : positive) (j e : Z) :
  0 <= j -> Zdigits2 (Z.pos M) = 53 -> -1074 <= e + j <= 971 ->
  binary_round_aux 53 1024 false (Z.pos M * 2 ^ j) e loc_Exact = S754_finite false M (e + j).
Proof.
  intros Hj Hd He.
  assert (Hf1 : fexp 53 1024 (Zdigits2 (Z.pos M * 2 ^ j) + e) - e = j).
  { rewrite Zdigits2_shift by exact Hj. rewrite Hd. unfold fexp, emin. lia. }
  assert (Hf2 : fexp 53 1024 (Zdigits2 (Z.pos M) + (e + j)) - (e + j) = 0).
  { rewrite Hd. unfold fexp, emin. lia. }
  unfold binary_round_aux, shr_fexp. rewrite Hf1.
  assert (Hshr : shr (shr_record_of_loc (Z.pos M * 2 ^ j) loc_Exact) e j
                 = ({| shr_m := Z.pos M; shr_r := false; shr_s := false |}, e + j)).
  { destruct j as [| n | n]; try lia.
    - cbn [shr shr_record_of_loc]. rewrite Z.pow_0_r, Z.mul_1_r, Z.add_0_r. reflexivity.
    - cbn [shr shr_record_of_loc]. rewrite iter_shr_1_exact by lia. reflexivity. }
  rewrite Hshr. cbn [shr_m loc_of_shr_record round_nearest_even].
  rewrite Hf2. cbn [shr shr_record_of_loc shr_m].
  destruct (Z.leb_spec (e + j) (1024 - 53)); [reflexivity | lia].
Qed.

(** The binary64 number of a positive integer below 2^53: its digits
    moved up to the 53 places of the mantissa. *)
Definition normal (p : positive) : spec_float :=
  S754_finite false (Z.to_pos (Z.pos p * 2 ^ (53 - Zdigits2 (Z.pos p))))
    (Zdigits2 (Z.pos p) - 53).

Lemma normal_mantissa (p : positive) :
  Z.pos p < 2 ^ 53 ->
  1 <= Zdigits2 (Z.pos p) <= 53 /\
  Z.pos (Z.to_pos (Z.pos p * 2 ^ (53 - Zdigits2 (Z.pos p))))
    = Z.pos p * 2 ^ (53 - Zdigits2 (Z.pos p)) /\
  Zdigits2 (Z.pos (Z.to_pos (Z.pos p * 2 ^ (53 - Zdigits2 (Z.pos p))))) = 53.
Proof.
  intros Hp.
  assert (Hd : 1 <= Zdigits2 (Z.pos p) <= 53).
  { split; [cbn; lia |]. apply Zdigits2_le_of_lt_pow; lia. }
  assert (Hpow : 0 < 2 ^ (53 - Zdigits2 (Z.pos p))) by (apply Z.pow_pos_nonneg; lia).
  assert (Hv : Z.pos (Z.to_pos (Z.pos p * 2 ^ (53 - Zdigits2 (Z.pos p))))
               = Z.pos p * 2 ^ (53 - Zdigits2 (Z.pos p))).
  { apply Z2Pos.id. nia. }
  split; [exact Hd |]. split; [exact Hv |].
  rewrite Hv, Zdigits2_shift by lia. lia.
Qed.

(** Rounding [s * 2^k] at exponent [-k] gives the number of [s]. *)
Lemma binary_round_scaled (s : positive) (k : Z) :
  Z.pos s < 2 ^ 53 -> 0 <= k ->
  binary_round 53 1024 false (Z.to_pos (Z.pos s * 2 ^ k)) (- k) = normal s.
Proof.
  intros Hs Hk.
  destruct (normal_mantissa s Hs) as (Hd & HM & HdM).
  set (d := Zdigits2 (Z.pos s)) in *.
  set (M := Z.to_pos (Z.pos s * 2 ^ (53 - d))) in *.
  assert (Hpk : 0 < 2 ^ k) by (apply Z.pow_pos_nonneg; lia).
  set (P := Z.to_pos (Z.pos s * 2 ^ k)).
  assert (HP : Z.pos P = Z.pos s * 2 ^ k) by (apply Z2Pos.id; nia).
  assert (HdP : Z.pos (digits2_pos P) = d + k).
  { change (Z.pos (digits2_pos P)) with (Zdigits2 (Z.pos P)).
    rewrite HP. apply Zdigits2_shift. exact Hk. }
  unfold binary_round, shl_align. rewrite HdP.
  replace (fexp 53 1024 (d + k + - k) - - k) with (d - 53 + k)
    by (unfold fexp, emin; lia).
  unfold normal. fold d. fold M.
  destruct (d - 53 + k) as [| t | q] eqn:Ht.
  - replace (Z.pos P) with (Z.pos M * 2 ^ 0).
    2: { rewrite HP, HM, Z.pow_0_r, Z.mul_1_r. f_equal. f_equal. lia. }
    rewrite binary_round_aux_exact by lia. f_equal. lia.
  - replace (Z.pos P) with (Z.pos M * 2 ^ Z.pos t).
    2: { rewrite HP, HM, <- Z.mul_assoc, <- Z.pow_add_r by lia. f_equal. f_equal. lia. }
    rewrite binary_round_aux_exact by lia. f_equal. lia.
  - assert (Hi : Pos.iter xO P q = M).
    { apply Pos2Z.inj. rewrite iter_xO_value, HP, HM, <- Z.mul_assoc, <- Z.pow_add_r by lia.
      f_equal. f_equal. lia. }
    rewrite Hi.
    replace (Z.pos M) with (Z.pos M * 2 ^ 0) by (rewrite Z.pow_0_r; lia).
    replace (fexp 53 1024 (d + k + - k)) with (d - 53) by (unfold fexp, emin; lia).
    rewrite binary_round_aux_exact by lia. f_equal. lia.
Qed.

Lemma canonical_normal (p : positive) :
  Z.pos p < 2 ^ 53 -> Number.canonical (Z.pos p) = normal p.
Proof.
  intros Hp. unfold Number.canonical, binary_normalize.
  pose proof (binary_round_scaled p 0 Hp ltac:(lia)) as H.
  rewrite Z.pow_0_r, Z.mul_1_r in H. exact H.
Qed.

Lemma shl_align_value (m : positive) (e ez : Z) :
  ez <= e -> Z.pos (fst (shl_align m e ez)) = Z.pos m * 2 ^ (e - ez).
Proof.
  intros H. unfold shl_align.
  destruct (ez - e) as [| t | q] eqn:Hz; try lia; cbn [fst].
  - replace (e - ez) with 0 by lia. rewrite Z.pow_0_r. lia.
  - rewrite iter_xO_value. f_equal. f_equal. lia.
Qed.

(** Below 2^53 the binary64 sum of two counts is their integer sum. *)
Lemma add_canonical (a b : Z) :
  0 <= a -> 0 <= b -> a + b < 2 ^ 53 ->
  Number.add (Number.canonical a) (Number.canonical b) = Number.canonical (a + b).
Proof.
  intros Ha Hb Hab.
  destruct a as [| a | a]; try lia.
  { destruct b as [| b | b]; try lia; [reflexivity |].
    rewrite Z.add_0_l. rewrite (canonical_normal b) by lia. reflexivity. }
  destruct b as [| b | b]; try lia.
  { rewrite Z.add_0_r. rewrite (canonical_normal a) by lia. reflexivity. }
  rewrite (canonical_normal a), (canonical_normal b) by lia.
  destruct (normal_mantissa a ltac:(lia)) as (Hda & HMa & _).
  destruct (normal_mantissa b ltac:(lia)) as (Hdb & HMb & _).
  unfold normal, Number.add, SFadd. cbn [cond_Zopp].
  set (da := Zdigits2 (Z.pos a)) in *. set (db := Zdigits2 (Z.pos b)) in *.
  set (ez := Z.min (da - 53) (db - 53)).
  rewrite !shl_align_value by (subst ez; lia).
  rewrite HMa, HMb.
  assert (Hez : 0 <= - ez) by (subst ez; lia).
  replace (Z.pos a * 2 ^ (53 - da) * 2 ^ (da - 53 - ez)
           + Z.pos b * 2 ^ (53 - db) * 2 ^ (db - 53 - ez))
    with (Z.pos (a + b) * 2 ^ (- ez)).
  2: { rewrite <- !Z.mul_assoc, <- !Z.pow_add_r by (subst ez; lia).
       replace (53 - da + (da - 53 - ez)) with (- ez) by lia.
       replace (53 - db + (db - 53 - ez)) with (- ez) by lia.
       rewrite Pos2Z.inj_add. ring. }
  assert (Hpos : 0 < 2 ^ (- ez)) by (apply Z.pow_pos_nonneg; lia).
  unfold binary_normalize.
  destruct (Z.pos (a + b) * 2 ^ (- ez)) as [| P | P] eqn:HP; try nia.
  replace P with (Z.to_pos (Z.pos (a + b) * 2 ^ (- ez))) by (rewrite HP; reflexivity).
  replace ez with (- (- ez)) at 2 by lia.
  rewrite binary_round_scaled by lia.
  change (Z.pos a + Z.pos b) with (Z.pos (a + b)).
  symmetry. apply canonical_normal. lia.
Qed.

Lemma new_location_spec (n k : Z) :
  new_location n k = if k =? 0 then loc_Exact else loc_Inexact (2 * k ?= n).
Proof.
  unfold new_location, new_location_even, new_location_odd.
  destruct (Z.even n) eqn:Hev; [reflexivity |].
  destruct (k =? 0); [reflexivity |]. f_equal.
  assert (Hodd : Z.odd n = true) by (rewrite <- Z.negb_even, Hev; reflexivity).
  apply Z.odd_spec in Hodd as [h Hh].
  destruct (Z.compare_spec (2 * k + 1) n), (Z.compare_spec (2 * k) n); try reflexivity; lia.
Qed.

Lemma div_eucl_unique (a b q r : Z) :
  0 <= r < b -> a = b * q + r -> Z.div_eucl a b = (q, r).
Proof.
  intros Hr Ha.
  pose proof (Z_div_mod a b ltac:(lia)) as H.
  destruct (Z.div_eucl a b) as [q' r']. destruct H as [Heq Hr'].
  assert (q' = q /\ r' = r) as [-> ->]; [| reflexivity].
  apply (Z.div_mod_unique b); [left; lia | left; lia | lia].
Qed.

(** The quotient of two counts below 2^53 does not depend on how the
    operands are written. *)
Lemma div_canonical (c t : Z) :
  0 <= c < 2 ^ 53 -> 0 < t < 2 ^ 53 ->
  Number.div (Number.canonical c) (Number.canonical t)
  = Number.div (Number.of_Z c) (Number.of_Z t).
Proof.
  intros Hc Ht.
  destruct t as [| t | t]; try lia.
  rewrite (canonical_normal t) by lia.
  destruct c as [| c | c]; try lia; [reflexivity |].
  rewrite (canonical_normal c) by lia.
  destruct (normal_mantissa c ltac:(lia)) as (Hdc & HMc & HdMc).
  destruct (normal_mantissa t ltac:(lia)) as (Hdt & HMt & HdMt).
  unfold normal, Number.div. cbn [Number.of_Z SFdiv xorb]. unfold SFdiv_core_binary.
  rewrite HdMc, HdMt.
  set (dc := Zdigits2 (Z.pos c)) in *. set (dt := Zdigits2 (Z.pos t)) in *.
  replace (Z.min (fexp 53 1024 (53 + (dc - 53) - (53 + (dt - 53)))) (dc - 53 - (dt - 53)))
    with (dc - dt - 53) by (unfold fexp, emin; lia).
  replace (Z.min (fexp 53 1024 (dc + 0 - (dt + 0))) (0 - 0))
    with (dc - dt - 53) by (unfold fexp, emin; lia).
  replace (dc - 53 - (dt - 53) - (dc - dt - 53)) with 53 by lia.
  destruct (0 - 0 - (dc - dt - 53)) as [| s | s] eqn:Hs; try lia.
  rewrite !Z.shiftl_mul_pow2 by lia.
  rewrite HMc, HMt.
  pose proof (Z_div_mod (Z.pos c * 2 ^ Z.pos s) (Z.pos t) ltac:(lia)) as Hdm.
  destruct (Z.div_eucl (Z.pos c * 2 ^ Z.pos s) (Z.pos t)) as [q r].
  destruct Hdm as [Heq Hr].
  assert (Hpb : 0 < 2 ^ (53 - dt)) by (apply Z.pow_pos_nonneg; lia).
  rewrite (div_eucl_unique _ _ q (r * 2 ^ (53 - dt))).
  - rewrite !new_location_spec.
    replace (r * 2 ^ (53 - dt) =? 0) with (r =? 0).
    2: { destruct (Z.eqb_spec r 0), (Z.eqb_spec (r * 2 ^ (53 - dt)) 0); try reflexivity; nia. }
    replace (2 * (r * 2 ^ (53 - dt)) ?= Z.pos t * 2 ^ (53 - dt)) with (2 * r ?= Z.pos t).
    2: { destruct (Z.compare_spec (2 * r) (Z.pos t)),
           (Z.compare_spec (2 * (r * 2 ^ (53 - dt))) (Z.pos t * 2 ^ (53 - dt)));
           try reflexivity; nia. }
    reflexivity.
  - nia.
  - replace (Z.pos c * 2 ^ (53 - dc) * 2 ^ 53)
      with (Z.pos c * 2 ^ Z.pos s * 2 ^ (53 - dt)).
    2: { rewrite <- !Z.mul_assoc, <- !Z.pow_add_r by lia. f_equal. f_equal. lia. }
    rewrite Heq. ring.
Qed.

Lemma round_percent_canonical (c t : Z) :
  0 <= c < 2 ^ 53 -> 0 < t < 2 ^ 53 ->
  round_percent (Number.canonical c) (Number.canonical t)
  = round_percent (Number.of_Z c) (Number.of_Z t).
Proof.
  intros Hc Ht. unfold round_percent. rewrite div_canonical by assumption. reflexivity.
Qed.

Lemma canonical_positive (n : Z) :
  0 < n < 2 ^ 53 -> Number.ltb Number.zero (Number.canonical n) = true.
Proof.
  intros Hn. destruct n as [| p | p]; try lia.
  rewrite canonical_normal by lia. reflexivity.
Qed.

(** A count is 0 or a truthy number, never NaN and never -0. *)
Lemma or_zero_cases (x : option Z) :
  or_zero x = Number.zero \/ Number.truthy (or_zero x) = true.
Proof.
  destruct x as [n |]; [| left; reflexivity]. cbn [or_zero].
  destruct (Number.truthy (Number.canonical n)) eqn:H; [right; exact H | left; reflexivity].
Qed.

(** The quotient of a positive number by itself is 1. *)
Lemma div_self (m : positive) (e : Z) :
  Number.div (S754_finite false m e) (S754_finite false m e)
  = S754_finite false 4503599627370496 (-52).
Proof.
  unfold Number.div. cbn [SFdiv xorb]. unfold SFdiv_core_binary.
  replace (Zdigits2 (Z.pos m) + e - (Zdigits2 (Z.pos m) + e)) with 0 by lia.
  replace (e - e) with 0 by lia.
  change (Z.min (fexp 53 1024 0) 0) with (-53).
  change (0 - -53) with 53.
  rewrite Z.shiftl_mul_pow2 by lia.
  rewrite (div_eucl_unique _ _ (2 ^ 53) 0) by lia.
  rewrite new_location_spec. cbn [Z.eqb]. vm_compute. reflexivity.
Qed.

(** ** The monad and [runCommand] *)

Section RunCommand.

Context {RT : NodeRuntime}.
Variable config : Config.

Lemma bind_normal {A B} (m : Async A) (k : A -> Async B) s a s' :
  m s = (Normal a, s') -> bind m k s = k a s'.
Proof. intros H. unfold bind. rewrite H. reflexivity. Qed.

Lemma append_assoc (a b c : string) : (a +:+ b) +:+ c = a +:+ (b +:+ c).
Proof.
  induction a as [| x a IH]; [reflexivity |].
  change (String x ((a +:+ b) +:+ c) = String x (a +:+ (b +:+ c))).
  rewrite IH. reflexivity.
Qed.

Lemma append_empty_r (a : string) : a +:+ EmptyString = a.
Proof.
  induction a as [| x a IH]; [reflexivity |].
  change (String x (a +:+ EmptyString) = String x a).
  rewrite IH. reflexivity.
Qed.

(** The handlers accumulate the output in the order of the events. *)
Lemma settle_until_settled (events : list ChildEvent) : forall out err,
  settle events out err =
  match until_settled events with
  | Some (before, last) =>
      match last with
      | error_event _ => Some (result_of before last)
      | _ => Some
          {| CommandResult.success := CommandResult.success (result_of before last);
             CommandResult.stdout := JsString.trim (out +:+ stdout_of before);
             CommandResult.stderr := JsString.trim (err +:+ stderr_of before);
             CommandResult.code := CommandResult.code (result_of before last) |}
      end
  | None => None
  end.
Proof.
  induction events as [| e rest IH]; intros out err; [reflexivity |].
  destruct e as [d | d | code | message]; cbn [settle until_settled is_data].
  - rewrite IH. destruct (until_settled rest) as [[before last] |]; [| reflexivity].
    destruct last; cbn [stdout_of stderr_of result_of CommandResult.success CommandResult.code];
      rewrite ?append_assoc; reflexivity.
  - rewrite IH. destruct (until_settled rest) as [[before last] |]; [| reflexivity].
    destruct last; cbn [stdout_of stderr_of result_of CommandResult.success CommandResult.code];
      rewrite ?append_assoc; reflexivity.
  - cbn [stdout_of stderr_of result_of CommandResult.success CommandResult.code].
    rewrite !append_empty_r. reflexivity.
  - reflexivity.
Qed.

(** [runCommand] resolves with [result_of] as soon as the child settles. *)
Lemma runCommand_settled args options s events w before last :
  child_process_spawn (spawn_call config args options) (world s) = (inr events, w) ->
  until_settled events = Some (before, last) ->
  runCommand config args options s =
  (Normal (result_of before last),
   {| world := w; spawned := spawned s ++ [spawn_call config args options];
      sfCommand := sfCommand s; serverStarted := serverStarted s |}).
Proof.
  intros Hspawn Huntil. unfold runCommand. rewrite Hspawn.
  rewrite settle_until_settled, Huntil.
  assert (Hlast : is_data last = false).
  { clear Hspawn. revert before Huntil.
    induction events as [| e rest IH]; intros before H; [discriminate |].
    cbn [until_settled] in H. destruct (is_data e) eqn:He.
    - destruct (until_settled rest) as [[b' l'] |]; [| discriminate].
      injection H as _ <-. eapply IH. reflexivity.
    - injection H as _ <-. exact He. }
  destruct last; try discriminate; reflexivity.
Qed.

(** It stays pending, resolves, or is rejected with what [spawn] has
    thrown; it never ends the process, and it only extends the log of
    the calls of [spawn]. *)
Lemma runCommand_completion args options s :
  exists s',
    (runCommand config args options s = (Pending, s') \/
     (exists result, runCommand config args options s = (Normal result, s')) \/
     (exists e, runCommand config args options s = (Throw e, s') /\
                fst (child_process_spawn (spawn_call config args options) (world s))
                = inl e)) /\
    spawned s' = spawned s ++ [spawn_call config args options] /\
    sfCommand s' = sfCommand s /\
    serverStarted s' = serverStarted s.
Proof.
  unfold runCommand.
  destruct (child_process_spawn _ _) as [[e | events] w].
  - exists {| world := w;
              spawned := spawned s ++ [spawn_call config args options];
              sfCommand := sfCommand s;
              serverStarted := serverStarted s |}.
    split; [| repeat split]. right. right. exists e. split; reflexivity.
  - exists {| world := w;
              spawned := spawned s ++ [spawn_call config args options];
              sfCommand := sfCommand s;
              serverStarted := serverStarted s |}.
    split; [| repeat split].
    destruct (settle events EmptyString EmptyString) as [result |].
    + right. left. exists result. reflexivity.
    + left. reflexivity.
Qed.

Lemma runCommand_state args options s c s' :
  runCommand config args options s = (c, s') ->
  spawned s' = spawned s ++ [spawn_call config args options] /\
  sfCommand s' = sfCommand s /\
  serverStarted s' = serverStarted s.
Proof.
  intros H. destruct (runCommand_completion args options s) as (s0 & Hc & Hs).
  destruct Hc as [Hc | [[r Hc] | (e & Hc & _)]]; rewrite Hc in H;
    injection H as _ <-; exact Hs.
Qed.

Lemma runCommand_outcomes args options s c s' :
  runCommand config args options s = (c, s') ->
  c = Pending \/ (exists result, c = Normal result) \/
  exists e, c = Throw e /\ thrown_by_spawn e s'.
Proof.
  intros H. destruct (runCommand_state _ _ _ _ _ H) as (Hlog & _).
  destruct (runCommand_completion args options s) as (s0 & Hc & _).
  destruct Hc as [Hc | [[r Hc] | (e & Hc & He)]]; rewrite Hc in H;
    injection H as <- <-; eauto.
  right. right. exists e. split; [reflexivity |].
  exists (spawn_call config args options), (world s).
  split; [rewrite Hlog; apply last_snoc | exact He].
Qed.

(** [runCommand] is rejected exactly when the call of [spawn] throws. *)
Lemma runCommand_thrown args options s e :
  fst (runCommand config args options s) = Throw e <->
  fst (child_process_spawn (spawn_call config args options) (world s)) = inl e.
Proof.
  unfold runCommand.
  destruct (child_process_spawn _ _) as [[e' | events] w]; cbn [fst].
  - split; intros H; injection H as ->; reflexivity.
  - destruct (settle events EmptyString EmptyString); split; discriminate.
Qed.

Lemma no_exit_runCommand args options : no_exit (runCommand config args options).
Proof.
  intros s c s' H code ->.
  destruct (runCommand_outcomes _ _ _ _ _ H) as [? | [[r ?] | (e & ? & _)]]; discriminate.
Qed.

Lemma runSFCommand_initialized args s cmd :
  sfCommand s = Some cmd ->
  runSFCommand config args s = runCommand config (cmd ++ args) no_options s.
Proof. intros H. unfold runSFCommand. rewrite H. reflexivity. Qed.

End RunCommand.

(** ** The coverage map and the totals *)

Section Coverage.

Context {RT : NodeRuntime}.
Variable config : Config.

Lemma round_percent_round2 part whole :
  round_percent part whole = round2 (ratio_percent part whole).
Proof. reflexivity. Qed.

Lemma process_coverage_named response record name :
  coverage_name record = Some name ->
  process_coverage response record =
  Response.add_totals (CoverageEntry.covered (entry_of record))
    (CoverageEntry.uncovered (entry_of record))
    (Response.with_coverage
       (set_property (Response.coverage response) name (entry_of record)) response).
Proof.
  unfold coverage_name, process_coverage. intros H.
  destruct (Json.ApexClassOrTrigger_ record ≫= Json.Name) as [n |]; [| discriminate].
  destruct (JsString.truthy n); [| discriminate].
  injection H as ->. reflexivity.
Qed.

Lemma process_coverage_unnamed response record :
  coverage_name record = None -> process_coverage response record = response.
Proof.
  unfold coverage_name, process_coverage. intros H.
  destruct (Json.ApexClassOrTrigger_ record ≫= Json.Name) as [n |]; [| reflexivity].
  destruct (JsString.truthy n); [discriminate | reflexivity].
Qed.

Lemma process_class_named response record name :
  class_name record = Some name ->
  process_class response record =
  Response.with_coverage
    (set_property (Response.coverage response) name zero_entry) response.
Proof.
  unfold class_name, process_class. intros H.
  destruct (Json.Name_ record) as [n |]; [| discriminate].
  destruct (JsString.truthy n); [| discriminate].
  injection H as ->. reflexivity.
Qed.

Lemma process_class_unnamed response record :
  class_name record = None -> process_class response record = response.
Proof.
  unfold class_name, process_class. intros H.
  destruct (Json.Name_ record) as [n |]; [| reflexivity].
  destruct (JsString.truthy n); [discriminate | reflexivity].
Qed.

Lemma set_property_Forall {V} (P : string -> V -> Prop) (o : gmap string V) key v :
  P key v -> map_Forall P o -> map_Forall P (set_property o key v).
Proof.
  intros Hv Ho. unfold set_property. case_decide; [exact Ho |].
  apply map_Forall_insert_2; assumption.
Qed.

Lemma entry_of_well_formed record : well_formed (entry_of record).
Proof. split; reflexivity. Qed.

Lemma zero_entry_well_formed : well_formed zero_entry.
Proof. split; reflexivity. Qed.

(** Every entry the aggregate rows leave in the map is the entry of one
    of the rows, stored under the name of that row. *)
Lemma process_coverage_entries (P : string -> CoverageEntry.t -> Prop) records :
  forall response,
    (forall record name, record ∈ records -> coverage_name record = Some name ->
                         P name (entry_of record)) ->
    map_Forall P (Response.coverage response) ->
    map_Forall P (Response.coverage (fold_left process_coverage records response)).
Proof.
  induction records as [| record rest IH]; intros response Hrows Hmap; [exact Hmap |].
  cbn [fold_left]. apply IH.
  - intros r n Hr. apply Hrows. right. exact Hr.
  - destruct (coverage_name record) as [name |] eqn:Hname.
    + rewrite (process_coverage_named _ _ _ Hname). cbn.
      apply set_property_Forall; [| exact Hmap].
      apply Hrows; [left | exact Hname].
    + rewrite (process_coverage_unnamed _ _ Hname). exact Hmap.
Qed.

Lemma process_class_entries (P : string -> CoverageEntry.t -> Prop) records :
  forall response,
    (forall record name, record ∈ records -> class_name record = Some name ->
                         P name zero_entry) ->
    map_Forall P (Response.coverage response) ->
    map_Forall P (Response.coverage (fold_left process_class records response)).
Proof.
  induction records as [| record rest IH]; intros response Hrows Hmap; [exact Hmap |].
  cbn [fold_left]. apply IH.
  - intros r n Hr. apply Hrows. right. exact Hr.
  - destruct (class_name record) as [name |] eqn:Hname.
    + rewrite (process_class_named _ _ _ Hname). cbn.
      apply set_property_Forall; [| exact Hmap].
      apply (Hrows record); [left | exact Hname].
    + rewrite (process_class_unnamed _ _ Hname). exact Hmap.
Qed.

(** The class listing changes neither the totals nor the other fields. *)
Lemma process_class_totals records : forall response,
  Response.totalCovered (fold_left process_class records response)
    = Response.totalCovered response /\
  Response.totalUncovered (fold_left process_class records response)
    = Response.totalUncovered response.
Proof.
  induction records as [| record rest IH]; intros response; [split; reflexivity |].
  cbn [fold_left]. destruct (IH (process_class response record)) as [-> ->].
  destruct (class_name record) as [name |] eqn:Hname.
  - rewrite (process_class_named _ _ _ Hname). split; reflexivity.
  - rewrite (process_class_unnamed _ _ Hname). split; reflexivity.
Qed.

(** The totals count every stored row once, in the order of the rows. *)
Lemma process_coverage_totals records : forall response,
  Response.totalCovered (fold_left process_coverage records response)
    = fold_left add_covered records (Response.totalCovered response) /\
  Response.totalUncovered (fold_left process_coverage records response)
    = fold_left add_uncovered records (Response.totalUncovered response).
Proof.
  induction records as [| record rest IH]; intros response; [split; reflexivity |].
  cbn [fold_left]. destruct (IH (process_coverage response record)) as [-> ->].
  assert (Hstep : Response.totalCovered (process_coverage response record)
                  = add_covered (Response.totalCovered response) record /\
                  Response.totalUncovered (process_coverage response record)
                  = add_uncovered (Response.totalUncovered response) record).
  { unfold add_covered, add_uncovered.
    destruct (coverage_name record) as [name |] eqn:Hname.
    - rewrite (process_coverage_named _ _ _ Hname). split; reflexivity.
    - rewrite (process_coverage_unnamed _ _ Hname). split; reflexivity. }
  destruct Hstep as [-> ->]. split; reflexivity.
Qed.

Lemma stored_names_cons record rest :
  stored_names (record :: rest) =
  match coverage_name record with
  | Some name => name :: stored_names rest
  | None => stored_names rest
  end.
Proof. unfold stored_names. cbn [omap list_omap]. destruct (coverage_name record); reflexivity. Qed.

(** Rows that do not carry [name] leave the entry of [name] alone. *)
Lemma process_coverage_other records name : forall response,
  name ∉ stored_names records ->
  Response.coverage (fold_left process_coverage records response) !! name
    = Response.coverage response !! name.
Proof.
  induction records as [| record rest IH]; intros response Hnot; [reflexivity |].
  cbn [fold_left]. rewrite stored_names_cons in Hnot.
  destruct (coverage_name record) as [n |] eqn:Hname.
  - apply not_elem_of_cons in Hnot as [Hne Hrest].
    rewrite IH by exact Hrest.
    rewrite (process_coverage_named _ _ _ Hname). cbn.
    unfold set_property. case_decide; [reflexivity |].
    apply lookup_insert_ne. congruence.
  - rewrite IH by exact Hnot.
    rewrite (process_coverage_unnamed _ _ Hname). reflexivity.
Qed.

(** The entry of a class is the entry of the last row that carries its
    name. *)
Lemma last_row_wins front record back name response :
  coverage_name record = Some name ->
  name <> "__proto__" ->
  name ∉ stored_names back ->
  Response.coverage (fold_left process_coverage (front ++ record :: back) response)
    !! name = Some (entry_of record).
Proof.
  intros Hname Hproto Hback.
  rewrite fold_left_app. cbn [fold_left].
  rewrite process_coverage_other by exact Hback.
  rewrite (process_coverage_named _ _ _ Hname). cbn.
  unfold set_property. rewrite decide_False by exact Hproto.
  apply lookup_insert_eq.
Qed.

(** With pairwise distinct names, none of them [__proto__], the entries
    of the map are the entries of the stored rows. *)
Lemma distinct_rows_stored records response record name :
  NoDup (stored_names records) ->
  "__proto__" ∉ stored_names records ->
  record ∈ records -> coverage_name record = Some name ->
  Response.coverage (fold_left process_coverage records response) !! name
    = Some (entry_of record).
Proof.
  intros Hdup Hproto Hin Hname.
  apply list_elem_of_split in Hin as (front & back & ->).
  assert (Hnames : stored_names (front ++ record :: back)
                   = stored_names front ++ name :: stored_names back).
  { unfold stored_names. rewrite omap_app. cbn [omap list_omap]. rewrite Hname.
    reflexivity. }
  rewrite Hnames in Hdup, Hproto.
  apply NoDup_app in Hdup as (_ & _ & Hdup). apply NoDup_cons in Hdup as [Hback _].
  apply last_row_wins; [exact Hname | | exact Hback].
  intros ->. apply Hproto. apply elem_of_app. right. left.
Qed.

(** Summing a field over the entries of the rows, row by row. *)
Lemma sum_of_stored_rows (field : CoverageEntry.t -> Number.t)
  (m : gmap string CoverageEntry.t) records :
  (forall record name, record ∈ records -> coverage_name record = Some name ->
                       m !! name = Some (entry_of record)) ->
  forall acc,
    fold_left (add_entry field m) (stored_names records) acc
    = fold_left (fun acc record =>
                   match coverage_name record with
                   | Some _ => Number.add acc (field (entry_of record))
                   | None => acc
                   end) records acc.
Proof.
  induction records as [| record rest IH]; intros Hrows acc; [reflexivity |].
  rewrite stored_names_cons. cbn [fold_left].
  destruct (coverage_name record) as [name |] eqn:Hname.
  - cbn [fold_left]. unfold add_entry at 2.
    rewrite (Hrows record name) by (first [left | exact Hname]).
    apply IH. intros r n Hr. apply Hrows. right. exact Hr.
  - apply IH. intros r n Hr. apply Hrows. right. exact Hr.
Qed.

(** The keys of the map are the names of the stored rows. *)
Lemma stored_keys records response name :
  NoDup (stored_names records) ->
  "__proto__" ∉ stored_names records ->
  Response.coverage response = ∅ ->
  is_Some (Response.coverage (fold_left process_coverage records response) !! name)
  <-> name ∈ stored_names records.
Proof.
  intros Hdup Hproto Hempty. split.
  - intros [e He].
    assert (Hall : map_Forall (fun n _ => n ∈ stored_names records)
                     (Response.coverage (fold_left process_coverage records response))).
    { apply process_coverage_entries; [| rewrite Hempty; apply map_Forall_empty].
      intros record n Hin Hn. apply list_elem_of_omap. exists record. split; assumption. }
    exact (Hall name e He).
  - intros Hin. apply list_elem_of_omap in Hin as (record & Hin & Hname).
    rewrite (distinct_rows_stored records response record name) by assumption.
    eauto.
Qed.

End Coverage.

(** ** [getCoverageData] *)

Section GetCoverageData.

Context {RT : NodeRuntime}.
Variable config : Config.

(** Once the probe and the query it selects have settled,
    [getCoverageData] returns [response_of]. *)
Lemma getCoverageData_runs orgAlias s cmd probe s1 result s2 :
  sfCommand s = Some cmd ->
  runCommand config (cmd ++ probe_args orgAlias) no_options s = (Normal probe, s1) ->
  runCommand config
    (cmd ++ (if CommandResult.success probe
             then tooling_args orgAlias else fallback_args orgAlias))
    no_options s1 = (Normal result, s2) ->
  getCoverageData config orgAlias s
    = (Normal (response_of (CommandResult.success probe) result), s2).
Proof.
  intros Hcmd Hprobe Hquery.
  assert (Hcmd1 : sfCommand s1 = Some cmd).
  { destruct (runCommand_state _ _ _ _ _ _ Hprobe) as (_ & H & _). congruence. }
  unfold getCoverageData, testToolingAPI.
  rewrite (bind_normal _ _ s (CommandResult.success probe) s1).
  2: { rewrite (bind_normal _ _ s probe s1); [reflexivity |].
       rewrite (runSFCommand_initialized _ _ _ cmd Hcmd). exact Hprobe. }
  rewrite (bind_normal _ _ s1 result s2).
  2: { destruct (CommandResult.success probe);
         rewrite (runSFCommand_initialized _ _ _ cmd Hcmd1); exact Hquery. }
  unfold response_of.
  destruct (negb (CommandResult.success result)); [reflexivity |].
  destruct (JSON_parse (CommandResult.stdout result)) as [message | data];
    [reflexivity |].
  destruct (CommandResult.success probe), (rows_end_in_null data); reflexivity.
Qed.

(** Conversely a response comes from two settled runs. *)
Lemma getCoverageData_returns orgAlias s response s2 :
  getCoverageData config orgAlias s = (Normal response, s2) ->
  exists cmd probe s1 result,
    sfCommand s = Some cmd /\
    runCommand config (cmd ++ probe_args orgAlias) no_options s = (Normal probe, s1) /\
    runCommand config
      (cmd ++ (if CommandResult.success probe
               then tooling_args orgAlias else fallback_args orgAlias))
      no_options s1 = (Normal result, s2) /\
    response = response_of (CommandResult.success probe) result.
Proof.
  intros H.
  destruct (sfCommand s) as [cmd |] eqn:Hcmd.
  2: { unfold getCoverageData, testToolingAPI, bind, runSFCommand in H.
       rewrite Hcmd in H. discriminate. }
  destruct (runCommand config (cmd ++ probe_args orgAlias) no_options s)
    as [c1 s1] eqn:Hprobe.
  destruct c1 as [probe | e | code |];
    try (unfold getCoverageData, testToolingAPI, bind in H;
         rewrite (runSFCommand_initialized _ _ _ cmd Hcmd) in H;
         fold (probe_args orgAlias) in H; rewrite Hprobe in H; discriminate).
  assert (Hcmd1 : sfCommand s1 = Some cmd).
  { destruct (runCommand_state _ _ _ _ _ _ Hprobe) as (_ & H1 & _). congruence. }
  destruct (runCommand config
              (cmd ++ (if CommandResult.success probe
                       then tooling_args orgAlias else fallback_args orgAlias))
              no_options s1) as [c2 s2'] eqn:Hquery.
  destruct c2 as [result | e | code |];
    try (unfold getCoverageData, testToolingAPI, bind in H;
         rewrite (runSFCommand_initialized _ _ _ cmd Hcmd) in H;
         fold (probe_args orgAlias) in H; rewrite Hprobe in H; cbn [ret] in H;
         destruct (CommandResult.success probe);
         rewrite (runSFCommand_initialized _ _ _ cmd Hcmd1) in H;
         [fold (tooling_args orgAlias) in H | fold (fallback_args orgAlias) in H];
         rewrite Hquery in H; discriminate).
  rewrite (getCoverageData_runs _ _ _ _ _ _ _ Hcmd Hprobe Hquery) in H.
  injection H as <- <-.
  exists cmd, probe, s1, result. repeat split; assumption.
Qed.

(** The entries of every response are well formed. *)
Lemma response_of_well_formed tooling result :
  map_Forall (fun _ e => well_formed e) (Response.coverage (response_of tooling result)).
Proof.
  unfold response_of.
  destruct (negb (CommandResult.success result)); [apply map_Forall_empty |].
  destruct (JSON_parse (CommandResult.stdout result)) as [message | data];
    [apply map_Forall_empty |].
  destruct tooling, (rows_end_in_null data); cbn;
    first [ apply process_coverage_entries; [| apply map_Forall_empty];
            intros; apply entry_of_well_formed
          | apply process_class_entries; [| apply map_Forall_empty];
            intros; apply zero_entry_well_formed ].
Qed.

End GetCoverageData.

(** ** The claims about [getCoverageData] *)

Section CoverageClaims.

Context {RT : NodeRuntime}.
Variable config : Config.

(** The two callbacks touch only the coverage map and the totals. *)
Lemma process_coverage_flags records : forall response,
  Response.toolingAPIUsed (fold_left process_coverage records response)
    = Response.toolingAPIUsed response /\
  Response.error (fold_left process_coverage records response)
    = Response.error response /\
  Response.success (fold_left process_coverage records response)
    = Response.success response /\
  Response.overallPercentage (fold_left process_coverage records response)
    = Response.overallPercentage response.
Proof.
  induction records as [| record rest IH]; intros response; [repeat split |].
  cbn [fold_left]. destruct (IH (process_coverage response record)) as (-> & -> & -> & ->).
  destruct (coverage_name record) as [name |] eqn:Hname.
  - rewrite (process_coverage_named _ _ _ Hname). repeat split.
  - rewrite (process_coverage_unnamed _ _ Hname). repeat split.
Qed.

Lemma process_class_flags records : forall response,
  Response.toolingAPIUsed (fold_left process_class records response)
    = Response.toolingAPIUsed response /\
  Response.error (fold_left process_class records response)
    = Response.error response /\
  Response.success (fold_left process_class records response)
    = Response.success response /\
  Response.overallPercentage (fold_left process_class records response)
    = Response.overallPercentage response.
Proof.
  induction records as [| record rest IH]; intros response; [repeat split |].
  cbn [fold_left]. destruct (IH (process_class response record)) as (-> & -> & -> & ->).
  destruct (class_name record) as [name |] eqn:Hname.
  - rewrite (process_class_named _ _ _ Hname). repeat split.
  - rewrite (process_class_unnamed _ _ Hname). repeat split.
Qed.

Lemma response_of_toolingAPIUsed tooling result :
  Response.toolingAPIUsed (response_of tooling result) = tooling.
Proof.
  unfold response_of.
  destruct (negb (CommandResult.success result)); [reflexivity |].
  destruct (JSON_parse (CommandResult.stdout result)) as [message | data];
    [reflexivity |].
  destruct tooling, (rows_end_in_null data); cbn;
    first [apply process_coverage_flags | apply process_class_flags].
Qed.



(** Claim C9, amended.  On the Tooling API path the totals count every
    stored row once: [totalCovered] and [totalUncovered] are the sums of
    the counts over the processed rows that carry a name, taken in the
    order of the rows and in the arithmetic of the program.  When those
    names are pairwise distinct and none of them is [__proto__], the
    entries of the returned coverage map are those of these names, and
    the totals are also the sums of the [covered] and of the [uncovered]
    fields over these entries. *)
Theorem totals_and_entry_sums orgAlias s cmd probe s1 result s2 data :
  sfCommand s = Some cmd ->
  runCommand config (cmd ++ probe_args orgAlias) no_options s = (Normal probe, s1) ->
  CommandResult.success probe = true ->
  runCommand config (cmd ++ tooling_args orgAlias) no_options s1 = (Normal result, s2) ->
  CommandResult.success result = true ->
  JSON_parse (CommandResult.stdout result) = inr data ->
  let records := or_empty (Json.result_ data ≫= Json.records) in
  exists response,
    getCoverageData config orgAlias s = (Normal response, s2) /\
    Response.totalCovered response = rows_covered records /\
    Response.totalUncovered response = rows_uncovered records /\
    (NoDup (stored_names records) ->
     "__proto__" ∉ stored_names records ->
     (forall name, is_Some (Response.coverage response !! name)
                   <-> name ∈ stored_names records) /\
     Response.totalCovered response
       = sum_covered (Response.coverage response) (stored_names records) /\
     Response.totalUncovered response
       = sum_uncovered (Response.coverage response) (stored_names records)).
Proof.
  intros Hcmd Hprobe Hok Hquery Hres Hparse records.
  exists (response_of true result).
  split.
  { rewrite <- Hok. apply (getCoverageData_runs config orgAlias s cmd probe s1 result s2 Hcmd Hprobe).
    rewrite Hok. exact Hquery. }
  unfold response_of. rewrite Hres, Hparse. cbn [negb].
  fold records.
  set (r0 := Response.with_toolingAPIUsed true initial_response).
  set (r := fold_left process_coverage records r0).
  assert (Hfields : forall response,
    Response.coverage response = Response.coverage r ->
    Response.totalCovered response = Response.totalCovered r ->
    Response.totalUncovered response = Response.totalUncovered r ->
    Response.totalCovered response = rows_covered records /\
    Response.totalUncovered response = rows_uncovered records /\
    (NoDup (stored_names records) ->
     "__proto__" ∉ stored_names records ->
     (forall name, is_Some (Response.coverage response !! name)
                   <-> name ∈ stored_names records) /\
     Response.totalCovered response
       = sum_covered (Response.coverage response) (stored_names records) /\
     Response.totalUncovered response
       = sum_uncovered (Response.coverage response) (stored_names records))).
  { intros response -> -> ->. subst r.
    destruct (process_coverage_totals records r0) as [Hc Hu].
    split; [exact Hc |]. split; [exact Hu |].
    intros Hdup Hproto. split.
    - intros name. apply stored_keys; [assumption | assumption | reflexivity].
    - unfold sum_covered, sum_uncovered.
      rewrite !sum_of_stored_rows
        by (intros record name; apply distinct_rows_stored; assumption).
      rewrite Hc, Hu. split; reflexivity. }
  destruct (rows_end_in_null data); apply Hfields; reflexivity.
Qed.

(** The ways a call of [getCoverageData] on an initialized service can
    go: the probe never settles or is rejected, the query never settles
    or is rejected, or both settle and the response is returned. *)
Lemma getCoverageData_cases orgAlias s cmd :
  sfCommand s = Some cmd ->
  (exists s1,
      runCommand config (cmd ++ probe_args orgAlias) no_options s = (Pending, s1) /\
      getCoverageData config orgAlias s = (Pending, s1)) \/
  (exists e s1,
      runCommand config (cmd ++ probe_args orgAlias) no_options s = (Throw e, s1) /\
      getCoverageData config orgAlias s = (Throw e, s1)) \/
  (exists probe s1 s2,
      runCommand config (cmd ++ probe_args orgAlias) no_options s = (Normal probe, s1) /\
      runCommand config
        (cmd ++ (if CommandResult.success probe
                 then tooling_args orgAlias else fallback_args orgAlias))
        no_options s1 = (Pending, s2) /\
      getCoverageData config orgAlias s = (Pending, s2)) \/
  (exists probe s1 e s2,
      runCommand config (cmd ++ probe_args orgAlias) no_options s = (Normal probe, s1) /\
      runCommand config
        (cmd ++ (if CommandResult.success probe
                 then tooling_args orgAlias else fallback_args orgAlias))
        no_options s1 = (Throw e, s2) /\
      getCoverageData config orgAlias s = (Throw e, s2)) \/
  (exists probe s1 result s2,
      runCommand config (cmd ++ probe_args orgAlias) no_options s = (Normal probe, s1) /\
      runCommand config
        (cmd ++ (if CommandResult.success probe
                 then tooling_args orgAlias else fallback_args orgAlias))
        no_options s1 = (Normal result, s2) /\
      getCoverageData config orgAlias s
        = (Normal (response_of (CommandResult.success probe) result), s2)).
Proof.
  intros Hcmd.
  destruct (runCommand config (cmd ++ probe_args orgAlias) no_options s)
    as [c1 s1] eqn:Hprobe.
  assert (Hfirst : forall c : Completion Response.t,
    match c1 with Normal _ => False | _ => True end ->
    c = match c1 with
        | Normal _ => Pending | Throw e => Throw e | Exit code => Exit code
        | Pending => Pending
        end ->
    getCoverageData config orgAlias s = (c, s1)).
  { intros c Hc ->. unfold getCoverageData, testToolingAPI, bind.
    rewrite (runSFCommand_initialized _ _ _ cmd Hcmd).
    fold (probe_args orgAlias). rewrite Hprobe.
    destruct c1; [contradiction | reflexivity | reflexivity | reflexivity]. }
  destruct c1 as [probe | e | code |].
  2: { right. left. exists e, s1. split; [reflexivity |]. apply Hfirst; [exact I | reflexivity]. }
  2: { exfalso. exact (no_exit_runCommand _ _ _ _ _ _ Hprobe code eq_refl). }
  2: { left. exists s1. split; [reflexivity |]. apply Hfirst; [exact I | reflexivity]. }
  clear Hfirst.
  assert (Hcmd1 : sfCommand s1 = Some cmd).
  { destruct (runCommand_state _ _ _ _ _ _ Hprobe) as (_ & H1 & _). congruence. }
  destruct (runCommand config
              (cmd ++ (if CommandResult.success probe
                       then tooling_args orgAlias else fallback_args orgAlias))
              no_options s1) as [c2 s2] eqn:Hquery.
  assert (Hsecond : forall c : Completion Response.t,
    match c2 with Normal _ => False | _ => True end ->
    c = match c2 with
        | Normal _ => Pending | Throw e => Throw e | Exit code => Exit code
        | Pending => Pending
        end ->
    getCoverageData config orgAlias s = (c, s2)).
  { intros c Hc ->. unfold getCoverageData, testToolingAPI, bind.
    rewrite (runSFCommand_initialized _ _ _ cmd Hcmd).
    fold (probe_args orgAlias). rewrite Hprobe. cbn [ret].
    destruct (CommandResult.success probe);
      rewrite (runSFCommand_initialized _ _ _ cmd Hcmd1);
      [fold (tooling_args orgAlias) | fold (fallback_args orgAlias)];
      rewrite Hquery;
      (destruct c2; [contradiction | reflexivity | reflexivity | reflexivity]). }
  destruct c2 as [result | e | code |].
  - do 4 right. exists probe, s1, result, s2.
    split; [reflexivity |]. split; [exact Hquery |].
    apply (getCoverageData_runs _ _ _ _ _ _ _ _ Hcmd Hprobe Hquery).
  - do 3 right. left. exists probe, s1, e, s2.
    split; [reflexivity |]. split; [exact Hquery |].
    apply Hsecond; [exact I | reflexivity].
  - exfalso. exact (no_exit_runCommand _ _ _ _ _ _ Hquery code eq_refl).
  - do 2 right. left. exists probe, s1, s2.
    split; [reflexivity |]. split; [exact Hquery |].
    apply Hsecond; [exact I | reflexivity].
Qed.

(** On an initialized service [getCoverageData] returns a response,
    stays pending with a child that never settles, or is rejected with
    what [spawn] has thrown. *)
Lemma getCoverageData_completion orgAlias s cmd :
  sfCommand s = Some cmd ->
  exists s',
    getCoverageData config orgAlias s = (Pending, s') \/
    (exists response, getCoverageData config orgAlias s = (Normal response, s')) \/
    (exists e, getCoverageData config orgAlias s = (Throw e, s') /\
               thrown_by_spawn e s').
Proof.
  intros Hcmd.
  destruct (getCoverageData_cases orgAlias s cmd Hcmd)
    as [(s1 & _ & H)
       | [(e & s1 & Hp & H)
         | [(probe & s1 & s2 & _ & _ & H)
           | [(probe & s1 & e & s2 & _ & Hq & H)
             | (probe & s1 & result & s2 & _ & _ & H)]]]]; eauto.
  - exists s1. right. right. exists e. split; [exact H |].
    destruct (runCommand_outcomes _ _ _ _ _ _ Hp) as [? | [[r ?] | (e' & He & Hs)]];
      try discriminate.
    injection He as ->. exact Hs.
  - exists s2. right. right. exists e. split; [exact H |].
    destruct (runCommand_outcomes _ _ _ _ _ _ Hq) as [? | [[r ?] | (e' & He & Hs)]];
      try discriminate.
    injection He as ->. exact Hs.
Qed.

(** Claim C2, amended.  When the child of a [runCommand] cannot be
    spawned or exits with a status other than 0, the promise is resolved
    with a result whose [success] is [false] and whose [stderr] is the
    message of the spawn error, respectively what the child wrote to its
    standard error.  [runCommand] never ends the process, and it is
    rejected exactly when the call of [spawn] itself throws.  When the
    query of [getCoverageData] fails in the first way, the response has
    [success = false] and the error string [Query failed: ...]; an
    initialized service never ends the process from [getCoverageData],
    and is rejected only with what the last call of [spawn] has
    thrown. *)
Theorem failed_subprocess_is_reported :
  (forall args options s events w before last,
      child_process_spawn (spawn_call config args options) (world s) = (inr events, w) ->
      until_settled events = Some (before, last) ->
      is_failure last = true ->
      exists result s',
        runCommand config args options s = (Normal result, s') /\
        CommandResult.success result = false /\
        CommandResult.stderr result = failure_text before last) /\
  (forall args options s,
      (forall e,
          fst (runCommand config args options s) = Throw e <->
          fst (child_process_spawn (spawn_call config args options) (world s)) = inl e) /\
      (forall code, fst (runCommand config args options s) <> Exit code)) /\
  (forall orgAlias s cmd probe s1 result s2,
      sfCommand s = Some cmd ->
      runCommand config (cmd ++ probe_args orgAlias) no_options s = (Normal probe, s1) ->
      runCommand config
        (cmd ++ (if CommandResult.success probe
                 then tooling_args orgAlias else fallback_args orgAlias))
        no_options s1 = (Normal result, s2) ->
      CommandResult.success result = false ->
      exists response,
        getCoverageData config orgAlias s = (Normal response, s2) /\
        Response.success response = false /\
        Response.error response
          = Some ("Query failed: " +:+ CommandResult.stderr result)) /\
  (forall orgAlias s cmd,
      sfCommand s = Some cmd ->
      (forall code, fst (getCoverageData config orgAlias s) <> Exit code) /\
      (forall e, fst (getCoverageData config orgAlias s) = Throw e ->
                 thrown_by_spawn e (snd (getCoverageData config orgAlias s)))).
Proof.
  split; [| split; [| split]].
  - intros args options s events w before last Hspawn Huntil Hfail.
    eexists. eexists. split; [apply (runCommand_settled _ _ _ _ _ _ _ _ Hspawn Huntil) |].
    destruct last as [d | d | code | message]; try discriminate.
    + cbn in Hfail. cbn. split; [| reflexivity].
      destruct (bool_decide (code = Some 0)); [discriminate | reflexivity].
    + split; reflexivity.
  - intros args options s. split.
    + intros e. apply runCommand_thrown.
    + intros code H.
      destruct (runCommand config args options s) as [c s'] eqn:Hrun. cbn in H. subst c.
      exact (no_exit_runCommand _ _ _ _ _ _ Hrun code eq_refl).
  - intros orgAlias s cmd probe s1 result s2 Hcmd Hprobe Hquery Hfail.
    exists (response_of (CommandResult.success probe) result).
    split; [apply (getCoverageData_runs _ _ _ _ _ _ _ _ Hcmd Hprobe Hquery) |].
    unfold response_of. rewrite Hfail. split; reflexivity.
  - intros orgAlias s cmd Hcmd.
    destruct (getCoverageData_completion orgAlias s cmd Hcmd)
      as (s0 & [Hc | [[r Hc] | (e & Hc & He)]]); rewrite Hc; cbn [fst snd];
      (split; [discriminate |]); intros e' He'; try discriminate.
    injection He' as <-. exact He.
Qed.

(** The class listing leaves an entry of zeros under every listed name. *)
Lemma class_listed records name : forall response,
  name <> "__proto__" ->
  name ∈ omap class_name records ->
  Response.coverage (fold_left process_class records response) !! name
    = Some zero_entry.
Proof.
  induction records as [| record rest IH] using rev_ind; intros response Hproto Hin.
  - cbn in Hin. apply elem_of_nil in Hin. contradiction.
  - rewrite fold_left_app. cbn [fold_left].
    rewrite omap_app in Hin. apply elem_of_app in Hin.
    destruct (class_name record) as [n |] eqn:Hname.
    + rewrite (process_class_named _ _ _ Hname). cbn.
      unfold set_property. case_decide as Hn.
      * destruct Hin as [Hin | Hin]; [apply IH; assumption |].
        cbn in Hin. rewrite Hname in Hin. cbn in Hin.
        apply list_elem_of_singleton in Hin. congruence.
      * destruct (decide (n = name)) as [-> | Hne].
        -- apply lookup_insert_eq.
        -- rewrite lookup_insert_ne by exact Hne.
           destruct Hin as [Hin | Hin]; [apply IH; assumption |].
           cbn in Hin. rewrite Hname in Hin. cbn in Hin.
           apply list_elem_of_singleton in Hin. congruence.
    + rewrite (process_class_unnamed _ _ Hname).
      destruct Hin as [Hin | Hin]; [apply IH; assumption |].
      cbn in Hin. rewrite Hname in Hin. cbn in Hin.
      apply elem_of_nil in Hin. contradiction.
Qed.

(** Claim C3, amended.  For every org identifier, the first call of
    [spawn] that [getCoverageData] makes is the count probe with the
    Tooling API flag, and at most one more call follows; when the probe
    has settled, the call that follows is the aggregate query if the
    probe exited with status 0 and the class listing otherwise; when that
    query has settled too the response is returned with [toolingAPIUsed]
    set to the outcome of the probe; and when the probe failed and the
    class listing succeeded and parsed, the response is a success unless
    a [null] row has stopped the processing, and its coverage map has the
    entry with covered 0, uncovered 0, total 0 and percentage 0 for
    every processed class whose name is not [__proto__], and no other
    entry. *)
Theorem coverage_query_follows_probe orgAlias s cmd :
  sfCommand s = Some cmd ->
  (exists rest,
      spawned (snd (getCoverageData config orgAlias s))
        = spawned s ++
          spawn_call config (cmd ++ probe_args orgAlias) no_options :: rest /\
      (length rest <= 1)%nat) /\
  forall probe s1,
    runCommand config (cmd ++ probe_args orgAlias) no_options s = (Normal probe, s1) ->
    spawned (snd (getCoverageData config orgAlias s))
      = spawned s ++
        [spawn_call config (cmd ++ probe_args orgAlias) no_options;
         spawn_call config
           (cmd ++ (if CommandResult.success probe
                    then tooling_args orgAlias else fallback_args orgAlias))
           no_options] /\
    forall result s2,
      runCommand config
        (cmd ++ (if CommandResult.success probe
                 then tooling_args orgAlias else fallback_args orgAlias))
        no_options s1 = (Normal result, s2) ->
      exists response,
        getCoverageData config orgAlias s = (Normal response, s2) /\
        Response.toolingAPIUsed response = CommandResult.success probe /\
        (CommandResult.success probe = false ->
         CommandResult.success result = true ->
         forall data,
           JSON_parse (CommandResult.stdout result) = inr data ->
           let records := or_empty (Json.result_ data ≫= Json.records) in
           Response.success response = negb (rows_end_in_null data) /\
           (forall name e, Response.coverage response !! name = Some e ->
                           e = zero_entry /\ name ∈ omap class_name records) /\
           (forall name, name ∈ omap class_name records -> name <> "__proto__" ->
                         Response.coverage response !! name = Some zero_entry)).
Proof.
  intros Hcmd.
  assert (Hlog : forall probe s1,
    runCommand config (cmd ++ probe_args orgAlias) no_options s = (Normal probe, s1) ->
    spawned (snd (getCoverageData config orgAlias s))
      = spawned s ++
        [spawn_call config (cmd ++ probe_args orgAlias) no_options;
         spawn_call config
           (cmd ++ (if CommandResult.success probe
                    then tooling_args orgAlias else fallback_args orgAlias))
           no_options]).
  { intros probe s1 Hprobe.
    destruct (getCoverageData_cases orgAlias s cmd Hcmd)
      as [(t1 & Hp & H)
         | [(e & t1 & Hp & H)
           | [(p & t1 & t2 & Hp & Hq & H)
             | [(p & t1 & e & t2 & Hp & Hq & H)
               | (p & t1 & r & t2 & Hp & Hq & H)]]]];
      rewrite Hprobe in Hp; try discriminate;
      injection Hp as <- <-; rewrite H; cbn [snd];
      destruct (runCommand_state _ _ _ _ _ _ Hprobe) as (L1 & _);
      destruct (runCommand_state _ _ _ _ _ _ Hq) as (L2 & _);
      rewrite L2, L1, <- app_assoc; reflexivity. }
  split.
  { destruct (getCoverageData_cases orgAlias s cmd Hcmd)
      as [(t1 & Hp & H)
         | [(e & t1 & Hp & H)
           | [(p & t1 & t2 & Hp & Hq & H)
             | [(p & t1 & e & t2 & Hp & Hq & H)
               | (p & t1 & r & t2 & Hp & Hq & H)]]]].
    - exists []. rewrite H. cbn [snd].
      destruct (runCommand_state _ _ _ _ _ _ Hp) as (L1 & _).
      split; [exact L1 | cbn; lia].
    - exists []. rewrite H. cbn [snd].
      destruct (runCommand_state _ _ _ _ _ _ Hp) as (L1 & _).
      split; [exact L1 | cbn; lia].
    - eexists. split; [apply (Hlog p t1 Hp) | cbn; lia].
    - eexists. split; [apply (Hlog p t1 Hp) | cbn; lia].
    - eexists. split; [apply (Hlog p t1 Hp) | cbn; lia]. }
  intros probe s1 Hprobe. split; [apply (Hlog probe s1 Hprobe) |].
  intros result s2 Hquery.
  exists (response_of (CommandResult.success probe) result).
  split; [apply (getCoverageData_runs _ _ _ _ _ _ _ _ Hcmd Hprobe Hquery) |].
  split; [apply response_of_toolingAPIUsed |].
  intros Hfalse Hres data Hparse records.
  unfold response_of. rewrite Hfalse, Hres, Hparse. cbn [negb]. fold records.
  set (r0 := Response.with_toolingAPIUsed false initial_response).
  assert (Hmap : forall response,
    Response.coverage response = Response.coverage (fold_left process_class records r0) ->
    (forall name e, Response.coverage response !! name = Some e ->
                    e = zero_entry /\ name ∈ omap class_name records) /\
    (forall name, name ∈ omap class_name records -> name <> "__proto__" ->
                  Response.coverage response !! name = Some zero_entry)).
  { intros response ->. split.
    - apply (process_class_entries
               (fun name e => e = zero_entry /\ name ∈ omap class_name records));
        [| apply map_Forall_empty].
      intros record name Hin Hname. split; [reflexivity |].
      apply list_elem_of_omap. exists record. split; assumption.
    - intros name Hin Hproto. apply class_listed; assumption. }
  destruct (process_class_flags records r0) as (_ & _ & Hsuccess & _).
  destruct (rows_end_in_null data); cbn [negb].
  - split; [cbn; exact Hsuccess | apply Hmap; reflexivity].
  - split; [reflexivity | apply Hmap; reflexivity].
Qed.

(** Claim C10.  When the Tooling API probe fails but the class listing
    succeeds and its output parses, the response carries a non-null
    [error] whatever its [success].  When the rows are all objects the
    response has [success = true] and at the same time the notice of the
    fallback as its [error]: success does not imply that the error field
    is null.  When a [null] row has stopped the processing, [success] is
    false and the error is the message of that row. *)
Theorem fallback_success_carries_error orgAlias s cmd probe s1 result s2 data :
  sfCommand s = Some cmd ->
  runCommand config (cmd ++ probe_args orgAlias) no_options s = (Normal probe, s1) ->
  CommandResult.success probe = false ->
  runCommand config (cmd ++ fallback_args orgAlias) no_options s1 = (Normal result, s2) ->
  CommandResult.success result = true ->
  JSON_parse (CommandResult.stdout result) = inr data ->
  exists response,
    getCoverageData config orgAlias s = (Normal response, s2) /\
    Response.success response = negb (rows_end_in_null data) /\
    Response.error response
      = Some (if rows_end_in_null data
              then "Failed to parse data: " +:+ null_property_message "Name"
              else "Tooling API not available - showing class list only").
Proof.
  intros Hcmd Hprobe Hfalse Hquery Hres Hparse.
  exists (response_of false result).
  split.
  { rewrite <- Hfalse.
    apply (getCoverageData_runs config orgAlias s cmd probe s1 result s2 Hcmd Hprobe).
    rewrite Hfalse. exact Hquery. }
  unfold response_of. rewrite Hres, Hparse. cbn [negb].
  destruct (rows_end_in_null data); cbn [negb]; [| split; reflexivity].
  destruct (process_class_flags
              (or_empty (Json.result_ data ≫= Json.records))
              (Response.with_toolingAPIUsed false initial_response))
    as (_ & _ & Hsuccess & _).
  split; [cbn; exact Hsuccess | reflexivity].
Qed.

End CoverageClaims.

(** ** [getAvailableOrgs] and [getOrgInfo] *)

Section Orgs.

Context {RT : NodeRuntime}.
Variable config : Config.

Lemma getAvailableOrgs_runs s cmd result s1 :
  sfCommand s = Some cmd ->
  runCommand config (cmd ++ ["org"; "list"; "--json"]) no_options s = (Normal result, s1) ->
  getAvailableOrgs config s =
  (Normal
     (if negb (CommandResult.success result) then []
      else match JSON_parse (CommandResult.stdout result) with
           | inl _ => []
           | inr data =>
               map (org_descriptor "Production/Sandbox")
                   (or_empty (Json.result_ data ≫= Json.nonScratchOrgs)) ++
               map (org_descriptor "Scratch Org")
                   (or_empty (Json.result_ data ≫= Json.scratchOrgs))
           end), s1).
Proof.
  intros Hcmd Hrun. unfold getAvailableOrgs.
  rewrite (bind_normal _ _ s result s1)
    by (rewrite (runSFCommand_initialized _ _ _ cmd Hcmd); exact Hrun).
  destruct (negb (CommandResult.success result)); [reflexivity |].
  destruct (JSON_parse (CommandResult.stdout result)); reflexivity.
Qed.



(** Claim C7, amended.  When [org list] succeeds and parses, the
    descriptors returned are those of the orgs of [nonScratchOrgs], in
    order and with type [Production/Sandbox], followed by those of the
    orgs of [scratchOrgs] with type [Scratch Org]; the identifier of a
    descriptor is the alias of its org when that alias is non-empty and
    the username of the org otherwise; and the identifier is a non-empty
    string exactly when the alias or the username of the descriptor is
    non-empty.  Orgs with neither are returned all the same. *)
Theorem org_descriptors s cmd result s1 data :
  sfCommand s = Some cmd ->
  runCommand config (cmd ++ ["org"; "list"; "--json"]) no_options s = (Normal result, s1) ->
  CommandResult.success result = true ->
  JSON_parse (CommandResult.stdout result) = inr data ->
  let nonScratch := or_empty (Json.result_ data ≫= Json.nonScratchOrgs) in
  let scratch := or_empty (Json.result_ data ≫= Json.scratchOrgs) in
  exists orgs,
    getAvailableOrgs config s = (Normal orgs, s1) /\
    orgs = map (org_descriptor "Production/Sandbox") nonScratch ++
           map (org_descriptor "Scratch Org") scratch /\
    forall d, d ∈ orgs ->
      exists org,
        (org ∈ nonScratch /\ OrgDescriptor.type d = "Production/Sandbox" \/
         org ∈ scratch /\ OrgDescriptor.type d = "Scratch Org") /\
        OrgDescriptor.alias d = or_string (Json.alias org) EmptyString /\
        OrgDescriptor.username d = or_string (Json.username org) EmptyString /\
        OrgDescriptor.identifier d =
          (if JsString.truthy (OrgDescriptor.alias d)
           then Some (OrgDescriptor.alias d) else Json.username org) /\
        (has_identifier d <->
         OrgDescriptor.alias d <> EmptyString \/ OrgDescriptor.username d <> EmptyString).
Proof.
  intros Hcmd Hrun Hok Hparse nonScratch scratch.
  eexists. split.
  { rewrite (getAvailableOrgs_runs s cmd result s1 Hcmd Hrun), Hok, Hparse.
    reflexivity. }
  fold nonScratch. fold scratch. split; [reflexivity |].
  assert (Hdesc : forall type org,
    let d := org_descriptor type org in
    OrgDescriptor.identifier d =
      (if JsString.truthy (OrgDescriptor.alias d)
       then Some (OrgDescriptor.alias d) else Json.username org) /\
    (has_identifier d <->
     OrgDescriptor.alias d <> EmptyString \/ OrgDescriptor.username d <> EmptyString)).
  { intros type [a u]. unfold has_identifier. cbn.
    destruct a as [[| c r] |], u as [[| c' r'] |]; cbn;
      (split; [reflexivity |]); split;
      try (intros (i & Hi & Hne); congruence);
      try (intros [H | H]; congruence);
      try (intros _; eexists; split; [reflexivity | discriminate]);
      try (intros _; auto; fail);
      try (intros _; left; discriminate);
      try (intros _; right; discriminate). }
  intros d Hd. apply elem_of_app in Hd as [Hd | Hd];
    apply list_elem_of_fmap in Hd as (org & -> & Hin);
    exists org; (split; [auto |]); (split; [reflexivity |]); (split; [reflexivity |]);
    apply Hdesc.
Qed.

End Orgs.

(** ** Tool resolution and start-up *)

Section Startup.

Context {RT : NodeRuntime}.
Variable config : Config.

Lemma keeps_service_ret {A} (a : A) : keeps_service (ret a).
Proof. intros s c s' H. injection H as _ <-. split; reflexivity. Qed.

Lemma keeps_service_bind {A B} (m : Async A) (k : A -> Async B) :
  keeps_service m -> (forall a, keeps_service (k a)) -> keeps_service (bind m k).
Proof.
  intros Hm Hk s c s' H. unfold bind in H.
  destruct (m s) as [[a | e | code |] s1] eqn:Hms;
    destruct (Hm _ _ _ Hms) as [H1 H2].
  - destruct (Hk a _ _ _ H) as [H3 H4]. split; congruence.
  - injection H as _ <-. split; assumption.
  - injection H as _ <-. split; assumption.
  - injection H as _ <-. split; assumption.
Qed.

Lemma keeps_service_try_catch {A} (m : Async A) (h : JsError -> Async A) :
  keeps_service m -> (forall e, keeps_service (h e)) -> keeps_service (try_catch m h).
Proof.
  intros Hm Hh s c s' H. unfold try_catch in H.
  destruct (m s) as [[a | e | code |] s1] eqn:Hms;
    destruct (Hm _ _ _ Hms) as [H1 H2].
  - injection H as _ <-. split; assumption.
  - destruct (Hh e _ _ _ H) as [H3 H4]. split; congruence.
  - injection H as _ <-. split; assumption.
  - injection H as _ <-. split; assumption.
Qed.

Lemma keeps_service_for_of {A R} (items : list A) (body : A -> Async (option R)) :
  (forall x, keeps_service (body x)) -> keeps_service (for_of items body).
Proof.
  intros Hbody. induction items as [| x rest IH]; cbn [for_of].
  - apply keeps_service_ret.
  - apply keeps_service_bind; [apply Hbody |].
    intros [v |]; [apply keeps_service_ret | exact IH].
Qed.

Lemma keeps_service_runCommand args options :
  keeps_service (runCommand config args options).
Proof.
  intros s c s' H. destruct (runCommand_state _ _ _ _ _ _ H) as (_ & H1 & H2).
  split; assumption.
Qed.

Lemma keeps_service_existsSync p : keeps_service (existsSync p).
Proof. intros s c s' H. injection H as _ <-. split; reflexivity. Qed.

Lemma keeps_service_findSFCLI : keeps_service (findSFCLI config).
Proof.
  unfold findSFCLI.
  apply keeps_service_bind.
  { apply keeps_service_for_of. intros cmd.
    apply keeps_service_try_catch; [| intros; apply keeps_service_ret].
    apply keeps_service_bind; [apply keeps_service_runCommand |].
    intros r. destruct (_ && _); apply keeps_service_ret. }
  intros [cmd |]; [apply keeps_service_ret |].
  apply keeps_service_bind.
  { apply keeps_service_try_catch; [| intros; apply keeps_service_ret].
    apply keeps_service_bind; [apply keeps_service_runCommand |].
    intros r. destruct (CommandResult.success r); [| apply keeps_service_ret].
    apply keeps_service_for_of. intros sfPath.
    apply keeps_service_bind; [apply keeps_service_existsSync |].
    intros [|]; [| apply keeps_service_ret].
    apply keeps_service_try_catch; [| intros; apply keeps_service_ret].
    apply keeps_service_bind; [apply keeps_service_runCommand |].
    intros r'. destruct (CommandResult.success r'); apply keeps_service_ret. }
  intros [cmd |]; apply keeps_service_ret.
Qed.

(** The first working candidate is unique. *)
Lemma FirstWorking_deterministic usable accept cands : forall s found1 s1 found2 s2,
  FirstWorking config usable accept cands s found1 s1 ->
  FirstWorking config usable accept cands s found2 s2 ->
  found1 = found2 /\ s1 = s2.
Proof.
  induction cands as [| c rest IH]; intros s found1 s1 found2 s2 H1 H2.
  - inversion H1; inversion H2; subst. split; reflexivity.
  - inversion H1; subst; inversion H2; subst; try congruence;
      try (eapply IH; eassumption);
      match goal with
      | Ha : runCommand _ _ _ _ = (?c, _),
        Hb : runCommand _ _ _ _ = (?c', _) |- _ =>
          rewrite Ha in Hb; try discriminate; injection Hb as <- <-
      end; try congruence.
    + split; reflexivity.
    + eapply IH; eassumption.
    + eapply IH; eassumption.
Qed.




(** When a CLI is found, [init] keeps the command and starts the
    server; if [listen] throws, the process ends with the command
    stored. *)
Lemma init_starts_server s cmd s' :
  findSFCLI config s = (Normal (Some cmd), s') ->
  init config s
    = match server_listen (world s') with
      | None =>
          (Normal tt, {| world := world s'; spawned := spawned s';
                         sfCommand := Some cmd; serverStarted := true |})
      | Some e =>
          (Exit 1, {| world := world s'; spawned := spawned s';
                      sfCommand := Some cmd;
                      serverStarted := serverStarted s' |})
      end.
Proof.
  intros Hfind. unfold init, try_catch, bind at 1, initialize.
  rewrite (bind_normal _ _ _ _ _ Hfind).
  unfold bind, set_sfCommand, ret, startServer. cbn [world].
  destruct (server_listen (world s')); reflexivity.
Qed.

(** Claim C6.  When [findSFCLI] returns [null], [initialize] throws the
    error [SF CLI not found. Please install SF CLI.], and [init] of the
    application catches it and ends the process with exit code 1 without
    having run [startServer]. *)
Theorem tool_not_found_is_fatal s s' :
  findSFCLI config s = (Normal None, s') ->
  exists s'',
    initialize config s
      = (Throw (Error "SF CLI not found. Please install SF CLI."), s'') /\
    init config s = (Exit 1, s'') /\
    sfCommand s'' = None /\
    serverStarted s'' = serverStarted s.
Proof.
  intros Hfind.
  destruct (keeps_service_findSFCLI _ _ _ Hfind) as [Hserver _].
  exists {| world := world s'; spawned := spawned s';
            sfCommand := None; serverStarted := serverStarted s' |}.
  assert (Hinit : initialize config s
            = (Throw (Error "SF CLI not found. Please install SF CLI."),
               {| world := world s'; spawned := spawned s';
                  sfCommand := None; serverStarted := serverStarted s' |})).
  { unfold initialize. rewrite (bind_normal _ _ _ _ _ Hfind). reflexivity. }
  split; [exact Hinit |]. split.
  - unfold init, try_catch, bind. rewrite Hinit. reflexivity.
  - split; [reflexivity | exact Hserver].
Qed.

End Startup.

(** ** Further properties of [runCommand] *)

Section RunCommandSettlement.

Context {RT : NodeRuntime}.
Variable config : Config.

Lemma until_settled_app before last later :
  forallb is_data before = true -> is_data last = false ->
  until_settled (before ++ last :: later) = Some (before, last).
Proof.
  intros Hb Hl. induction before as [| e rest IH]; cbn [app until_settled].
  - rewrite Hl. reflexivity.
  - cbn [forallb] in Hb. apply andb_prop in Hb as [He Hrest].
    rewrite He, (IH Hrest). reflexivity.
Qed.

Lemma until_settled_none events :
  until_settled events = None <-> forallb is_data events = true.
Proof.
  induction events as [| e rest IH]; cbn [until_settled forallb]; [tauto |].
  destruct (is_data e); cbn [andb].
  - destruct (until_settled rest) as [[b l] |].
    + split; [discriminate |]. intros H. apply IH in H. discriminate.
    + split; [intros _; apply IH; reflexivity | reflexivity].
  - split; discriminate.
Qed.

(** Property X1.  [runCommand] resolves with the outcome of the first
    ['close'] or ['error'] event of the child, built from the output
    written before that event; what the child emits afterwards changes
    nothing.  The result is a success exactly when that event is a
    ['close'] with exit code 0.  The promise stays pending exactly when
    the child emits neither of the two events, whatever the timeout.
    When [spawn] throws instead of returning a child, the promise is
    rejected with what [spawn] has thrown. *)
Theorem runCommand_first_settlement args options s :
  let call := spawn_call config args options in
  let s' := {| world := snd (child_process_spawn call (world s));
               spawned := spawned s ++ [call];
               sfCommand := sfCommand s;
               serverStarted := serverStarted s |} in
  match fst (child_process_spawn call (world s)) with
  | inr events =>
      (forall before last later,
          events = before ++ last :: later ->
          forallb is_data before = true -> is_data last = false ->
          runCommand config args options s = (Normal (result_of before last), s') /\
          (CommandResult.success (result_of before last) = true
           <-> last = close_event (Some 0))) /\
      (runCommand config args options s = (Pending, s')
       <-> forallb is_data events = true)
  | inl e => runCommand config args options s = (Throw e, s')
  end.
Proof.
  intros call s'. subst call s'.
  destruct (child_process_spawn (spawn_call config args options) (world s))
    as [[e | events] w] eqn:Hspawn; cbn [fst snd].
  { unfold runCommand. rewrite Hspawn. reflexivity. }
  split.
  - intros before last later -> Hb Hl. split.
    + apply (runCommand_settled _ _ _ _ _ _ _ _ Hspawn).
      apply until_settled_app; assumption.
    + destruct last as [d | d | code | message]; try discriminate; cbn.
      * rewrite bool_decide_eq_true. split; [intros ->; reflexivity |].
        intros H. injection H as ->. reflexivity.
      * split; discriminate.
  - rewrite <- until_settled_none. unfold runCommand. rewrite Hspawn.
    rewrite settle_until_settled.
    destruct (until_settled events) as [[before last] |].
    + split; [| discriminate]. destruct last; discriminate.
    + split; reflexivity.
Qed.

Lemma trimEnd_head c rest :
  JsString.is_whitespace c = false ->
  exists rest', JsString.trimEnd (String c rest) = String c rest'.
Proof.
  intros Hc. cbn [JsString.trimEnd].
  destruct (JsString.trimEnd rest) as [| c' r'].
  - rewrite Hc. eauto.
  - eauto.
Qed.

Lemma trimEnd_idempotent s : JsString.trimEnd (JsString.trimEnd s) = JsString.trimEnd s.
Proof.
  induction s as [| c rest IH]; [reflexivity |].
  cbn [JsString.trimEnd].
  destruct (JsString.trimEnd rest) as [| c' r'] eqn:Hrest.
  - destruct (JsString.is_whitespace c) eqn:Hc; [reflexivity |].
    cbn [JsString.trimEnd]. rewrite Hc. reflexivity.
  - change (JsString.trimEnd (String c (String c' r')))
      with (match JsString.trimEnd (String c' r') with
            | EmptyString =>
                if JsString.is_whitespace c then EmptyString else String c EmptyString
            | rest' => String c rest'
            end).
    rewrite IH. reflexivity.
Qed.

Lemma trimStart_clean s :
  JsString.trimStart s = EmptyString \/
  exists c rest, JsString.trimStart s = String c rest /\ JsString.is_whitespace c = false.
Proof.
  induction s as [| c rest IH]; [left; reflexivity |].
  cbn [JsString.trimStart]. destruct (JsString.is_whitespace c) eqn:Hc; [exact IH |].
  right. eauto.
Qed.

Lemma trim_idempotent s : JsString.trim (JsString.trim s) = JsString.trim s.
Proof.
  unfold JsString.trim.
  destruct (trimStart_clean s) as [-> | (c & rest & -> & Hc)]; [reflexivity |].
  destruct (trimEnd_head c rest Hc) as (rest' & Hhead).
  rewrite Hhead. cbn [JsString.trimStart]. rewrite Hc.
  rewrite <- Hhead. apply trimEnd_idempotent.
Qed.

(** Property X2.  The standard output of every result of [runCommand]
    is trimmed already, and so is its standard error unless the result
    reports a spawn error (code -1), whose message is passed on as it is:
    trimming them again, as [findSFCLI] does with the npm prefix, changes
    nothing. *)
Theorem runCommand_output_is_trimmed args options s result s' :
  runCommand config args options s = (Normal result, s') ->
  JsString.trim (CommandResult.stdout result) = CommandResult.stdout result /\
  (CommandResult.code result <> Some (-1) ->
   JsString.trim (CommandResult.stderr result) = CommandResult.stderr result) /\
  possiblePaths (JsString.trim (CommandResult.stdout result))
    = possiblePaths (CommandResult.stdout result).
Proof.
  intros H.
  assert (Hout : JsString.trim (CommandResult.stdout result) = CommandResult.stdout result /\
                 (CommandResult.code result <> Some (-1) ->
                  JsString.trim (CommandResult.stderr result)
                  = CommandResult.stderr result)).
  { unfold runCommand in H.
    destruct (child_process_spawn (spawn_call config args options) (world s))
      as [[e | events] w]; [discriminate |].
    rewrite settle_until_settled in H.
    destruct (until_settled events) as [[before last] |]; [| discriminate].
    destruct last as [d | d | code | message]; injection H as <- _;
      cbn [CommandResult.stdout CommandResult.stderr CommandResult.code result_of];
      try (split; [apply trim_idempotent | intros _; apply trim_idempotent]).
    split; [reflexivity |]. intros Hcode. contradiction Hcode. reflexivity. }
  destruct Hout as [Hstdout Hstderr].
  split; [exact Hstdout |]. split; [exact Hstderr |].
  rewrite Hstdout. reflexivity.
Qed.

End RunCommandSettlement.

(** ** Further properties of the tool resolution and of the start-up *)

Section Resolution.

Context {RT : NodeRuntime}.
Variable config : Config.

Lemma settles_ret {A} (a : A) : settles_or_pends (ret a).
Proof. intros s c s' H. injection H as <- _. right. eauto. Qed.

Lemma settles_bind {A B} (m : Async A) (k : A -> Async B) :
  settles_or_pends m -> (forall a, settles_or_pends (k a)) -> settles_or_pends (bind m k).
Proof.
  intros Hm Hk s c s' H. unfold bind in H.
  destruct (m s) as [c1 s1] eqn:Hms.
  destruct (Hm _ _ _ Hms) as [-> | [a ->]].
  - injection H as <- _. left. reflexivity.
  - exact (Hk a _ _ _ H).
Qed.

Lemma no_exit_of_settles {A} (m : Async A) : settles_or_pends m -> no_exit m.
Proof.
  intros Hm s c s' H code ->. destruct (Hm _ _ _ H) as [? | [a ?]]; discriminate.
Qed.

Lemma no_exit_bind {A B} (m : Async A) (k : A -> Async B) :
  no_exit m -> (forall a, no_exit (k a)) -> no_exit (bind m k).
Proof.
  intros Hm Hk s c s' H code ->. unfold bind in H.
  destruct (m s) as [[a | e | code' |] s1] eqn:Hms; try discriminate.
  - exact (Hk a _ _ _ H code eq_refl).
  - exact (Hm _ _ _ Hms code' eq_refl).
Qed.

(** A [try] whose body does not end the process and whose handler
    settles neither throws nor ends the process. *)
Lemma settles_try_catch {A} (m : Async A) (h : JsError -> Async A) :
  no_exit m -> (forall e, settles_or_pends (h e)) -> settles_or_pends (try_catch m h).
Proof.
  intros Hm Hh s c s' H. unfold try_catch in H.
  destruct (m s) as [[a | e | code |] s1] eqn:Hms.
  - injection H as <- _. eauto.
  - exact (Hh e _ _ _ H).
  - contradiction (Hm _ _ _ Hms code). reflexivity.
  - injection H as <- _. eauto.
Qed.

Lemma settles_for_of {A R} (items : list A) (body : A -> Async (option R)) :
  (forall x, settles_or_pends (body x)) -> settles_or_pends (for_of items body).
Proof.
  intros Hbody. induction items as [| x rest IH]; cbn [for_of].
  - apply settles_ret.
  - apply settles_bind; [apply Hbody |].
    intros [v |]; [apply settles_ret | exact IH].
Qed.

Lemma settles_existsSync p : settles_or_pends (existsSync p).
Proof. intros s c s' H. injection H as <- _. right. eauto. Qed.

(** Every [runCommand] of [findSFCLI] is inside a [try] whose handler
    goes on: what [spawn] throws is caught. *)
Lemma settles_findSFCLI : settles_or_pends (findSFCLI config).
Proof.
  unfold findSFCLI.
  apply settles_bind.
  { apply settles_for_of. intros cmd.
    apply settles_try_catch; [| intros; apply settles_ret].
    apply no_exit_bind; [apply no_exit_runCommand |].
    intros r. apply no_exit_of_settles. destruct (_ && _); apply settles_ret. }
  intros [cmd |]; [apply settles_ret |].
  apply settles_bind.
  { apply settles_try_catch; [| intros; apply settles_ret].
    apply no_exit_bind; [apply no_exit_runCommand |].
    intros r. apply no_exit_of_settles.
    destruct (CommandResult.success r); [| apply settles_ret].
    apply settles_for_of. intros sfPath.
    apply settles_bind; [apply settles_existsSync |].
    intros [|]; [| apply settles_ret].
    apply settles_try_catch; [| intros; apply settles_ret].
    apply no_exit_bind; [apply no_exit_runCommand |].
    intros r'. apply no_exit_of_settles.
    destruct (CommandResult.success r'); apply settles_ret. }
  intros [cmd |]; apply settles_ret.
Qed.

Lemma spawns_weaken {A} (n n' : nat) (m : Async A) :
  (n <= n')%nat -> spawns_at_most n m -> spawns_at_most n' m.
Proof.
  intros Hn Hm s c s' H. destruct (Hm _ _ _ H) as (calls & Hc & Hl).
  exists calls. split; [exact Hc | lia].
Qed.

Lemma spawns_ret {A} (a : A) : spawns_at_most 0 (ret a).
Proof.
  intros s c s' H. injection H as _ <-. exists []. split; [| reflexivity].
  symmetry. apply app_nil_r.
Qed.

Lemma spawns_bind {A B} (n1 n2 : nat) (m : Async A) (k : A -> Async B) :
  spawns_at_most n1 m -> (forall a, spawns_at_most n2 (k a)) ->
  spawns_at_most (n1 + n2) (bind m k).
Proof.
  intros Hm Hk s c s' H. unfold bind in H.
  destruct (m s) as [c1 s1] eqn:Hms.
  destruct (Hm _ _ _ Hms) as (calls1 & Hc1 & Hl1).
  destruct c1 as [a | e | code |].
  - destruct (Hk a _ _ _ H) as (calls2 & Hc2 & Hl2).
    exists (calls1 ++ calls2). split.
    + rewrite Hc2, Hc1. symmetry. apply app_assoc.
    + rewrite length_app. lia.
  - injection H as _ <-. exists calls1. split; [exact Hc1 | lia].
  - injection H as _ <-. exists calls1. split; [exact Hc1 | lia].
  - injection H as _ <-. exists calls1. split; [exact Hc1 | lia].
Qed.

Lemma spawns_try_catch {A} (n1 n2 : nat) (m : Async A) (h : JsError -> Async A) :
  spawns_at_most n1 m -> (forall e, spawns_at_most n2 (h e)) ->
  spawns_at_most (n1 + n2) (try_catch m h).
Proof.
  intros Hm Hh s c s' H. unfold try_catch in H.
  destruct (m s) as [c1 s1] eqn:Hms.
  destruct (Hm _ _ _ Hms) as (calls1 & Hc1 & Hl1).
  destruct c1 as [a | e | code |].
  - injection H as _ <-. exists calls1. split; [exact Hc1 | lia].
  - destruct (Hh e _ _ _ H) as (calls2 & Hc2 & Hl2).
    exists (calls1 ++ calls2). split.
    + rewrite Hc2, Hc1. symmetry. apply app_assoc.
    + rewrite length_app. lia.
  - injection H as _ <-. exists calls1. split; [exact Hc1 | lia].
  - injection H as _ <-. exists calls1. split; [exact Hc1 | lia].
Qed.

Lemma spawns_for_of {A R} (n : nat) (items : list A) (body : A -> Async (option R)) :
  (forall x, spawns_at_most n (body x)) ->
  spawns_at_most (length items * n) (for_of items body).
Proof.
  intros Hbody. induction items as [| x rest IH]; cbn [for_of length Nat.mul].
  - apply spawns_ret.
  - apply spawns_bind; [apply Hbody |].
    intros [v |]; [| exact IH].
    apply (spawns_weaken 0); [lia | apply spawns_ret].
Qed.

Lemma spawns_runCommand args options :
  spawns_at_most 1 (runCommand config args options).
Proof.
  intros s c s' H. destruct (runCommand_state _ _ _ _ _ _ H) as (Hs & _).
  eexists. split; [exact Hs | reflexivity].
Qed.

Lemma spawns_existsSync p : spawns_at_most 0 (existsSync p).
Proof.
  intros s c s' H. injection H as _ <-. exists []. split; [| reflexivity].
  symmetry. apply app_nil_r.
Qed.

(** One turn of the loop over [simpleCommands] runs one child. *)
Lemma spawns_simple_body cmd :
  spawns_at_most 1
    (try_catch
       (let_await result := runCommand config (split_cmd cmd ++ ["--version"]) no_options in
        if CommandResult.success result &&
           JsString.includes (JsString.toLowerCase (CommandResult.stdout result))
                             "salesforce"
        then ret (Some (split_cmd cmd))
        else ret None)
       (fun e => ret None)).
Proof.
  apply (spawns_try_catch 1 0); [| intros; apply spawns_ret].
  apply (spawns_bind 1 0); [apply spawns_runCommand |].
  intros r. destruct (_ && _); apply spawns_ret.
Qed.

(** The npm prefix method runs [npm] and at most one child per path. *)
Lemma spawns_prefix_method :
  spawns_at_most 3
    (let_await found :=
        try_catch
          (let_await npmResult := runCommand config ["npm"; "config"; "get"; "prefix"] no_options in
           if CommandResult.success npmResult then
             let npmPrefix := JsString.trim (CommandResult.stdout npmResult) in
             for_of (possiblePaths npmPrefix) (fun sfPath =>
               let_await present := existsSync sfPath in
               if present then
                 try_catch
                   (let_await testResult := runCommand config [sfPath; "--version"] no_options in
                    if CommandResult.success testResult
                    then ret (Some [sfPath])
                    else ret None)
                   (fun e => ret None)
               else ret None)
           else ret None)
          (fun e => ret None) in
      match found with
      | Some cmd => ret (Some cmd)
      | None => ret None
      end).
Proof.
  apply (spawns_bind 3 0); [| intros [cmd |]; apply spawns_ret].
  apply (spawns_try_catch 3 0); [| intros; apply spawns_ret].
  apply (spawns_bind 1 2); [apply spawns_runCommand |].
  intros r. destruct (CommandResult.success r);
    [| apply (spawns_weaken 0); [lia | apply spawns_ret]].
  apply (spawns_for_of 1 (possiblePaths _)). intros sfPath.
  apply (spawns_bind 0 1); [apply spawns_existsSync |].
  intros [|]; [| apply (spawns_weaken 0); [lia | apply spawns_ret]].
  apply (spawns_try_catch 1 0); [| intros; apply spawns_ret].
  apply (spawns_bind 1 0); [apply spawns_runCommand |].
  intros r'. destruct (CommandResult.success r'); apply spawns_ret.
Qed.

(** One turn of the loop over [simpleCommands] calls [spawn] once. *)
Lemma simple_body_log cmd s c s1 :
  try_catch
    (let_await result := runCommand config (split_cmd cmd ++ ["--version"]) no_options in
     if CommandResult.success result &&
        JsString.includes (JsString.toLowerCase (CommandResult.stdout result))
                          "salesforce"
     then ret (Some (split_cmd cmd))
     else ret None)
    (fun e => ret None) s = (c, s1) ->
  spawned s1 = spawned s ++ [spawn_call config (split_cmd cmd ++ ["--version"]) no_options].
Proof.
  unfold try_catch, bind. intros H.
  destruct (runCommand config (split_cmd cmd ++ ["--version"]) no_options s)
    as [c2 s2] eqn:Hrun.
  destruct (runCommand_state _ _ _ _ _ _ Hrun) as (Hs & _).
  destruct c2 as [r | e | code |].
  - destruct (_ && _); injection H as _ <-; exact Hs.
  - injection H as _ <-. exact Hs.
  - injection H as _ <-. exact Hs.
  - injection H as _ <-. exact Hs.
Qed.

(** Property X3.  [findSFCLI] never throws and never ends the process,
    whatever [spawn] does: it returns a command or [null], or stays
    pending with a child that never settles.  It calls [spawn] at least
    once and at most five times, the first call being [sf --version]. *)
Theorem findSFCLI_completes s :
  (fst (findSFCLI config s) = Pending \/
   exists found, fst (findSFCLI config s) = Normal found) /\
  exists rest,
    spawned (snd (findSFCLI config s))
      = spawned s ++ spawn_call config ["sf"; "--version"] no_options :: rest /\
    (length rest <= 4)%nat.
Proof.
  split.
  - destruct (findSFCLI config s) as [c s'] eqn:H.
    exact (settles_findSFCLI _ _ _ H).
  - unfold findSFCLI, simpleCommands. cbn [for_of].
    unfold bind at 1, bind at 1.
    match goal with
    | |- context [try_catch ?b ?h s] =>
        destruct (try_catch b h s) as [c1 s1] eqn:Hbody
    end.
    pose proof (simple_body_log "sf" _ _ _ Hbody) as Hs1.
    change (split_cmd "sf" ++ ["--version"]) with ["sf"; "--version"] in Hs1.
    destruct c1 as [[cmd |] | e | code |]; cbn [ret snd];
      try (exists []; split; [exact Hs1 | cbn; lia]).
    match goal with
    | |- context [snd (match ?m s1 with _ => _ end)] =>
        destruct (m s1) as [c2 s2] eqn:Hloop
    end.
    assert (H2 : exists calls, spawned s2 = spawned s1 ++ calls /\ (length calls <= 1)%nat).
    { revert Hloop. unfold bind at 1.
      match goal with
      | |- context [try_catch ?b ?h s1] =>
          destruct (try_catch b h s1) as [c3 s3] eqn:Hbody2
      end.
      destruct (spawns_simple_body "npx sf" _ _ _ Hbody2) as (calls & Hc & Hl).
      intros Hloop. exists calls.
      destruct c3 as [[v |] | e | code |]; injection Hloop as _ <-; split; assumption. }
    destruct H2 as (calls2 & Hc2 & Hl2).
    destruct c2 as [[cmd |] | e | code |]; cbn [snd ret];
      try (exists calls2; rewrite Hc2, Hs1, <- app_assoc; split; [reflexivity | lia]).
    match goal with
    | |- context [snd (?m s2)] => destruct (m s2) as [c4 s4] eqn:Hnpm
    end.
    destruct (spawns_prefix_method _ _ _ Hnpm) as (calls3 & Hc3 & Hl3).
    exists (calls2 ++ calls3). cbn [snd]. rewrite Hc3, Hc2, Hs1, <- !app_assoc.
    split; [reflexivity | rewrite length_app; lia].
Qed.

Lemma for_of_found {A R} (items : list A) (body : A -> Async (option R)) :
  forall s v s',
    for_of items body s = (Normal (Some v), s') ->
    exists x s0, x ∈ items /\ body x s0 = (Normal (Some v), s').
Proof.
  induction items as [| x rest IH]; intros s v s' H; cbn [for_of] in H.
  - discriminate.
  - unfold bind in H. destruct (body x s) as [[[w |] | e | code |] s1] eqn:Hx;
      try discriminate.
    + injection H as <- <-. exists x, s. split; [left | exact Hx].
    + destruct (IH _ _ _ H) as (y & s0 & Hy & Hb).
      exists y, s0. split; [right; exact Hy | exact Hb].
Qed.

(** Where a command returned by [findSFCLI] comes from. *)
Lemma findSFCLI_returns s cmd s' :
  findSFCLI config s = (Normal (Some cmd), s') ->
  exists s0 result,
    runCommand config (cmd ++ ["--version"]) no_options s0 = (Normal result, s') /\
    CommandResult.success result = true /\
    ((cmd = ["sf"] \/ cmd = ["npx"; "sf"]) /\ has_marker result = true \/
     exists sfPath, cmd = [sfPath] /\ fs_existsSync sfPath (world s0) = true).
Proof.
  intros H. unfold findSFCLI in H. unfold bind at 1 in H.
  match type of H with
  | context [for_of simpleCommands ?b s] =>
      destruct (for_of simpleCommands b s) as [[[found |] | e | code |] s1] eqn:Hloop
  end; try discriminate.
  - injection H as <- <-.
    apply for_of_found in Hloop as (x & s0 & Hx & Hbody).
    unfold try_catch, bind in Hbody.
    destruct (runCommand config (split_cmd x ++ ["--version"]) no_options s0)
      as [[r | e | code |] s2] eqn:Hrun; try discriminate.
    destruct (CommandResult.success r &&
              JsString.includes (JsString.toLowerCase (CommandResult.stdout r)) "salesforce")
      eqn:Hmark; [| discriminate].
    injection Hbody as <- <-.
    exists s0, r. split; [exact Hrun |]. split.
    + apply andb_prop in Hmark as [Hok _]. exact Hok.
    + left. split; [| exact Hmark].
      unfold simpleCommands in Hx.
      apply elem_of_cons in Hx as [-> | Hx]; [left; reflexivity |].
      apply list_elem_of_singleton in Hx as ->. right. reflexivity.
  - unfold bind at 1, try_catch at 1, bind at 1 in H.
    destruct (runCommand config ["npm"; "config"; "get"; "prefix"] no_options s1)
      as [[r | e | code |] s2] eqn:Hnpm; try discriminate.
    destruct (CommandResult.success r); [| discriminate].
    match type of H with
    | context [for_of ?items ?b s2] =>
        destruct (for_of items b s2) as [[[found |] | e | code |] s3] eqn:Hpaths
    end; try discriminate.
    injection H as <- <-.
    apply for_of_found in Hpaths as (p & s0 & _ & Hbody).
    unfold bind at 1, existsSync in Hbody.
    destruct (fs_existsSync p (world s0)) eqn:Hex; [| discriminate].
    unfold try_catch, bind in Hbody.
    destruct (runCommand config [p; "--version"] no_options s0)
      as [[r' | e | code |] s4] eqn:Hrun; try discriminate.
    destruct (CommandResult.success r') eqn:Hok; [| discriminate].
    injection Hbody as <- <-.
    exists s0, r'. split; [exact Hrun |]. split; [exact Hok |].
    right. exists p. split; [reflexivity | exact Hex].
Qed.

(** Property X4.  A command returned by [findSFCLI] has just passed its
    version check: it is not empty, the last child spawned is its
    [--version] run, and that run exited with status 0; the command is
    [sf] or [npx sf] with the marker in the output of the run, or one
    file that exists on disk. *)
Theorem findSFCLI_sound s cmd s' :
  findSFCLI config s = (Normal (Some cmd), s') ->
  cmd <> [] /\
  last (spawned s') = Some (spawn_call config (cmd ++ ["--version"]) no_options) /\
  exists s0 result,
    runCommand config (cmd ++ ["--version"]) no_options s0 = (Normal result, s') /\
    CommandResult.success result = true /\
    ((cmd = ["sf"] \/ cmd = ["npx"; "sf"]) /\ has_marker result = true \/
     exists sfPath, cmd = [sfPath] /\ fs_existsSync sfPath (world s0) = true).
Proof.
  intros H.
  destruct (findSFCLI_returns _ _ _ H) as (s0 & result & Hrun & Hok & Hcases).
  split; [| split].
  - destruct Hcases as [[[-> | ->] _] | (p & -> & _)]; discriminate.
  - destruct (runCommand_state _ _ _ _ _ _ Hrun) as (Hs & _).
    rewrite Hs. apply last_snoc.
  - exists s0, result. repeat split; assumption.
Qed.

(** Property X5.  [init] of the application ends in one of three ways
    and never throws.  The process exits with status 1 and the server
    not started: with no command stored, or, [listen] having thrown,
    with the command [findSFCLI] returned stored.  Or the resolution
    stays pending, with nothing changed.  Or [init] returns with the
    server started and a non-empty command stored, the one [findSFCLI]
    returned.  So the server only ever runs over an initialized
    service. *)
Theorem init_outcomes s :
  match init config s with
  | (Exit code, s') =>
      code = 1 /\ serverStarted s' = serverStarted s /\
      (sfCommand s' = None \/
       exists cmd s0 e,
         sfCommand s' = Some cmd /\
         findSFCLI config s = (Normal (Some cmd), s0) /\
         server_listen (world s0) = Some e)
  | (Pending, s') =>
      sfCommand s' = sfCommand s /\ serverStarted s' = serverStarted s
  | (Normal _, s') =>
      serverStarted s' = true /\
      exists cmd, sfCommand s' = Some cmd /\ cmd <> [] /\
                  exists s0, findSFCLI config s = (Normal (Some cmd), s0) /\
                             server_listen (world s0) = None
  | (Throw _, _) => False
  end.
Proof.
  destruct (findSFCLI config s) as [c s1] eqn:Hfind.
  destruct (keeps_service_findSFCLI config _ _ _ Hfind) as [Hserver Hcmd].
  destruct (settles_findSFCLI _ _ _ Hfind) as [-> | [[cmd |] ->]].
  - unfold init, try_catch, bind at 1, initialize, bind at 1. rewrite Hfind.
    split; assumption.
  - rewrite (init_starts_server _ _ _ _ Hfind).
    destruct (server_listen (world s1)) as [e |] eqn:Hlisten.
    + split; [reflexivity |]. split; [exact Hserver |].
      right. exists cmd, s1, e. repeat split. exact Hlisten.
    + split; [reflexivity |].
      exists cmd. split; [reflexivity |]. split; [| eauto].
      destruct (findSFCLI_returns _ _ _ Hfind)
        as (s0 & r & _ & _ & [[[-> | ->] _] | (p & -> & _)]); discriminate.
  - unfold init, try_catch, bind at 1, initialize, bind at 1. rewrite Hfind.
    cbn. split; [reflexivity |]. split; [exact Hserver | left; reflexivity].
Qed.

End Resolution.

(** ** Further properties of the queries *)

Section Queries.

Context {RT : NodeRuntime}.
Variable config : Config.

(** [runSFCommand] throws on a service without a command and otherwise
    behaves like [runCommand]. *)
Lemma runSFCommand_outcomes args s c s' :
  runSFCommand config args s = (c, s') ->
  sfCommand s = None /\ c = Throw TypeError /\ s' = s \/
  exists cmd, sfCommand s = Some cmd /\
    (c = Pending \/ (exists result, c = Normal result) \/
     exists e, c = Throw e /\ thrown_by_spawn e s').
Proof.
  intros H. unfold runSFCommand in H.
  destruct (sfCommand s) as [cmd |] eqn:Hcmd.
  - right. exists cmd. split; [reflexivity |].
    exact (runCommand_outcomes _ _ _ _ _ _ H).
  - left. injection H as <- <-. repeat split.
Qed.

Lemma keeps_service_runSFCommand args : keeps_service (runSFCommand config args).
Proof.
  intros s c s' H. unfold runSFCommand in H.
  destruct (sfCommand s) as [cmd |] eqn:Hcmd; rewrite <- Hcmd.
  - exact (keeps_service_runCommand config _ _ _ _ _ H).
  - injection H as _ <-. split; reflexivity.
Qed.

Lemma keeps_service_getAvailableOrgs : keeps_service (getAvailableOrgs config).
Proof.
  unfold getAvailableOrgs.
  apply keeps_service_bind; [apply keeps_service_runSFCommand |].
  intros r. destruct (negb _); [apply keeps_service_ret |].
  destruct (JSON_parse _); apply keeps_service_ret.
Qed.

Lemma keeps_service_getOrgInfo orgAlias : keeps_service (getOrgInfo config orgAlias).
Proof.
  unfold getOrgInfo.
  apply keeps_service_bind; [apply keeps_service_runSFCommand |].
  intros r. destruct (negb _); [apply keeps_service_ret |].
  destruct (JSON_parse _) as [? | data]; [apply keeps_service_ret |].
  destruct (Json.result_ data); apply keeps_service_ret.
Qed.

Lemma keeps_service_getCoverageData orgAlias :
  keeps_service (getCoverageData config orgAlias).
Proof.
  unfold getCoverageData, testToolingAPI.
  apply keeps_service_bind.
  { apply keeps_service_bind; [apply keeps_service_runSFCommand |].
    intros r. apply keeps_service_ret. }
  intros tooling. apply keeps_service_bind.
  { destruct tooling; apply keeps_service_runSFCommand. }
  intros r. destruct (negb _); [apply keeps_service_ret |].
  destruct (JSON_parse _) as [? | data]; [apply keeps_service_ret |].
  destruct tooling, (rows_end_in_null data); apply keeps_service_ret.
Qed.

(** The ways the three queries can end: with a [TypeError] and nothing
    done on a service without a command; otherwise pending, or with a
    value, or with what the last call of [spawn] threw. *)
Lemma getAvailableOrgs_outcomes s c s' :
  getAvailableOrgs config s = (c, s') ->
  sfCommand s = None /\ c = Throw TypeError /\ s' = s \/
  exists cmd, sfCommand s = Some cmd /\
    (c = Pending \/ (exists orgs, c = Normal orgs) \/
     exists e, c = Throw e /\ thrown_by_spawn e s').
Proof.
  intros H. unfold getAvailableOrgs, bind in H.
  destruct (runSFCommand config _ s) as [c1 s1] eqn:Hrun.
  destruct (runSFCommand_outcomes _ _ _ _ Hrun)
    as [(Hcmd & -> & ->) | (cmd & Hcmd & [-> | [[r ->] | (e & -> & He)]])].
  - left. injection H as <- <-. repeat split. exact Hcmd.
  - right. exists cmd. split; [exact Hcmd |]. injection H as <- _. left. reflexivity.
  - right. exists cmd. split; [exact Hcmd |]. right. left.
    destruct (negb _); [injection H as <- _; eauto |].
    destruct (JSON_parse _); injection H as <- _; eauto.
  - right. exists cmd. split; [exact Hcmd |]. right. right.
    injection H as <- <-. eauto.
Qed.

Lemma getOrgInfo_outcomes orgAlias s c s' :
  getOrgInfo config orgAlias s = (c, s') ->
  sfCommand s = None /\ c = Throw TypeError /\ s' = s \/
  exists cmd, sfCommand s = Some cmd /\
    (c = Pending \/ (exists info, c = Normal info) \/
     exists e, c = Throw e /\ thrown_by_spawn e s').
Proof.
  intros H. unfold getOrgInfo, bind in H.
  destruct (runSFCommand config _ s) as [c1 s1] eqn:Hrun.
  destruct (runSFCommand_outcomes _ _ _ _ Hrun)
    as [(Hcmd & -> & ->) | (cmd & Hcmd & [-> | [[r ->] | (e & -> & He)]])].
  - left. injection H as <- <-. repeat split. exact Hcmd.
  - right. exists cmd. split; [exact Hcmd |]. injection H as <- _. left. reflexivity.
  - right. exists cmd. split; [exact Hcmd |]. right. left.
    destruct (negb _); [injection H as <- _; eauto |].
    destruct (JSON_parse _) as [? | data]; [injection H as <- _; eauto |].
    destruct (Json.result_ data); injection H as <- _; eauto.
  - right. exists cmd. split; [exact Hcmd |]. right. right.
    injection H as <- <-. eauto.
Qed.

Lemma getCoverageData_outcomes orgAlias s c s' :
  getCoverageData config orgAlias s = (c, s') ->
  sfCommand s = None /\ c = Throw TypeError /\ s' = s \/
  exists cmd, sfCommand s = Some cmd /\
    (c = Pending \/ (exists response, c = Normal response) \/
     exists e, c = Throw e /\ thrown_by_spawn e s').
Proof.
  intros H. destruct (sfCommand s) as [cmd |] eqn:Hcmd.
  - right. exists cmd. split; [reflexivity |].
    destruct (getCoverageData_completion config orgAlias s cmd Hcmd)
      as (s0 & [Hc | [[r Hc] | (e & Hc & He)]]);
      rewrite Hc in H; injection H as <- <-; eauto.
  - left. unfold getCoverageData, testToolingAPI, bind, runSFCommand in H.
    rewrite Hcmd in H. injection H as <- <-. repeat split.
Qed.

(** Property X6.  On a service whose command has not been resolved
    ([sfCommand] is [null]) the three queries throw a [TypeError] and
    leave the state as it is: no child is spawned. *)
Theorem uninitialized_service_throws s orgAlias :
  sfCommand s = None ->
  getAvailableOrgs config s = (Throw TypeError, s) /\
  getOrgInfo config orgAlias s = (Throw TypeError, s) /\
  getCoverageData config orgAlias s = (Throw TypeError, s).
Proof.
  intros H. unfold getAvailableOrgs, getOrgInfo, getCoverageData, testToolingAPI,
    bind, runSFCommand. rewrite H. repeat split.
Qed.

(** Property X7.  On an initialized service none of the three queries
    ends the process, and each leaves [sfCommand] and the server as they
    are: the service stays initialized whatever is asked of it.  Each
    query stays pending, or returns a value, or throws; and what it
    throws is what the call of [spawn] it made last has thrown, so a
    query all of whose children could be spawned does not throw. *)
Theorem initialized_service_is_stable s cmd orgAlias :
  sfCommand s = Some cmd ->
  (forall c s', getAvailableOrgs config s = (c, s') ->
     (c = Pending \/ (exists orgs, c = Normal orgs) \/
      exists e, c = Throw e /\ thrown_by_spawn e s') /\
     sfCommand s' = Some cmd /\ serverStarted s' = serverStarted s) /\
  (forall c s', getOrgInfo config orgAlias s = (c, s') ->
     (c = Pending \/ (exists info, c = Normal info) \/
      exists e, c = Throw e /\ thrown_by_spawn e s') /\
     sfCommand s' = Some cmd /\ serverStarted s' = serverStarted s) /\
  (forall c s', getCoverageData config orgAlias s = (c, s') ->
     (c = Pending \/ (exists response, c = Normal response) \/
      exists e, c = Throw e /\ thrown_by_spawn e s') /\
     sfCommand s' = Some cmd /\ serverStarted s' = serverStarted s).
Proof.
  intros Hcmd. split; [| split]; intros c s' H.
  - destruct (keeps_service_getAvailableOrgs _ _ _ H) as [H1 H2].
    destruct (getAvailableOrgs_outcomes _ _ _ H) as [(Hn & _) | (cmd' & _ & Hc)];
      [congruence |].
    split; [exact Hc |]. split; [congruence | exact H1].
  - destruct (keeps_service_getOrgInfo _ _ _ _ H) as [H1 H2].
    destruct (getOrgInfo_outcomes _ _ _ _ H) as [(Hn & _) | (cmd' & _ & Hc)];
      [congruence |].
    split; [exact Hc |]. split; [congruence | exact H1].
  - destruct (keeps_service_getCoverageData _ _ _ _ H) as [H1 H2].
    destruct (getCoverageData_outcomes _ _ _ _ H) as [(Hn & _) | (cmd' & _ & Hc)];
      [congruence |].
    split; [exact Hc |]. split; [congruence | exact H1].
Qed.

Lemma or_string_nonempty x d : d <> EmptyString -> or_string x d <> EmptyString.
Proof.
  intros Hd. unfold or_string. destruct x as [[| c r] |]; cbn; try exact Hd. discriminate.
Qed.

(** Property X8.  Once the [org display] child has settled, [getOrgInfo]
    returns [null] exactly when the child failed, or its output is not
    JSON, or the JSON has no [result]; otherwise it returns a record none
    of whose four fields is empty. *)
Theorem getOrgInfo_answer orgAlias s cmd result s1 :
  sfCommand s = Some cmd ->
  runCommand config (cmd ++ ["org"; "display"; "--target-org"; orgAlias; "--json"])
    no_options s = (Normal result, s1) ->
  exists answer,
    getOrgInfo config orgAlias s = (Normal answer, s1) /\
    (answer = None <->
     CommandResult.success result = false \/
     match JSON_parse (CommandResult.stdout result) with
     | inl _ => True
     | inr data => Json.result_ data = None
     end) /\
    forall info, answer = Some info ->
      OrgInfo.name info <> EmptyString /\ OrgInfo.url info <> EmptyString /\
      OrgInfo.username info <> EmptyString /\ OrgInfo.id info <> EmptyString.
Proof.
  intros Hcmd Hrun. unfold getOrgInfo.
  rewrite (bind_normal _ _ s result s1)
    by (rewrite (runSFCommand_initialized _ _ _ cmd Hcmd); exact Hrun).
  destruct (CommandResult.success result); cbn [negb].
  2: { exists None. split; [reflexivity |]. split; [tauto | discriminate]. }
  destruct (JSON_parse (CommandResult.stdout result)) as [message | data].
  { exists None. split; [reflexivity |]. split; [tauto | discriminate]. }
  destruct (Json.result_ data) as [orgData |].
  2: { exists None. split; [reflexivity |]. split; [tauto | discriminate]. }
  eexists. split; [reflexivity |]. split.
  - split; [discriminate | intros [H | H]; discriminate].
  - intros info H. injection H as <-. cbn.
    repeat split; repeat apply or_string_nonempty; discriminate.
Qed.

Lemma response_of_error tooling result :
  Response.error (response_of tooling result) = None <->
  Response.success (response_of tooling result) = true /\ tooling = true.
Proof.
  unfold response_of.
  destruct (negb (CommandResult.success result)).
  { cbn. split; [discriminate | intros [H _]; discriminate]. }
  destruct (JSON_parse (CommandResult.stdout result)) as [message | data].
  { cbn. split; [discriminate | intros [H _]; discriminate]. }
  destruct (process_coverage_flags
              (or_empty (Json.result_ data ≫= Json.records))
              (Response.with_toolingAPIUsed true initial_response))
    as (_ & He & Hs & _).
  destruct tooling, (rows_end_in_null data); cbn.
  - rewrite Hs. cbn. split; [discriminate | intros [H _]; discriminate].
  - rewrite He. cbn. tauto.
  - split; [discriminate | intros [_ H]; discriminate].
  - split; [discriminate | intros [_ H]; discriminate].
Qed.

(** In a successful response the overall percentage comes from the two
    totals; in a failure it is the 0 the response started with. *)
Lemma response_of_overall tooling result :
  let response := response_of tooling result in
  let totalLines :=
    Number.add (Response.totalCovered response) (Response.totalUncovered response) in
  Response.overallPercentage response
  = if Response.success response
    then if Number.ltb Number.zero totalLines
         then round_percent (Response.totalCovered response) totalLines
         else Number.zero
    else Number.zero.
Proof.
  unfold response_of.
  destruct (negb (CommandResult.success result)); [reflexivity |].
  destruct (JSON_parse (CommandResult.stdout result)) as [message | data];
    [reflexivity |].
  destruct tooling, (rows_end_in_null data); cbn; try reflexivity.
  - destruct (process_coverage_flags
                (or_empty (Json.result_ data ≫= Json.records))
                (Response.with_toolingAPIUsed true initial_response))
      as (_ & _ & -> & ->). reflexivity.
  - destruct (process_class_flags
                (or_empty (Json.result_ data ≫= Json.records))
                (Response.with_toolingAPIUsed false initial_response))
      as (_ & _ & -> & ->). reflexivity.
Qed.

Lemma response_of_fallback_totals result :
  Response.totalCovered (response_of false result) = Number.zero /\
  Response.totalUncovered (response_of false result) = Number.zero /\
  Response.overallPercentage (response_of false result) = Number.zero.
Proof.
  assert (H : Response.totalCovered (response_of false result) = Number.zero /\
              Response.totalUncovered (response_of false result) = Number.zero).
  { unfold response_of.
    destruct (negb (CommandResult.success result)); [split; reflexivity |].
    destruct (JSON_parse (CommandResult.stdout result)) as [message | data];
      [split; reflexivity |].
    destruct (rows_end_in_null data); cbn; apply process_class_totals. }
  destruct H as [H1 H2]. repeat split; try assumption.
  rewrite response_of_overall. cbv zeta. rewrite H1, H2.
  destruct (Response.success _); reflexivity.
Qed.

(** Property X9.  The [error] of a response is [null] exactly when the
    response is a success of the Tooling API path: every failure carries
    an error text, and so does every success of the fallback path. *)
Theorem error_is_null_iff orgAlias s response s' :
  getCoverageData config orgAlias s = (Normal response, s') ->
  (Response.error response = None <->
   Response.success response = true /\ Response.toolingAPIUsed response = true).
Proof.
  intros Hrun.
  destruct (getCoverageData_returns _ _ _ _ _ Hrun)
    as (cmd & probe & s1 & result & _ & _ & _ & ->).
  rewrite response_of_toolingAPIUsed. apply response_of_error.
Qed.

(** Property X10.  In every successful response the overall percentage
    is computed from the two totals, not from the percentages of the
    classes: it is the rounded ratio of [totalCovered] to the binary64
    sum of the totals when that sum is greater than 0, and 0 otherwise;
    in a response that is no success it is the 0 the response started
    with.  It is a binary64 number between 0 and 100 whenever the totals
    are non-negative integers whose sum is below 2^53, and on the
    fallback path the totals and the overall percentage are 0. *)
Theorem overall_percentage_of_totals orgAlias s response s' :
  getCoverageData config orgAlias s = (Normal response, s') ->
  let totalLines :=
    Number.add (Response.totalCovered response) (Response.totalUncovered response) in
  (Response.success response = true ->
   Response.overallPercentage response
     = if Number.ltb Number.zero totalLines
       then round_percent (Response.totalCovered response) totalLines
       else Number.zero) /\
  (Response.success response = false ->
   Response.overallPercentage response = Number.zero) /\
  (forall C U,
     Response.totalCovered response = Number.canonical C ->
     Response.totalUncovered response = Number.canonical U ->
     0 <= C -> 0 <= U -> C + U < 2 ^ 53 ->
     is_percentage (Response.overallPercentage response) = true) /\
  (Response.toolingAPIUsed response = false ->
   Response.totalCovered response = Number.zero /\
   Response.totalUncovered response = Number.zero /\
   Response.overallPercentage response = Number.zero).
Proof.
  intros Hrun.
  destruct (getCoverageData_returns _ _ _ _ _ Hrun)
    as (cmd & probe & s1 & result & _ & _ & _ & ->).
  cbv zeta.
  pose proof (response_of_overall (CommandResult.success probe) result) as Ho.
  cbv zeta in Ho.
  split; [intros Hs; rewrite Ho, Hs; reflexivity |].
  split; [intros Hs; rewrite Ho, Hs; reflexivity |].
  split.
  - intros C U HC HU HC0 HU0 Hsum. rewrite Ho.
    destruct (Response.success _); [| reflexivity].
    rewrite HC, HU, add_canonical by assumption.
    destruct (Z.eq_dec (C + U) 0) as [-> | Hne]; [reflexivity |].
    rewrite canonical_positive by lia.
    rewrite round_percent_canonical by lia.
    apply round_percent_is_percentage; lia.
  - rewrite response_of_toolingAPIUsed. intros ->. apply response_of_fallback_totals.
Qed.

(** The quotient of a positive number by itself is 1, the percentage 100. *)
Lemma round_percent_all (m : positive) (e : Z) :
  round_percent (S754_finite false m e) (S754_finite false m e) = Number.canonical 100.
Proof. unfold round_percent. rewrite div_self. vm_compute. reflexivity. Qed.

Lemma round_percent_none (t : Number.t) :
  Number.ltb Number.zero t = true -> round_percent Number.zero t = Number.zero.
Proof. destruct t as [[] | [] | | [] m e]; try discriminate; reflexivity. Qed.

(** Property X11.  In every response a class with a finite positive
    number of covered lines and no uncovered line is reported at exactly
    100, and a class with no covered line at exactly 0, whatever the
    number of lines. *)
Theorem full_and_empty_classes orgAlias s response s' :
  getCoverageData config orgAlias s = (Normal response, s') ->
  forall name e,
    Response.coverage response !! name = Some e ->
    (forall m ex,
        CoverageEntry.covered e = S754_finite false m ex ->
        CoverageEntry.uncovered e = Number.zero ->
        CoverageEntry.percentage e = Number.canonical 100) /\
    (CoverageEntry.covered e = Number.zero ->
     CoverageEntry.percentage e = Number.zero).
Proof.
  intros Hrun name e Hlookup.
  destruct (getCoverageData_returns _ _ _ _ _ Hrun)
    as (cmd & probe & s1 & result & _ & _ & _ & ->).
  destruct (response_of_well_formed _ _ _ _ Hlookup) as [Htotal Hpct].
  rewrite Hpct, Htotal, <- round_percent_round2. split.
  - intros m ex Hc Hu. rewrite Hc, Hu.
    change (Number.add (S754_finite false m ex) Number.zero)
      with (S754_finite false m ex).
    change (Number.ltb Number.zero (S754_finite false m ex)) with true.
    apply round_percent_all.
  - intros Hc. rewrite Hc.
    destruct (Number.ltb Number.zero (Number.add Number.zero (CoverageEntry.uncovered e)))
      eqn:Hpos; [| reflexivity].
    apply round_percent_none. exact Hpos.
Qed.

End Queries.

(** ** The accuracy of the percentages

    Each of the three roundings of [round_percent] moves the value by at
    most one unit in the last place of its result; followed through the
    division and the two multiplications, the error stays far below the
    half unit that [Math.round] decides on. *)

Lemma round_nearest_even_range m l :
  m <= round_nearest_even m l <= m + 1.
Proof.
  destruct l as [| []]; cbn [round_nearest_even]; try destruct (Z.even m); lia.
Qed.

Lemma pow2_pos k : 0 <= k -> 0 < 2 ^ k.
Proof. intros. apply Z.pow_pos_nonneg; lia. Qed.

Lemma pow2_split a b : 0 <= a -> 0 <= b -> 2 ^ (a + b) = 2 ^ a * 2 ^ b.
Proof. intros. apply Z.pow_add_r; assumption. Qed.

Lemma binary_round_aux_near (m e : Z) (l : location) (D : Z) :
  -1074 <= e <= D - 53 -> D <= 1000 ->
  0 <= m < 2 ^ (D - e) ->
  let x := binary_round_aux 53 1024 false m e l in
  exponent_within x e (D - 52) /\
  m * 2 ^ (e + 1074) - 2 ^ (D + 1022) <= scaled x <= m * 2 ^ (e + 1074) + 2 ^ (D + 1022).
Proof.
  intros He HD Hm x. subst x.
  unfold binary_round_aux, shr_fexp.
  fold (fexp64 (Zdigits2 m + e)).
  set (n1 := fexp64 (Zdigits2 m + e) - e).
  pose proof (shr_snd (shr_record_of_loc m l) e n1) as He1.
  pose proof (shr_floor (shr_record_of_loc m l) e n1) as Hfl1.
  destruct (shr (shr_record_of_loc m l) e n1) as [mrs1 e1].
  cbn [fst snd] in He1, Hfl1.
  assert (Hm1 : shr_m mrs1 = m / 2 ^ Z.max 0 n1).
  { assert (Hrec : shr_m (shr_record_of_loc m l) = m) by (destruct l as [| []]; reflexivity).
    rewrite Hrec in Hfl1. apply Hfl1. lia. }
  clear Hfl1.
  set (k1 := Z.max 0 n1) in *.
  pose proof (round_nearest_even_range (shr_m mrs1) (loc_of_shr_record mrs1)) as Hm2.
  set (m2 := round_nearest_even (shr_m mrs1) (loc_of_shr_record mrs1)) in *.
  fold (fexp64 (Zdigits2 m2 + e1)).
  set (n2 := fexp64 (Zdigits2 m2 + e1) - e1).
  pose proof (shr_snd (shr_record_of_loc m2 loc_Exact) e1 n2) as He2.
  pose proof (shr_floor (shr_record_of_loc m2 loc_Exact) e1 n2) as Hfl2.
  destruct (shr (shr_record_of_loc m2 loc_Exact) e1 n2) as [mrs2 e2].
  cbn [fst snd shr_record_of_loc shr_m] in He2, Hfl2.
  set (k2 := Z.max 0 n2) in *.
  (* the first shift *)
  assert (Hk1 : 0 <= k1) by (subst k1; lia).
  assert (Hdm : Zdigits2 m <= D - e).
  { apply Zdigits2_le_of_lt_pow; lia. }
  assert (He1le : e <= e1 <= D - 53).
  { subst e1 k1 n1. rewrite fexp64_eq. lia. }
  assert (Hp1 : 0 < 2 ^ k1) by (apply pow2_pos; lia).
  assert (Hdiv1 : shr_m mrs1 * 2 ^ k1 <= m < (shr_m mrs1 + 1) * 2 ^ k1).
  { rewrite Hm1. split.
    - pose proof (Z.mul_div_le m (2 ^ k1) Hp1). lia.
    - pose proof (Z.mul_succ_div_gt m (2 ^ k1) Hp1). lia. }
  assert (Hm1nn : 0 <= shr_m mrs1) by (rewrite Hm1; apply Z.div_pos; lia).
  assert (Hm1lt : shr_m mrs1 < 2 ^ (D - e1)).
  { assert (Hs : 2 ^ (D - e) = 2 ^ (D - e1) * 2 ^ k1).
    { rewrite <- pow2_split by lia. f_equal. lia. }
    rewrite Hs in Hm. nia. }
  (* the second shift *)
  assert (Hm2nn : 0 <= m2) by lia.
  specialize (Hfl2 Hm2nn).
  assert (Hdm2 : Zdigits2 m2 <= D - e1 + 1).
  { apply Zdigits2_le_of_lt_pow; [lia |]. split; [lia |].
    rewrite pow2_split by lia. change (2 ^ 1) with 2. lia. }
  assert (Hk2 : 0 <= k2) by (subst k2; lia).
  assert (He2le : e1 <= e2 <= D - 52).
  { subst e2 k2 n2. rewrite fexp64_eq. lia. }
  assert (Hp2 : 0 < 2 ^ k2) by (apply pow2_pos; lia).
  assert (Hdiv2 : shr_m mrs2 * 2 ^ k2 <= m2 < (shr_m mrs2 + 1) * 2 ^ k2).
  { rewrite Hfl2. split.
    - pose proof (Z.mul_div_le m2 (2 ^ k2) Hp2). lia.
    - pose proof (Z.mul_succ_div_gt m2 (2 ^ k2) Hp2). lia. }
  assert (Hm3nn : 0 <= shr_m mrs2) by (rewrite Hfl2; apply Z.div_pos; lia).
  (* the scales *)
  set (P := 2 ^ (e + 1074)).
  set (P1 := 2 ^ (e1 + 1074)).
  set (P2 := 2 ^ (e2 + 1074)).
  assert (HP : 0 < P) by (apply pow2_pos; lia).
  assert (HP1 : P1 = 2 ^ k1 * P).
  { subst P1 P. rewrite <- pow2_split by lia. f_equal. lia. }
  assert (HP2 : P2 = 2 ^ k2 * P1).
  { subst P2 P1. rewrite <- pow2_split by lia. f_equal. lia. }
  assert (HP1pos : 0 < P1) by (apply pow2_pos; lia).
  assert (HPD : P2 <= 2 ^ (D + 1022)).
  { subst P2. apply Z.pow_le_mono_r; lia. }
  assert (HP1D : P1 <= 2 ^ (D + 1022)).
  { subst P1. apply Z.pow_le_mono_r; lia. }
  assert (Hval : m * P - 2 ^ (D + 1022) <= shr_m mrs2 * P2 <= m * P + 2 ^ (D + 1022)).
  { split.
    - (* (m3 + 1) * 2^k2 > m2 >= m1, and (m1 + 1) * 2^k1 > m *)
      assert (m * P < (shr_m mrs1 + 1) * P1) by (rewrite HP1; nia).
      assert (shr_m mrs1 * P1 < (shr_m mrs2 + 1) * P2) by (rewrite HP2; nia).
      nia.
    - assert (shr_m mrs2 * P2 <= m2 * P1) by (rewrite HP2; nia).
      assert (shr_m mrs1 * P1 <= m * P) by (rewrite HP1; nia).
      nia. }
  destruct (shr_m mrs2) as [| m3 | m3] eqn:Hm3; [| | lia].
  - split; [left; reflexivity |]. cbn [scaled]. lia.
  - replace (e2 <=? 1024 - 53) with true by (symmetry; apply Z.leb_le; lia).
    split.
    + right. exists m3, e2. split; [reflexivity | lia].
    + cbn [scaled]. fold P2. lia.
Qed.

Lemma at_most_scaled x B :
  at_most x B -> exponent_within x (-1074) 0 -> 0 <= B -> 0 <= scaled x <= B * 2 ^ 1074.
Proof.
  intros [-> | (m & e & -> & He & Hm)] Hexp HB; [cbn; lia |].
  destruct Hexp as [Hz | (m' & e' & Heq & Hlo)]; [discriminate |].
  injection Heq as <- <-. cbn [scaled].
  assert (Hs : 2 ^ 1074 = 2 ^ (- e) * 2 ^ (e + 1074)).
  { rewrite <- pow2_split by lia. f_equal. lia. }
  assert (0 < 2 ^ (e + 1074)) by (apply pow2_pos; lia).
  rewrite Hs. split; [lia |]. nia.
Qed.

Lemma exponent_within_weaken x lo hi lo' hi' :
  exponent_within x lo hi -> lo' <= lo -> hi <= hi' -> exponent_within x lo' hi'.
Proof.
  intros [-> | (m & e & -> & He)] Hlo Hhi; [left; reflexivity |].
  right. exists m, e. split; [reflexivity | lia].
Qed.

Lemma div_near (c t : Z) :
  0 < c <= t ->
  let q := Number.div (Number.of_Z c) (Number.of_Z t) in
  exponent_within q (-1074) (-51) /\
  c * 2 ^ 1074 - t * (2 ^ 1023 + 2 ^ 1021) <= scaled q * t <= c * 2 ^ 1074 + t * 2 ^ 1023.
Proof.
  intros [Hc Hct] q. subst q.
  destruct t as [| t' | t']; try lia.
  destruct c as [| c' | c']; try lia.
  cbn [Number.of_Z]. unfold Number.div. cbn [SFdiv xorb]. unfold SFdiv_core_binary.
  fold (fexp64 (Zdigits2 (Z.pos c') + 0 - (Zdigits2 (Z.pos t') + 0))).
  set (e' := Z.min (fexp64 (Zdigits2 (Z.pos c') + 0 - (Zdigits2 (Z.pos t') + 0))) (0 - 0)).
  assert (Hd : Zdigits2 (Z.pos c') <= Zdigits2 (Z.pos t')) by (apply Zdigits2_mono; lia).
  assert (He' : -1074 <= e' <= -53) by (subst e'; rewrite fexp64_eq; lia).
  replace (0 - 0 - e') with (- e') by lia.
  destruct (- e') as [| s | s] eqn:Hs; try lia.
  rewrite Z.shiftl_mul_pow2 by lia.
  pose proof (Z_div_mod (Z.pos c' * 2 ^ Z.pos s) (Z.pos t') ltac:(lia)) as Hdm.
  destruct (Z.div_eucl (Z.pos c' * 2 ^ Z.pos s) (Z.pos t')) as [q' r].
  destruct Hdm as [Heq Hr].
  assert (Hpow : 0 < 2 ^ Z.pos s) by (apply pow2_pos; lia).
  assert (Hq'nn : 0 <= q') by nia.
  assert (Hq'le : q' <= 2 ^ Z.pos s) by nia.
  destruct (binary_round_aux_near q' e' (new_location (Z.pos t') r) 1)
    as [Hexp Hval]; [lia | lia | |].
  { split; [exact Hq'nn |]. replace (1 - e') with (Z.pos s + 1) by lia.
    rewrite pow2_split by lia. change (2 ^ 1) with 2. lia. }
  split; [eapply exponent_within_weaken; [exact Hexp | lia | lia] |].
  change (1 + 1022) with 1023 in Hval.
  set (V := scaled (binary_round_aux 53 1024 false q' e'
                      (new_location (Z.pos t') r))) in *.
  set (P' := 2 ^ (e' + 1074)) in *.
  assert (HP' : 0 < P') by (apply pow2_pos; lia).
  assert (HP'le : P' <= 2 ^ 1021) by (apply Z.pow_le_mono_r; lia).
  assert (Hsplit : 2 ^ 1074 = 2 ^ Z.pos s * P').
  { subst P'. rewrite <- pow2_split by lia. f_equal. lia. }
  rewrite Hsplit.
  assert (H1 : q' * Z.pos t' * P' <= Z.pos c' * (2 ^ Z.pos s * P')) by nia.
  assert (H2 : Z.pos c' * (2 ^ Z.pos s * P') < (q' + 1) * Z.pos t' * P') by nia.
  assert (H3 : Z.pos t' * P' <= Z.pos t' * 2 ^ 1021) by nia.
  assert (H4 : 0 < 2 ^ 1023) by (apply pow2_pos; lia).
  split; nia.
Qed.

Lemma mul_100_near (x : Number.t) (D : Z) :
  exponent_within x (-1074) (D - 53) -> -1021 <= D <= 1000 ->
  100 * scaled x < 2 ^ (D + 1074) ->
  let y := Number.mul x (Number.of_Z 100) in
  exponent_within y (-1074) (D - 52) /\
  100 * scaled x - 2 ^ (D + 1022) <= scaled y <= 100 * scaled x + 2 ^ (D + 1022).
Proof.
  intros [-> | (m & e & -> & He)] HD Hval y; subst y.
  { split; [left; reflexivity |]. cbn [scaled Number.mul Number.of_Z SFmul].
    unfold Number.mul. cbn [SFmul scaled].
    assert (0 < 2 ^ (D + 1022)) by (apply pow2_pos; lia). lia. }
  unfold Number.mul. cbn [Number.of_Z SFmul xorb]. cbn [scaled] in Hval |- *.
  rewrite Z.add_0_r, Pos2Z.inj_mul.
  assert (HP : 0 < 2 ^ (e + 1074)) by (apply pow2_pos; lia).
  destruct (binary_round_aux_near (Z.pos m * 100) e loc_Exact D) as [Hexp Hnear];
    [lia | lia | |].
  { split; [lia |].
    assert (Hs : 2 ^ (D + 1074) = 2 ^ (D - e) * 2 ^ (e + 1074)).
    { rewrite <- pow2_split by lia. f_equal. lia. }
    rewrite Hs in Hval. nia. }
  split; [eapply exponent_within_weaken; [exact Hexp | lia | lia] |].
  lia.
Qed.

Lemma Math_round_near (z : Number.t) :
  exponent_within z (-1074) (-1) ->
  exists k,
    Number.Math_round z = Number.of_Z k /\ 0 <= k /\
    2 * k * 2 ^ 1074 <= 2 * scaled z + 2 ^ 1074 < 2 * (k + 1) * 2 ^ 1074.
Proof.
  assert (HP : 0 < 2 ^ 1074) by (apply pow2_pos; lia).
  intros [-> | (m & e & -> & He)].
  { exists 0. split; [reflexivity |]. cbn [scaled]. lia. }
  destruct e as [| p | p]; try lia.
  cbn [Number.Math_round scaled]. rewrite Z.pow_pos_fold.
  set (n := 2 ^ Z.pos p).
  assert (Hn : 0 < n) by (apply pow2_pos; lia).
  set (k := (2 * Z.pos m + n) / (2 * n)).
  assert (Hk : 0 <= k) by (apply Z.div_pos; lia).
  assert (Hdiv : 2 * n * k <= 2 * Z.pos m + n < 2 * n * (k + 1)).
  { subst k. split.
    - apply Z.mul_div_le. lia.
    - pose proof (Z.mul_succ_div_gt (2 * Z.pos m + n) (2 * n) ltac:(lia)). lia. }
  exists k. split; [destruct k; reflexivity |]. split; [exact Hk |].
  set (Q := 2 ^ (Z.neg p + 1074)).
  assert (HQ : 0 < Q) by (apply pow2_pos; lia).
  assert (Hs : 2 ^ 1074 = n * Q).
  { subst n Q. rewrite <- pow2_split by lia. f_equal. lia. }
  rewrite Hs. split; nia.
Qed.

Lemma of_Z_inj a b : Number.of_Z a = Number.of_Z b -> a = b.
Proof.
  destruct a, b; cbn; intros H; try discriminate; try reflexivity;
    injection H as ->; reflexivity.
Qed.

(** The percentage of [part] lines out of [whole] is the hundredths
    [k / 100] for an integer [k] that differs from the exact hundredths
    [10000 * part / whole] by less than 1. *)
Lemma round_percent_accurate (part whole : Z) :
  0 <= part <= whole -> 0 < whole ->
  exists k,
    round_percent (Number.of_Z part) (Number.of_Z whole)
      = Number.div (Number.of_Z k) (Number.of_Z 100) /\
    0 <= k <= 10000 /\
    2 ^ 36 * Z.abs (k * whole - 10000 * part) <= (2 ^ 35 + 1) * whole.
Proof.
  intros [Hp Hpw] Hw.
  change (2 ^ 36) with 68719476736. change (2 ^ 35 + 1) with 34359738369.
  destruct (Z.eq_dec part 0) as [-> | Hne].
  { exists 0. split; [| cbn; lia]. destruct whole; try lia. reflexivity. }
  unfold round_percent.
  pose proof (div_at_most_one part whole ltac:(lia) Hw) as Hq1.
  destruct (div_near part whole ltac:(lia)) as [Hqe Hqv].
  set (q := Number.div (Number.of_Z part) (Number.of_Z whole)) in *.
  pose proof (at_most_scaled q 1 Hq1
                (exponent_within_weaken _ _ _ (-1074) 0 Hqe ltac:(lia) ltac:(lia))
                ltac:(lia)) as Hqs.
  pose proof (mul_100_at_most q 1 ltac:(lia) ltac:(cbn; lia) Hq1) as Hy1.
  assert (H1074 : 0 < 2 ^ 1074) by (apply pow2_pos; lia).
  assert (Hp7 : 2 ^ (7 + 1074) = 128 * 2 ^ 1074).
  { rewrite pow2_split by lia. reflexivity. }
  assert (Hp14 : 2 ^ (14 + 1074) = 16384 * 2 ^ 1074).
  { rewrite pow2_split by lia. reflexivity. }
  destruct (mul_100_near q 7) as [Hye Hyv];
    [eapply exponent_within_weaken; [exact Hqe | lia | lia] | lia | rewrite Hp7; lia |].
  set (y := Number.mul q (Number.of_Z 100)) in *.
  pose proof (at_most_scaled y (100 * 1) Hy1
                (exponent_within_weaken _ _ _ (-1074) 0 Hye ltac:(lia) ltac:(lia))
                ltac:(lia)) as Hys.
  pose proof (mul_100_at_most y (100 * 1) ltac:(lia) ltac:(cbn; lia) Hy1) as Hz1.
  destruct (mul_100_near y 14) as [Hze Hzv];
    [eapply exponent_within_weaken; [exact Hye | lia | lia] | lia | rewrite Hp14; lia |].
  set (z := Number.mul y (Number.of_Z 100)) in *.
  destruct (round_at_most_integer z (100 * (100 * 1)) ltac:(lia) Hz1) as (r & Hr & Hrz).
  destruct (Math_round_near z) as (k & Hk & Hk0 & Hkv);
    [eapply exponent_within_weaken; [exact Hze | lia | lia] |].
  assert (Hkr : k = r).
  { rewrite Hrz in Hk. symmetry. apply of_Z_inj. exact Hk. }
  subst r. exists k. split; [rewrite Hk; reflexivity |]. split; [lia |].
  (* everything in units of a = 2^1021 *)
  set (a := 2 ^ 1021) in *.
  assert (Ha : 0 < a) by (apply pow2_pos; lia).
  assert (E1023 : 2 ^ 1023 = 4 * a) by (subst a; vm_compute; reflexivity).
  assert (E1029 : 2 ^ (7 + 1022) = 256 * a) by (subst a; vm_compute; reflexivity).
  assert (E1036 : 2 ^ (14 + 1022) = 32768 * a) by (subst a; vm_compute; reflexivity).
  assert (E1074 : 2 ^ 1074 = 9007199254740992 * a) by (subst a; vm_compute; reflexivity).
  rewrite E1023 in Hqv. rewrite E1029 in Hyv. rewrite E1036 in Hzv.
  rewrite E1074 in Hqv, Hkv.
  clear Hqs Hys Hp7 Hp14 H1074 E1023 E1029 E1036 E1074 Hq1 Hy1 Hz1 Hqe Hye Hze Hk Hrz.
  set (Vq := scaled q) in *. set (Vy := scaled y) in *. set (Vz := scaled z) in *.
  clearbody Vq Vy Vz a. clear q y z.
  assert (Hy' : 100 * Vq * whole - 256 * a * whole <= Vy * whole
                <= 100 * Vq * whole + 256 * a * whole) by nia.
  assert (Hz' : 100 * Vy * whole - 32768 * a * whole <= Vz * whole
                <= 100 * Vy * whole + 32768 * a * whole) by nia.
  assert (Hk' : 2 * k * 9007199254740992 * a * whole
                <= 2 * Vz * whole + 9007199254740992 * a * whole
                < 2 * (k + 1) * 9007199254740992 * a * whole) by nia.
  set (W := a * whole) in *.
  assert (HW : 0 < W) by nia.
  assert (Hq' : part * 9007199254740992 * a - 5 * W <= Vq * whole
                <= part * 9007199254740992 * a + 4 * W) by (subst W; nia).
  assert (Hup : a * (18014398509481984 * (k * whole - 10000 * part))
                <= a * (9007199254937728 * whole)) by (subst W; lia).
  assert (Hlo : a * (18014398509481984 * (10000 * part - k * whole))
                <= a * (9007199254957728 * whole)) by (subst W; lia).
  apply Z.mul_le_mono_pos_l in Hup; [| exact Ha].
  apply Z.mul_le_mono_pos_l in Hlo; [| exact Ha].
  lia.
Qed.

Section Accuracy.

Context {RT : NodeRuntime}.
Variable config : Config.

(** Property X12.  In every response, the percentage of a class whose
    counts are non-negative integers with a positive sum below 2^53 is
    the binary64 quotient [k / 100] for an integer [k] between 0 and
    10000 that lies within 1/2 + 2^-36 of the exact value
    [10000 * covered / total].  So [k] is the exact value rounded to the
    nearest integer, except possibly when the exact value is within
    2^-36 of a half-integer, and [k] is the exact value whenever that is
    an integer.  The same holds of the overall percentage and the totals
    of a successful response. *)
Theorem percentages_are_accurate orgAlias s response s' :
  getCoverageData config orgAlias s = (Normal response, s') ->
  (forall name e c u,
      Response.coverage response !! name = Some e ->
      CoverageEntry.covered e = Number.canonical c ->
      CoverageEntry.uncovered e = Number.canonical u ->
      0 <= c -> 0 <= u -> 0 < c + u < 2 ^ 53 ->
      exists k,
        CoverageEntry.percentage e = Number.div (Number.of_Z k) (Number.of_Z 100) /\
        0 <= k <= 10000 /\
        2 ^ 36 * Z.abs (k * (c + u) - 10000 * c) <= (2 ^ 35 + 1) * (c + u)) /\
  (forall C U,
      Response.success response = true ->
      Response.totalCovered response = Number.canonical C ->
      Response.totalUncovered response = Number.canonical U ->
      0 <= C -> 0 <= U -> 0 < C + U < 2 ^ 53 ->
      exists k,
        Response.overallPercentage response
          = Number.div (Number.of_Z k) (Number.of_Z 100) /\
        0 <= k <= 10000 /\
        2 ^ 36 * Z.abs (k * (C + U) - 10000 * C) <= (2 ^ 35 + 1) * (C + U)).
Proof.
  intros Hrun.
  destruct (getCoverageData_returns _ _ _ _ _ Hrun)
    as (cmd & probe & s1 & result & _ & _ & _ & ->).
  split.
  - intros name e c u Hlookup Hc Hu Hc0 Hu0 Hsum.
    destruct (response_of_well_formed _ _ _ _ Hlookup) as [Htotal Hpct].
    rewrite Hpct, Htotal, Hc, Hu, <- round_percent_round2.
    rewrite add_canonical, canonical_positive, round_percent_canonical by lia.
    apply round_percent_accurate; lia.
  - intros C U Hs HC HU HC0 HU0 Hsum.
    pose proof (response_of_overall (CommandResult.success probe) result) as Ho.
    cbv zeta in Ho. rewrite Ho, Hs, HC, HU.
    rewrite add_canonical, canonical_positive, round_percent_canonical by lia.
    apply round_percent_accurate; lia.
Qed.

End Accuracy.

(** ** Request handling *)

Section Requests.

Context {RT : NodeRuntime} {WRT : WebRuntime RT}.
Variable config : AppConfig.

Lemma split_nonempty sep s : JsString.split sep s <> [].
Proof.
  destruct s as [| c rest]; cbn [JsString.split]; [discriminate |].
  destruct (Ascii.eqb c sep); [discriminate |].
  destruct (JsString.split sep rest); discriminate.
Qed.

Lemma split_first_segment s :
  head (JsString.split "/" s) = Some (first_segment s).
Proof.
  induction s as [| c rest IH]; [reflexivity |].
  cbn [JsString.split first_segment].
  destruct (Ascii.eqb c "/"); [reflexivity |].
  destruct (JsString.split "/" rest) as [| w ws]; [discriminate |].
  cbn in IH. injection IH as ->. reflexivity.
Qed.

Lemma split_coverage rest :
  JsString.split "/" ("/coverage/" +:+ rest) !! 2%nat = Some (first_segment rest).
Proof.
  pose proof (split_first_segment rest) as H.
  change ("/coverage/" +:+ rest)
    with (String "/" (String "c" (String "o" (String "v" (String "e" (String "r"
            (String "a" (String "g" (String "e" (String "/" rest)))))))))).
  cbn [JsString.split Ascii.eqb Bool.eqb].
  destruct (JsString.split "/" rest) as [| w ws]; [discriminate |].
  cbn in H. injection H as ->. reflexivity.
Qed.

Lemma split_api_coverage rest :
  JsString.split "/" ("/api/coverage/" +:+ rest) !! 3%nat = Some (first_segment rest).
Proof.
  pose proof (split_first_segment rest) as H.
  change ("/api/coverage/" +:+ rest)
    with (String "/" (String "a" (String "p" (String "i" (String "/" (String "c"
            (String "o" (String "v" (String "e" (String "r"
            (String "a" (String "g" (String "e" (String "/" rest)))))))))))))).
  cbn [JsString.split Ascii.eqb Bool.eqb].
  destruct (JsString.split "/" rest) as [| w ws]; [discriminate |].
  cbn in H. injection H as ->. reflexivity.
Qed.

Lemma is_reply_nil : is_reply [].
Proof. left. reflexivity. Qed.

Lemma replies_ret {A} (a : A) : replies_once (Web.ret a).
Proof.
  intros x c x' H. injection H as <- <-. exists [].
  split; [symmetry; apply app_nil_r |]. split; [apply is_reply_nil |].
  split; [reflexivity | discriminate].
Qed.

Lemma replies_throw {A} (e : JsError) : replies_once (@Web.throw RT A e).
Proof.
  intros x c x' H. injection H as <- <-. exists [].
  split; [symmetry; apply app_nil_r |]. split; [apply is_reply_nil |].
  split; [reflexivity | discriminate].
Qed.

Lemma replies_bind_silent {A B} (m : Web.Handler A) (k : A -> Web.Handler B) :
  silent m -> (forall a, replies_once (k a)) -> replies_once (Web.bind m k).
Proof.
  intros Hm Hk x c x' H. unfold Web.bind in H.
  destruct (m x) as [c1 x1] eqn:Hmx.
  destruct (Hm _ _ _ Hmx) as [Hres Hexit].
  destruct c1 as [a | e | code |].
  - destruct (Hk a _ _ _ H) as (calls & Hc & Hrest).
    exists calls. rewrite <- Hres. split; assumption.
  - injection H as <- <-. exists [].
    split; [rewrite Hres; symmetry; apply app_nil_r |]. split; [apply is_reply_nil |].
    split; [reflexivity | discriminate].
  - contradiction (Hexit code). reflexivity.
  - injection H as <- <-. exists [].
    split; [rewrite Hres; symmetry; apply app_nil_r |]. split; [apply is_reply_nil |].
    split; [reflexivity | discriminate].
Qed.

Lemma replies_write statusCode contentType body :
  statusCode = 200 \/ statusCode = 404 \/ statusCode = 500 ->
  replies_once
    (do_await _u := Web.on_res (res_writeHead statusCode contentType) in
     Web.on_res (res_end body)).
Proof.
  intros Hs x c x' H. injection H as <- <-.
  exists [res_writeHead statusCode contentType; res_end body]. cbn.
  split; [rewrite <- app_assoc; reflexivity |].
  split; [right; eauto 6 |]. split; discriminate.
Qed.

Lemma replies_detached (m : Web.Handler unit) :
  replies_once m -> replies_once (Web.detached m).
Proof.
  intros Hm x c x' H. unfold Web.detached in H.
  destruct (m x) as [c1 x1] eqn:Hmx.
  destruct (Hm _ _ _ Hmx) as (calls & Hc & Hr & Ht & He).
  destruct c1 as [a | e | code |]; injection H as <- <-; exists calls;
    (split; [exact Hc |]); (split; [exact Hr |]); split; try discriminate.
  - intros code H. injection H as <-. reflexivity.
  - exact He.
Qed.

Lemma detached_not_thrown (m : Web.Handler unit) x e x' :
  Web.detached m x <> (Throw e, x').
Proof.
  unfold Web.detached. destruct (m x) as [[a | e' | code |] x1]; discriminate.
Qed.

Lemma replies_try_catch {A} (m : Web.Handler A) (h : JsError -> Web.Handler A) :
  replies_once m -> (forall e, replies_once (h e)) -> replies_once (Web.try_catch m h).
Proof.
  intros Hm Hh x c x' H. unfold Web.try_catch in H.
  destruct (m x) as [c1 x1] eqn:Hmx.
  destruct (Hm _ _ _ Hmx) as (calls & Hc & Hr & Ht & He).
  destruct c1 as [a | e | code |];
    try (injection H as <- <-; exists calls; repeat split; assumption).
  destruct (Hh e _ _ _ H) as (calls' & Hc' & Hrest).
  exists calls'. rewrite (Ht e eq_refl), app_nil_r in Hc. rewrite <- Hc.
  split; assumption.
Qed.

Lemma silent_render name data : silent (render name data).
Proof.
  intros x c x' H. unfold render in H.
  destruct (templateEngine_render name data (world (Web.service x))) as [outcome w].
  injection H as <- <-. split; [reflexivity |].
  destruct outcome as [[reason | html] |]; discriminate.
Qed.

Lemma silent_readFile fullPath : silent (readFile fullPath).
Proof.
  intros x c x' H. unfold readFile in H.
  destruct (fs_readFile fullPath (world (Web.service x))) as [r w].
  injection H as <- <-. split; [reflexivity | discriminate].
Qed.

Lemma service_never_exits_orgs s code s' :
  getAvailableOrgs (salesforce config) s <> (Exit code, s').
Proof.
  intros H.
  destruct (getAvailableOrgs_outcomes _ _ _ _ H)
    as [(_ & Hc & _) | (cmd & _ & [Hc | [[v Hc] | (e & Hc & _)]])]; discriminate.
Qed.

Lemma service_never_exits_info orgAlias s code s' :
  getOrgInfo (salesforce config) orgAlias s <> (Exit code, s').
Proof.
  intros H.
  destruct (getOrgInfo_outcomes _ _ _ _ _ H)
    as [(_ & Hc & _) | (cmd & _ & [Hc | [[v Hc] | (e & Hc & _)]])]; discriminate.
Qed.

Lemma service_never_exits_coverage orgAlias s code s' :
  getCoverageData (salesforce config) orgAlias s <> (Exit code, s').
Proof.
  intros H.
  destruct (getCoverageData_outcomes _ _ _ _ _ H)
    as [(_ & Hc & _) | (cmd & _ & [Hc | [[v Hc] | (e & Hc & _)]])]; discriminate.
Qed.

Lemma silent_call {A} (m : Async A) :
  (forall s code s', m s <> (Exit code, s')) -> silent (Web.call m).
Proof.
  intros Hm x c x' H. unfold Web.call in H.
  destruct (m (Web.service x)) as [c1 s1] eqn:Hms.
  injection H as <- <-. split; [reflexivity |].
  intros code ->. exact (Hm _ _ _ Hms).
Qed.

Lemma replies_sendOrgNotFound orgAlias : replies_once (sendOrgNotFound orgAlias).
Proof.
  apply replies_detached. apply replies_bind_silent; [apply silent_render |].
  intros html. apply replies_write. tauto.
Qed.

Lemma replies_send404 : replies_once send404.
Proof.
  apply replies_detached. apply replies_bind_silent; [apply silent_render |].
  intros html. apply replies_write. tauto.
Qed.

Lemma replies_sendError message : replies_once (sendError message).
Proof.
  apply replies_detached. apply replies_bind_silent; [apply silent_render |].
  intros html. apply replies_write. tauto.
Qed.

Lemma replies_handleHomePage : replies_once (handleHomePage config).
Proof.
  apply replies_bind_silent; [apply silent_call, service_never_exits_orgs |].
  intros orgs. apply replies_bind_silent; [apply silent_render |].
  intros html. apply replies_write. tauto.
Qed.

Lemma replies_handleCoveragePage orgAlias : replies_once (handleCoveragePage config orgAlias).
Proof.
  apply replies_bind_silent; [apply silent_call, service_never_exits_info |].
  intros [info |]; [| apply replies_sendOrgNotFound].
  apply replies_bind_silent; [apply silent_call, service_never_exits_coverage |].
  intros response. apply replies_bind_silent; [apply silent_render |].
  intros html. apply replies_write. tauto.
Qed.

Lemma replies_handleAPIOrgs : replies_once (handleAPIOrgs config).
Proof.
  apply replies_bind_silent; [apply silent_call, service_never_exits_orgs |].
  intros orgs. apply replies_write. tauto.
Qed.

Lemma replies_handleAPICoverage orgAlias : replies_once (handleAPICoverage config orgAlias).
Proof.
  apply replies_bind_silent; [apply silent_call, service_never_exits_coverage |].
  intros response. apply replies_write. tauto.
Qed.

Lemma replies_serveStaticFile filePath contentType :
  replies_once (serveStaticFile filePath contentType).
Proof.
  apply replies_bind_silent; [apply silent_readFile |].
  intros [err | data]; [apply replies_send404 | apply replies_write; tauto].
Qed.

Lemma silent_decode_segment pathname i : silent (decode_segment pathname i).
Proof.
  intros x c x' H. unfold decode_segment in H.
  destruct (decodeURIComponent _) as [e | text]; injection H as <- <-;
    (split; [reflexivity | discriminate]).
Qed.

Lemma replies_routes pathname :
  replies_once
    (if bool_decide (pathname = Some "/") then handleHomePage config
     else if bool_decide (pathname = Some "/css/styles.css") then
       serveStaticFile "public/css/styles.css" "text/css"
     else if bool_decide (pathname = Some "/js/app.js") then
       serveStaticFile "public/js/app.js" "application/javascript"
     else
       match pathname with
       | None => Web.throw TypeError
       | Some pathname =>
           if startsWith pathname "/coverage/" then
             do_await orgAlias := decode_segment pathname 2 in
             handleCoveragePage config orgAlias
           else if bool_decide (pathname = "/api/orgs") then handleAPIOrgs config
           else if startsWith pathname "/api/coverage/" then
             do_await orgAlias := decode_segment pathname 3 in
             handleAPICoverage config orgAlias
           else send404
       end).
Proof.
  destruct (bool_decide _); [apply replies_handleHomePage |].
  destruct (bool_decide _); [apply replies_serveStaticFile |].
  destruct (bool_decide _); [apply replies_serveStaticFile |].
  destruct pathname as [p |]; [| apply replies_throw].
  destruct (startsWith p "/coverage/").
  { apply replies_bind_silent; [apply silent_decode_segment |].
    intros orgAlias. apply replies_handleCoveragePage. }
  destruct (bool_decide _); [apply replies_handleAPIOrgs |].
  destruct (startsWith p "/api/coverage/"); [| apply replies_send404].
  apply replies_bind_silent; [apply silent_decode_segment |].
  intros orgAlias. apply replies_handleAPICoverage.
Qed.

Lemma setSecurityHeaders_runs x :
  setSecurityHeaders config x
  = (Normal tt, {| Web.service := Web.service x;
                   Web.res := Web.res x ++ security_headers config |}).
Proof.
  unfold setSecurityHeaders, Web.bind, Web.on_res, security_headers. cbn.
  rewrite <- !app_assoc. reflexivity.
Qed.

(** Once [url.parse] has returned, [handleRequest] is the [try] block
    of the routes run after the security headers. *)
Lemma handleRequest_routes req_url pathname x :
  url_parse_pathname req_url = inr pathname ->
  handleRequest config req_url x =
  Web.try_catch
    (if bool_decide (pathname = Some "/") then handleHomePage config
     else if bool_decide (pathname = Some "/css/styles.css") then
       serveStaticFile "public/css/styles.css" "text/css"
     else if bool_decide (pathname = Some "/js/app.js") then
       serveStaticFile "public/js/app.js" "application/javascript"
     else
       match pathname with
       | None => Web.throw TypeError
       | Some pathname =>
           if startsWith pathname "/coverage/" then
             do_await orgAlias := decode_segment pathname 2 in
             handleCoveragePage config orgAlias
           else if bool_decide (pathname = "/api/orgs") then handleAPIOrgs config
           else if startsWith pathname "/api/coverage/" then
             do_await orgAlias := decode_segment pathname 3 in
             handleAPICoverage config orgAlias
           else send404
       end)
    (fun error => sendError "Internal server error")
    {| Web.service := Web.service x;
       Web.res := Web.res x ++ security_headers config |}.
Proof.
  intros Hparse. unfold handleRequest. rewrite Hparse.
  unfold Web.bind at 1. rewrite setSecurityHeaders_runs. reflexivity.
Qed.

(** Property X13.  [handleRequest] begins by parsing the URL, outside
    its [try] block.  When [url.parse] throws, [handleRequest] rejects
    with what was thrown: no header is set and nothing is sent.  When
    [url.parse] returns, then whatever the runtime does, [handleRequest]
    sets the seven security headers and answers at most once: the only
    further calls on the response are one [writeHead] with status 200,
    404 or 500 followed by one [end], or none at all.  It does not
    reject then, and when it ends the process the status is 1. *)
Theorem handleRequest_replies_once req_url x :
  match url_parse_pathname req_url with
  | inl e => handleRequest config req_url x = (Throw e, x)
  | inr _ =>
      exists reply,
        Web.res (snd (handleRequest config req_url x))
          = Web.res x ++ security_headers config ++ reply /\
        is_reply reply /\
        (forall e, fst (handleRequest config req_url x) <> Throw e) /\
        (forall code, fst (handleRequest config req_url x) = Exit code -> code = 1)
  end.
Proof.
  destruct (url_parse_pathname req_url) as [e | pathname] eqn:Hparse.
  { unfold handleRequest. rewrite Hparse. reflexivity. }
  destruct (handleRequest config req_url x) as [c x'] eqn:Hrun. cbn [fst snd].
  rewrite (handleRequest_routes _ _ _ Hparse) in Hrun.
  match type of Hrun with
  | Web.try_catch ?b ?h ?x1 = _ =>
      assert (Hroutes : replies_once (Web.try_catch b h))
  end.
  { apply replies_try_catch; [apply replies_routes | intros; apply replies_sendError]. }
  destruct (Hroutes _ _ _ Hrun) as (calls & Hc & Hr & Ht & He).
  exists calls. cbn in Hc. rewrite Hc, <- app_assoc.
  split; [reflexivity |]. split; [exact Hr |]. split; [| exact He].
  intros e ->. unfold Web.try_catch in Hrun.
  match type of Hrun with
  | context [match ?b with _ => _ end] => destruct b as [[a | e' | code |] x1] eqn:Hbody
  end; try discriminate.
  exact (detached_not_thrown _ _ _ _ Hrun).
Qed.

Lemma prefix_empty s : String.prefix EmptyString s = true.
Proof. destruct s; reflexivity. Qed.

Lemma route_coverage req_url rest x :
  url_parse_pathname req_url = inr (Some ("/coverage/" +:+ rest)) ->
  handleRequest config req_url x =
  Web.try_catch
    (do_await orgAlias := decode_segment ("/coverage/" +:+ rest) 2 in
     handleCoveragePage config orgAlias)
    (fun error => sendError "Internal server error")
    {| Web.service := Web.service x;
       Web.res := Web.res x ++ security_headers config |}.
Proof.
  intros Hpath. erewrite handleRequest_routes by exact Hpath.
  rewrite !bool_decide_eq_false_2 by discriminate.
  change (startsWith ("/coverage/" +:+ rest) "/coverage/")
    with (String.prefix EmptyString rest).
  rewrite prefix_empty. reflexivity.
Qed.

Lemma route_api_coverage req_url rest x :
  url_parse_pathname req_url = inr (Some ("/api/coverage/" +:+ rest)) ->
  handleRequest config req_url x =
  Web.try_catch
    (do_await orgAlias := decode_segment ("/api/coverage/" +:+ rest) 3 in
     handleAPICoverage config orgAlias)
    (fun error => sendError "Internal server error")
    {| Web.service := Web.service x;
       Web.res := Web.res x ++ security_headers config |}.
Proof.
  intros Hpath. erewrite handleRequest_routes by exact Hpath.
  rewrite !bool_decide_eq_false_2 by discriminate.
  change (startsWith ("/api/coverage/" +:+ rest) "/coverage/") with false.
  cbv iota.
  change (startsWith ("/api/coverage/" +:+ rest) "/api/coverage/")
    with (String.prefix EmptyString rest).
  rewrite prefix_empty. reflexivity.
Qed.

Lemma decode_segment_coverage rest :
  decode_segment ("/coverage/" +:+ rest) 2
  = match decodeURIComponent (first_segment rest) with
    | inl e => Web.throw e
    | inr text => Web.ret text
    end.
Proof. unfold decode_segment. rewrite split_coverage. reflexivity. Qed.

Lemma decode_segment_api_coverage rest :
  decode_segment ("/api/coverage/" +:+ rest) 3
  = match decodeURIComponent (first_segment rest) with
    | inl e => Web.throw e
    | inr text => Web.ret text
    end.
Proof. unfold decode_segment. rewrite split_api_coverage. reflexivity. Qed.

(** Property X14.  A request whose path starts with [/api/coverage/] is
    answered, once [getCoverageData] has returned, with status 200 and
    the JSON text of the response, for the org named by the decoded text
    between that prefix and the next slash; the status is 200 whether the
    response is a success or not. *)
Theorem api_coverage_status_200 req_url rest orgAlias x response s' :
  url_parse_pathname req_url = inr (Some ("/api/coverage/" +:+ rest)) ->
  decodeURIComponent (first_segment rest) = inr orgAlias ->
  getCoverageData (salesforce config) orgAlias (Web.service x) = (Normal response, s') ->
  handleRequest config req_url x
  = (Normal tt,
     {| Web.service := s';
        Web.res := Web.res x ++ security_headers config ++
                   [ res_writeHead 200 "application/json; charset=utf-8";
                     res_end (JSON_stringify_coverage response) ] |}).
Proof.
  intros Hpath Hdecode Hrun.
  rewrite (route_api_coverage _ _ _ Hpath), decode_segment_api_coverage, Hdecode.
  unfold Web.try_catch, Web.bind at 1, Web.ret, handleAPICoverage, Web.bind at 1, Web.call.
  cbn [Web.service Web.res]. rewrite Hrun. cbn. rewrite <- !app_assoc. reflexivity.
Qed.

Lemma getOrgInfo_spawned orgAlias s answer s1 :
  getOrgInfo (salesforce config) orgAlias s = (Normal answer, s1) ->
  exists cmd,
    sfCommand s = Some cmd /\
    spawned s1 = spawned s ++
      [spawn_call (salesforce config)
         (cmd ++ ["org"; "display"; "--target-org"; orgAlias; "--json"]) no_options].
Proof.
  intros H.
  destruct (getOrgInfo_outcomes _ _ _ _ _ H) as [(_ & Hc & _) | (cmd & Hcmd & _)];
    [discriminate |].
  exists cmd. split; [exact Hcmd |].
  unfold getOrgInfo, bind in H.
  rewrite (runSFCommand_initialized _ _ _ cmd Hcmd) in H.
  destruct (runCommand _ _ _ s) as [c2 s2] eqn:Hrun.
  destruct (runCommand_state _ _ _ _ _ _ Hrun) as (Hs & _).
  destruct c2 as [r | e | code |]; try discriminate.
  destruct (negb _); [injection H as _ <-; exact Hs |].
  destruct (JSON_parse _) as [? | data]; [injection H as _ <-; exact Hs |].
  destruct (Json.result_ data); injection H as _ <-; exact Hs.
Qed.

(** Property X15.  A request for the coverage page of an org for which
    [getOrgInfo] returns [null] is answered with the error page and
    status 404, and [org display] is the only child spawned for it: no
    coverage query is run. *)
Theorem unknown_org_status_404 req_url rest orgAlias x s1 html w :
  url_parse_pathname req_url = inr (Some ("/coverage/" +:+ rest)) ->
  decodeURIComponent (first_segment rest) = inr orgAlias ->
  getOrgInfo (salesforce config) orgAlias (Web.service x) = (Normal None, s1) ->
  templateEngine_render "pages/error"
    (org_not_found_data "Organization Not Found" orgAlias) (world s1)
    = (Some (inr html), w) ->
  handleRequest config req_url x
  = (Normal tt,
     {| Web.service := in_world w s1;
        Web.res := Web.res x ++ security_headers config ++
                   [ res_writeHead 404 "text/html; charset=utf-8"; res_end html ] |}) /\
  exists cmd,
    sfCommand (Web.service x) = Some cmd /\
    spawned (in_world w s1) = spawned (Web.service x) ++
      [spawn_call (salesforce config)
         (cmd ++ ["org"; "display"; "--target-org"; orgAlias; "--json"]) no_options].
Proof.
  intros Hpath Hdecode Hinfo Hrender. split.
  - rewrite (route_coverage _ _ _ Hpath), decode_segment_coverage, Hdecode.
    unfold Web.try_catch, Web.bind at 1, Web.ret, handleCoveragePage, Web.bind at 1, Web.call.
    cbn [Web.service Web.res]. rewrite Hinfo.
    unfold sendOrgNotFound, Web.detached, Web.bind at 1, render.
    cbn [Web.service Web.res]. rewrite Hrender. cbn. rewrite <- !app_assoc. reflexivity.
  - exact (getOrgInfo_spawned _ _ _ _ Hinfo).
Qed.

(** Property X16.  When [decodeURIComponent] rejects the org segment
    of a coverage URL, no child is spawned and the request is answered
    with the error page and status 500; if the rendering of that page is
    rejected too, nothing is written and the process ends with status 1;
    if it never settles, nothing is written. *)
Theorem malformed_escape_status_500 req_url rest e x outcome w :
  url_parse_pathname req_url = inr (Some ("/coverage/" +:+ rest)) \/
  url_parse_pathname req_url = inr (Some ("/api/coverage/" +:+ rest)) ->
  decodeURIComponent (first_segment rest) = inl e ->
  templateEngine_render "pages/error"
    (error_data "Server Error" "Internal server error") (world (Web.service x))
    = (outcome, w) ->
  handleRequest config req_url x
  = (match outcome with
     | Some (inl reason) => Exit 1
     | _ => Normal tt
     end,
     {| Web.service := in_world w (Web.service x);
        Web.res := Web.res x ++ security_headers config ++
                   match outcome with
                   | Some (inr html) =>
                       [ res_writeHead 500 "text/html; charset=utf-8"; res_end html ]
                   | _ => []
                   end |}).
Proof.
  intros Hpath Hdecode Hrender.
  assert (H : handleRequest config req_url x =
              sendError "Internal server error"
                {| Web.service := Web.service x;
                   Web.res := Web.res x ++ security_headers config |}).
  { destruct Hpath as [Hpath | Hpath].
    - rewrite (route_coverage _ _ _ Hpath), decode_segment_coverage, Hdecode. reflexivity.
    - rewrite (route_api_coverage _ _ _ Hpath), decode_segment_api_coverage, Hdecode.
      reflexivity. }
  rewrite H. unfold sendError, Web.detached, Web.bind at 1, render.
  cbn [Web.service Web.res]. rewrite Hrender.
  destruct outcome as [[reason | html] |]; cbn; rewrite <- ?app_assoc, ?app_nil_r;
    reflexivity.
Qed.

(** Property X17.  When the [org list] child fails, [/api/orgs] still
    answers with status 200 and the JSON text of the empty list, and the
    home page is rendered with no org and sent with status 200: the
    failure of the CLI is not visible in the status. *)
Theorem org_list_failure_status_200 req_url x cmd result s1 :
  sfCommand (Web.service x) = Some cmd ->
  runCommand (salesforce config) (cmd ++ ["org"; "list"; "--json"]) no_options
    (Web.service x) = (Normal result, s1) ->
  CommandResult.success result = false ->
  (url_parse_pathname req_url = inr (Some "/api/orgs") ->
   handleRequest config req_url x
   = (Normal tt,
      {| Web.service := s1;
         Web.res := Web.res x ++ security_headers config ++
                    [ res_writeHead 200 "application/json; charset=utf-8";
                      res_end (JSON_stringify_orgs []) ] |})) /\
  (url_parse_pathname req_url = inr (Some "/") ->
   forall html w,
     templateEngine_render "pages/home" (home_data (app_name config) []) (world s1)
       = (Some (inr html), w) ->
     handleRequest config req_url x
     = (Normal tt,
        {| Web.service := in_world w s1;
           Web.res := Web.res x ++ security_headers config ++
                      [ res_writeHead 200 "text/html; charset=utf-8"; res_end html ] |})).
Proof.
  intros Hcmd Hrun Hfail.
  assert (Horgs : getAvailableOrgs (salesforce config) (Web.service x) = (Normal [], s1)).
  { rewrite (getAvailableOrgs_runs _ _ _ _ _ Hcmd Hrun), Hfail. reflexivity. }
  split.
  - intros Hpath. erewrite handleRequest_routes by exact Hpath.
    rewrite !bool_decide_eq_false_2 by discriminate.
    change (startsWith "/api/orgs" "/coverage/") with false. cbv iota.
    rewrite bool_decide_eq_true_2 by reflexivity.
    unfold Web.try_catch, handleAPIOrgs, Web.bind at 1, Web.call.
    cbn [Web.service Web.res]. rewrite Horgs. cbn. rewrite <- !app_assoc. reflexivity.
  - intros Hpath html w Hrender. erewrite handleRequest_routes by exact Hpath.
    rewrite bool_decide_eq_true_2 by reflexivity.
    unfold Web.try_catch, handleHomePage, Web.bind at 1, Web.call.
    cbn [Web.service Web.res]. rewrite Horgs.
    unfold Web.bind at 1, render. cbn [Web.service Web.res]. rewrite Hrender.
    cbn. rewrite <- !app_assoc. reflexivity.
Qed.

End Requests.

(** ** Further properties of the request handling and of the coverage map *)

Section MoreRequests.

Context {RT : NodeRuntime} {WRT : WebRuntime RT}.
Variable config : AppConfig.

(** What one of the three senders of an error page does, by the outcome
    of the rendering. *)
Lemma send404_runs x outcome w :
  templateEngine_render "pages/error"
    (error_data "404 - Page Not Found" "The requested page could not be found.")
    (world (Web.service x)) = (outcome, w) ->
  send404 x
  = (match outcome with
     | Some (inl reason) => Exit 1
     | _ => Normal tt
     end,
     {| Web.service := in_world w (Web.service x);
        Web.res := Web.res x ++
                   match outcome with
                   | Some (inr html) =>
                       [ res_writeHead 404 "text/html; charset=utf-8"; res_end html ]
                   | _ => []
                   end |}).
Proof.
  intros Hrender. unfold send404, Web.detached, Web.bind at 1, render.
  cbn [Web.service Web.res]. rewrite Hrender.
  destruct outcome as [[reason | html] |]; cbn; rewrite <- ?app_assoc, ?app_nil_r;
    reflexivity.
Qed.

Lemma sendError_runs message x outcome w :
  templateEngine_render "pages/error" (error_data "Server Error" message)
    (world (Web.service x)) = (outcome, w) ->
  sendError message x
  = (match outcome with
     | Some (inl reason) => Exit 1
     | _ => Normal tt
     end,
     {| Web.service := in_world w (Web.service x);
        Web.res := Web.res x ++
                   match outcome with
                   | Some (inr html) =>
                       [ res_writeHead 500 "text/html; charset=utf-8"; res_end html ]
                   | _ => []
                   end |}).
Proof.
  intros Hrender. unfold sendError, Web.detached, Web.bind at 1, render.
  cbn [Web.service Web.res]. rewrite Hrender.
  destruct outcome as [[reason | html] |]; cbn; rewrite <- ?app_assoc, ?app_nil_r;
    reflexivity.
Qed.

(** Property X18.  A request whose path is none of the four fixed paths
    and starts with neither of the two prefixes, [/coverage] without a
    slash after it for instance, is answered with the error page and
    status 404; a request whose URL has no path at all is answered with
    status 500, the [TypeError] of [pathname.startsWith] being caught.
    Neither spawns a child. *)
Theorem unrouted_request_status req_url x outcome w :
  (forall pathname,
      url_parse_pathname req_url = inr (Some pathname) ->
      pathname <> "/" -> pathname <> "/css/styles.css" -> pathname <> "/js/app.js" ->
      pathname <> "/api/orgs" ->
      startsWith pathname "/coverage/" = false ->
      startsWith pathname "/api/coverage/" = false ->
      templateEngine_render "pages/error"
        (error_data "404 - Page Not Found" "The requested page could not be found.")
        (world (Web.service x)) = (outcome, w) ->
      handleRequest config req_url x
      = (match outcome with
         | Some (inl reason) => Exit 1
         | _ => Normal tt
         end,
         {| Web.service := in_world w (Web.service x);
            Web.res := Web.res x ++ security_headers config ++
                       match outcome with
                       | Some (inr html) =>
                           [ res_writeHead 404 "text/html; charset=utf-8"; res_end html ]
                       | _ => []
                       end |})) /\
  (url_parse_pathname req_url = inr None ->
   templateEngine_render "pages/error"
     (error_data "Server Error" "Internal server error")
     (world (Web.service x)) = (outcome, w) ->
   handleRequest config req_url x
   = (match outcome with
      | Some (inl reason) => Exit 1
      | _ => Normal tt
      end,
      {| Web.service := in_world w (Web.service x);
         Web.res := Web.res x ++ security_headers config ++
                    match outcome with
                    | Some (inr html) =>
                        [ res_writeHead 500 "text/html; charset=utf-8"; res_end html ]
                    | _ => []
                    end |})).
Proof.
  split.
  - intros pathname Hpath H1 H2 H3 H4 H5 H6 Hrender.
    erewrite handleRequest_routes by exact Hpath.
    rewrite !bool_decide_eq_false_2 by congruence.
    rewrite H5, H6.
    unfold Web.try_catch.
    rewrite (send404_runs {| Web.service := Web.service x;
                             Web.res := Web.res x ++ security_headers config |}
               outcome w Hrender).
    cbn [Web.service Web.res].
    destruct outcome as [[reason | html] |]; rewrite <- ?app_assoc; reflexivity.
  - intros Hpath Hrender.
    erewrite handleRequest_routes by exact Hpath.
    rewrite !bool_decide_eq_false_2 by discriminate.
    unfold Web.try_catch, Web.throw.
    rewrite (sendError_runs "Internal server error"
               {| Web.service := Web.service x;
                  Web.res := Web.res x ++ security_headers config |}
               outcome w Hrender).
    cbn [Web.service Web.res].
    destruct outcome as [[reason | html] |]; rewrite <- ?app_assoc; reflexivity.
Qed.

(** Property X19.  The style sheet and the script are read from a fixed
    place under the directory above [__dirname], whatever else the
    request says; the file is sent with status 200 and the content type
    of the route, and when it cannot be read the answer is the error page
    with status 404.  No child is spawned. *)
Theorem static_file_status req_url x pathname filePath contentType read w :
  url_parse_pathname req_url = inr (Some pathname) ->
  (pathname, filePath, contentType)
    ∈ [ ("/css/styles.css", "public/css/styles.css", "text/css");
        ("/js/app.js", "public/js/app.js", "application/javascript") ] ->
  fs_readFile (path_join [dirname; ".."; filePath]) (world (Web.service x)) = (read, w) ->
  match read with
  | inr data =>
      handleRequest config req_url x
      = (Normal tt,
         {| Web.service := in_world w (Web.service x);
            Web.res := Web.res x ++ security_headers config ++
                       [ res_writeHead 200 contentType; res_end data ] |})
  | inl err =>
      forall html w',
        templateEngine_render "pages/error"
          (error_data "404 - Page Not Found" "The requested page could not be found.")
          w = (Some (inr html), w') ->
        handleRequest config req_url x
        = (Normal tt,
           {| Web.service := in_world w' (Web.service x);
              Web.res := Web.res x ++ security_headers config ++
                         [ res_writeHead 404 "text/html; charset=utf-8"; res_end html ] |})
  end.
Proof.
  intros Hpath Hroute Hread.
  assert (Hrun : handleRequest config req_url x
                 = serveStaticFile filePath contentType
                     {| Web.service := Web.service x;
                        Web.res := Web.res x ++ security_headers config |}).
  { erewrite handleRequest_routes by exact Hpath.
    apply elem_of_cons in Hroute as [Heq | Hroute].
    - injection Heq as -> -> ->.
      rewrite bool_decide_eq_false_2 by discriminate.
      rewrite bool_decide_eq_true_2 by reflexivity.
      unfold Web.try_catch.
      destruct (serveStaticFile _ _ _) as [[a | e | code |] x1] eqn:H; try reflexivity.
      exfalso. revert H. unfold serveStaticFile, Web.bind at 1, readFile.
      destruct (fs_readFile _ _) as [[err | data] w0]; [| discriminate].
      intros H. exact (detached_not_thrown _ _ _ _ H).
    - apply list_elem_of_singleton in Hroute. injection Hroute as -> -> ->.
      rewrite !bool_decide_eq_false_2 by discriminate.
      rewrite bool_decide_eq_true_2 by reflexivity.
      unfold Web.try_catch.
      destruct (serveStaticFile _ _ _) as [[a | e | code |] x1] eqn:H; try reflexivity.
      exfalso. revert H. unfold serveStaticFile, Web.bind at 1, readFile.
      destruct (fs_readFile _ _) as [[err | data] w0]; [| discriminate].
      intros H. exact (detached_not_thrown _ _ _ _ H). }
  destruct read as [err | data].
  - intros html w' Hrender. rewrite Hrun.
    unfold serveStaticFile, Web.bind at 1, readFile.
    cbn [Web.service Web.res]. rewrite Hread.
    rewrite (send404_runs _ (Some (inr html)) w') by exact Hrender.
    cbn [Web.service Web.res]. rewrite <- ?app_assoc. reflexivity.
  - rewrite Hrun. unfold serveStaticFile, Web.bind at 1, readFile.
    cbn [Web.service Web.res]. rewrite Hread.
    unfold Web.bind, Web.on_res. cbn [Web.service Web.res].
    rewrite <- ?app_assoc. reflexivity.
Qed.

(** Property X20.  When the rendering of the home page is rejected, the
    rejection is caught and the request is answered with the error page
    and status 500; the children that listed the orgs have run. *)
Theorem render_failure_status_500 req_url x orgs s1 reason w html w' :
  url_parse_pathname req_url = inr (Some "/") ->
  getAvailableOrgs (salesforce config) (Web.service x) = (Normal orgs, s1) ->
  templateEngine_render "pages/home" (home_data (app_name config) orgs) (world s1)
    = (Some (inl reason), w) ->
  templateEngine_render "pages/error" (error_data "Server Error" "Internal server error") w
    = (Some (inr html), w') ->
  handleRequest config req_url x
  = (Normal tt,
     {| Web.service := in_world w' s1;
        Web.res := Web.res x ++ security_headers config ++
                   [ res_writeHead 500 "text/html; charset=utf-8"; res_end html ] |}).
Proof.
  intros Hpath Horgs Hhome Herror.
  erewrite handleRequest_routes by exact Hpath.
  rewrite bool_decide_eq_true_2 by reflexivity.
  unfold Web.try_catch, handleHomePage, Web.bind at 1, Web.call.
  cbn [Web.service Web.res]. rewrite Horgs.
  unfold Web.bind at 1, render. cbn [Web.service Web.res]. rewrite Hhome.
  rewrite (sendError_runs _ _ (Some (inr html)) w') by exact Herror.
  cbn [Web.service Web.res]. rewrite <- ?app_assoc. reflexivity.
Qed.

End MoreRequests.

Section CoveragePage.

Context {RT : NodeRuntime} {WRT : WebRuntime RT}.
Variable config : AppConfig.

Lemma getCoverageData_spawned orgAlias s response s2 :
  getCoverageData (salesforce config) orgAlias s = (Normal response, s2) ->
  exists cmd query,
    sfCommand s = Some cmd /\
    (query = tooling_args orgAlias \/ query = fallback_args orgAlias) /\
    spawned s2 = spawned s ++
      [ spawn_call (salesforce config) (cmd ++ probe_args orgAlias) no_options;
        spawn_call (salesforce config) (cmd ++ query) no_options ].
Proof.
  intros H.
  destruct (getCoverageData_returns _ _ _ _ _ H)
    as (cmd & probe & s1 & result & Hcmd & Hprobe & Hquery & _).
  destruct (runCommand_state _ _ _ _ _ _ Hprobe) as (Hs1 & _).
  destruct (runCommand_state _ _ _ _ _ _ Hquery) as (Hs2 & _).
  exists cmd, (if CommandResult.success probe
               then tooling_args orgAlias else fallback_args orgAlias).
  split; [exact Hcmd |]. split.
  - destruct (CommandResult.success probe); [left | right]; reflexivity.
  - rewrite Hs2, Hs1, <- app_assoc. reflexivity.
Qed.

(** Property X22.  A request for the coverage page of an org the CLI
    knows is answered with the rendered page and status 200, whether the
    coverage response is a success or not; the page is titled after the
    name of the org, and exactly three children have run for it: [org
    display], the probe, and one of the two queries. *)
Theorem coverage_page_status_200 req_url rest orgAlias x info s1 response s2 html w :
  url_parse_pathname req_url = inr (Some ("/coverage/" +:+ rest)) ->
  decodeURIComponent (first_segment rest) = inr orgAlias ->
  getOrgInfo (salesforce config) orgAlias (Web.service x) = (Normal (Some info), s1) ->
  getCoverageData (salesforce config) orgAlias s1 = (Normal response, s2) ->
  templateEngine_render "pages/coverage"
    (coverage_data ("Coverage Report: " +:+ OrgInfo.name info) info response) (world s2)
    = (Some (inr html), w) ->
  handleRequest config req_url x
  = (Normal tt,
     {| Web.service := in_world w s2;
        Web.res := Web.res x ++ security_headers config ++
                   [ res_writeHead 200 "text/html; charset=utf-8"; res_end html ] |}) /\
  exists cmd query,
    sfCommand (Web.service x) = Some cmd /\
    (query = tooling_args orgAlias \/ query = fallback_args orgAlias) /\
    spawned (in_world w s2) = spawned (Web.service x) ++
      [ spawn_call (salesforce config)
          (cmd ++ ["org"; "display"; "--target-org"; orgAlias; "--json"]) no_options;
        spawn_call (salesforce config) (cmd ++ probe_args orgAlias) no_options;
        spawn_call (salesforce config) (cmd ++ query) no_options ].
Proof.
  intros Hpath Hdecode Hinfo Hcov Hrender. split.
  - rewrite (route_coverage _ _ _ _ Hpath), decode_segment_coverage, Hdecode.
    unfold Web.try_catch, Web.bind at 1, Web.ret, handleCoveragePage, Web.bind at 1, Web.call.
    cbn [Web.service Web.res]. rewrite Hinfo.
    unfold Web.bind at 1. cbn [Web.service Web.res]. rewrite Hcov.
    unfold Web.bind at 1, render. cbn [Web.service Web.res]. rewrite Hrender.
    cbn. rewrite <- !app_assoc. reflexivity.
  - destruct (getOrgInfo_spawned _ _ _ _ _ Hinfo) as (cmd & Hcmd & Hs1).
    destruct (getCoverageData_spawned _ _ _ _ Hcov) as (cmd' & query & Hcmd' & Hq & Hs2).
    destruct (keeps_service_getOrgInfo _ _ _ _ _ Hinfo) as [_ Hkeep].
    assert (cmd' = cmd) by congruence. subst cmd'.
    exists cmd, query. split; [exact Hcmd |]. split; [exact Hq |].
    cbn [in_world spawned]. rewrite Hs2, Hs1, <- app_assoc. reflexivity.
Qed.

End CoveragePage.

Section Proto.

Context {RT : NodeRuntime}.
Variable config : Config.

Lemma set_property_proto {V} (o : gmap string V) key v :
  set_property o key v !! "__proto__" = o !! "__proto__".
Proof.
  unfold set_property. case_decide as H; [reflexivity |].
  apply lookup_insert_ne. exact H.
Qed.

Lemma process_coverage_proto records : forall response,
  Response.coverage (fold_left process_coverage records response) !! "__proto__"
  = Response.coverage response !! "__proto__".
Proof.
  induction records as [| record rest IH]; intros response; [reflexivity |].
  cbn [fold_left]. rewrite IH.
  destruct (coverage_name record) as [name |] eqn:Hname.
  - rewrite (process_coverage_named _ _ _ Hname). cbn. apply set_property_proto.
  - rewrite (process_coverage_unnamed _ _ Hname). reflexivity.
Qed.

Lemma process_class_proto records : forall response,
  Response.coverage (fold_left process_class records response) !! "__proto__"
  = Response.coverage response !! "__proto__".
Proof.
  induction records as [| record rest IH]; intros response; [reflexivity |].
  cbn [fold_left]. rewrite IH.
  destruct (class_name record) as [name |] eqn:Hname.
  - rewrite (process_class_named _ _ _ Hname). cbn. apply set_property_proto.
  - rewrite (process_class_unnamed _ _ Hname). reflexivity.
Qed.

(** Property X21.  No response has an entry under the key [__proto__]:
    the assignment of such a row goes to the inherited setter and adds
    no property to the coverage object, while the lines of the row are
    added to the totals like those of any other row. *)
Theorem proto_row_is_not_stored orgAlias s response s' :
  getCoverageData config orgAlias s = (Normal response, s') ->
  Response.coverage response !! "__proto__" = None /\
  forall record before,
    coverage_name record = Some "__proto__" ->
    Response.coverage (process_coverage before record) = Response.coverage before /\
    Response.totalCovered (process_coverage before record)
      = Number.add (Response.totalCovered before)
          (or_zero (Json.NumLinesCovered record)) /\
    Response.totalUncovered (process_coverage before record)
      = Number.add (Response.totalUncovered before)
          (or_zero (Json.NumLinesUncovered record)).
Proof.
  intros Hrun. split.
  - destruct (getCoverageData_returns _ _ _ _ _ Hrun)
      as (cmd & probe & s1 & result & _ & _ & _ & ->).
    unfold response_of.
    destruct (negb (CommandResult.success result)); [reflexivity |].
    destruct (JSON_parse (CommandResult.stdout result)) as [message | data];
      [reflexivity |].
    destruct (CommandResult.success probe), (rows_end_in_null data); cbn;
      rewrite ?process_coverage_proto, ?process_class_proto; reflexivity.
  - intros record before Hname.
    rewrite (process_coverage_named _ _ _ Hname). cbn.
    unfold set_property. rewrite decide_True by reflexivity. repeat split.
Qed.

End Proto.

(** ** Concrete runs *)

(** Up to 2^53 the binary64 sum of two line counts is their integer sum,
    and the binary64 test [total > 0] is the integer test; here at a few
    counts, the last sum being 2^53 - 1. *)
Example integer_counts_are_exact :
  forallb (fun '(a, b) =>
    bool_decide (SFadd 53 1024 (Number.canonical a) (Number.canonical b)
                 = Number.canonical (a + b)) &&
    Bool.eqb (SFltb Number.zero (Number.canonical (a + b))) (0 <? a + b))
    [(0, 0); (23, 137); (1, 0); (0, 7); (65535, 1); (123456789, 987654321);
     (4503599627370496, 4503599627370495)] = true.
Proof. vm_compute. reflexivity. Qed.

(** Beyond 2^53 the binary64 sum is no longer the integer sum: 2^53 + 1
    is 2^53.  A count of 401 digits is read as [Infinity], and the
    quotient of two infinities is NaN. *)
Example counts_beyond_safe_integers :
  Number.add (Number.canonical (2 ^ 53)) (Number.canonical 1)
    = Number.canonical (2 ^ 53) /\
  Number.canonical (2 ^ 53 + 1) = Number.canonical (2 ^ 53) /\
  Number.canonical (10 ^ 400) = S754_infinity false /\
  Number.div (S754_infinity false) (S754_infinity false) = S754_nan.
Proof. repeat split; vm_compute; reflexivity. Qed.

(** [Math.round] on ties and around zero: 2.5, -2.5, -0.5, 0.25, -1.5. *)
Example Math_round_ties :
  Number.Math_round (S754_finite false 5 (-1)) = Number.of_Z 3 /\
  Number.Math_round (S754_finite true 5 (-1)) = Number.of_Z (-2) /\
  Number.Math_round (S754_finite true 1 (-1)) = S754_zero true /\
  Number.Math_round (S754_finite false 1 (-2)) = S754_zero false /\
  Number.Math_round (S754_finite true 3 (-1)) = Number.of_Z (-1).
Proof. repeat split; reflexivity. Qed.

(** Where [sf] is not on the path and [npx sf] answers with the marker,
    the second candidate is the command. *)
Example findSFCLI_npx :
  findSFCLI Demo.config (@Demo.start Demo.npx_only tt None)
    = (Normal (Some ["npx"; "sf"]),
       Demo.after (@Demo.start Demo.npx_only tt None)
         [["sf"; "--version"]; ["npx"; "sf"; "--version"]]).
Proof. reflexivity. Qed.

(** With the operands in canonical binary64 form the percentage is the
    same, here for every pair of counts up to 60 lines. *)
Example round_percent_of_canonical_operands :
  forallb (fun whole =>
    forallb (fun part =>
      bool_decide
        (round_percent (Number.of_Z part) (Number.of_Z whole)
         = Number.div
             (Number.Math_round
                (Number.mul
                   (Number.mul
                      (Number.div (Number.canonical part) (Number.canonical whole))
                      (Number.canonical 100))
                   (Number.canonical 100)))
             (Number.canonical 100)))
      (seqZ 0 (whole + 1)))
    (seqZ 1 60) = true.
Proof. vm_compute. reflexivity. Qed.

(** The class with 23 of its 160 lines covered is reported at 14.37: the
    quotient [23 / 160 * 100 * 100] is the binary64 number just below
    1437.5. *)
Example round_percent_23_160 :
  round_percent (Number.canonical 23) (Number.canonical 160)
    = S754_finite false 8089590830664253 (-49) /\
  Number.div (Number.of_Z 1437) (Number.of_Z 100)
    = S754_finite false 8089590830664253 (-49).
Proof. split; vm_compute; reflexivity. Qed.





(** Claim C9 as stated fails on two rows of the same name: both are
    counted in [totalCovered], which is 3, and the map keeps the second
    only, whose [covered] is 2. *)
Lemma twin_rows_counterexample :
  exists response s',
    @getCoverageData (Demo.tooling Demo.twin_rows) Demo.config "dev"
      (Demo.ready (Demo.tooling Demo.twin_rows) tt) = (Normal response, s') /\
    Response.toolingAPIUsed response = true /\
    Response.totalCovered response = Number.canonical 3 /\
    Response.coverage response
      = {[ "Invoice" := entry_of (Demo.coverage_row "Invoice" 2 0) ]} /\
    sum_covered (Response.coverage response) ["Invoice"] = Number.canonical 2 /\
    Response.totalCovered response
      <> sum_covered (Response.coverage response) ["Invoice"].
Proof.
  pose (out := @getCoverageData (Demo.tooling Demo.twin_rows) Demo.config "dev"
                 (Demo.ready (Demo.tooling Demo.twin_rows) tt)).
  exists (Demo.returned initial_response (fst out)), (snd out).
  repeat split; try (vm_compute; reflexivity).
  vm_compute. discriminate.
Qed.

(** Claim C9, amended, on the usual rows. *)
Lemma totals_and_entry_sums_witness :
  (sfCommand (Demo.ready (Demo.tooling Demo.usual_rows) tt) = Some ["sf"] /\
   runCommand Demo.config (["sf"] ++ probe_args "dev") no_options
     (Demo.ready (Demo.tooling Demo.usual_rows) tt)
     = (Normal (Demo.exit0 "{count}"),
        Demo.probed (Demo.ready (Demo.tooling Demo.usual_rows) tt)) /\
   CommandResult.success (Demo.exit0 "{count}") = true /\
   runCommand Demo.config (["sf"] ++ tooling_args "dev") no_options
     (Demo.probed (Demo.ready (Demo.tooling Demo.usual_rows) tt))
     = (Normal (Demo.exit0 "{rows}"),
        Demo.queried true (Demo.ready (Demo.tooling Demo.usual_rows) tt)) /\
   CommandResult.success (Demo.exit0 "{rows}") = true /\
   @JSON_parse (Demo.tooling Demo.usual_rows)
     (CommandResult.stdout (Demo.exit0 "{rows}"))
     = inr (Demo.rows Demo.usual_rows) /\
   NoDup (stored_names Demo.usual_rows) /\
   "__proto__" ∉ stored_names Demo.usual_rows) /\
  exists response,
    getCoverageData Demo.config "dev" (Demo.ready (Demo.tooling Demo.usual_rows) tt)
      = (Normal response,
         Demo.queried true (Demo.ready (Demo.tooling Demo.usual_rows) tt)) /\
    Response.totalCovered response = Number.canonical 23 /\
    Response.totalUncovered response = Number.canonical 137 /\
    (forall name, is_Some (Response.coverage response !! name)
                  <-> name ∈ ["AccountService"; "OrderTrigger"]) /\
    sum_covered (Response.coverage response) ["AccountService"; "OrderTrigger"]
      = Number.canonical 23 /\
    sum_uncovered (Response.coverage response) ["AccountService"; "OrderTrigger"]
      = Number.canonical 137.
Proof.
  pose (s := Demo.ready (Demo.tooling Demo.usual_rows) tt).
  assert (H1 : sfCommand s = Some ["sf"]) by reflexivity.
  assert (H2 : runCommand Demo.config (["sf"] ++ probe_args "dev") no_options s
               = (Normal (Demo.exit0 "{count}"), Demo.probed s))
    by reflexivity.
  assert (H3 : CommandResult.success (Demo.exit0 "{count}") = true) by reflexivity.
  assert (H4 : runCommand Demo.config (["sf"] ++ tooling_args "dev") no_options
                 (Demo.probed s)
               = (Normal (Demo.exit0 "{rows}"), Demo.queried true s))
    by reflexivity.
  assert (H5 : CommandResult.success (Demo.exit0 "{rows}") = true) by reflexivity.
  assert (H6 : @JSON_parse (Demo.tooling Demo.usual_rows)
                 (CommandResult.stdout (Demo.exit0 "{rows}"))
               = inr (Demo.rows Demo.usual_rows)) by reflexivity.
  assert (H7 : NoDup (stored_names Demo.usual_rows)).
  { apply (bool_decide_unpack _). vm_compute. exact I. }
  assert (H8 : "__proto__" ∉ stored_names Demo.usual_rows).
  { apply (bool_decide_unpack _). vm_compute. exact I. }
  split; [repeat split; assumption |].
  destruct (totals_and_entry_sums Demo.config "dev" s ["sf"] _ _ _ _ _ H1 H2 H3 H4 H5 H6)
    as (response & Hrun & Hc & Hu & Hsums).
  destruct (Hsums H7 H8) as (Hkeys & Sc & Su).
  exists response. split; [exact Hrun |].
  change (stored_names (or_empty (Json.result_ (Demo.rows Demo.usual_rows)
                                    ≫= Json.records)))
    with ["AccountService"; "OrderTrigger"] in Hkeys, Sc, Su.
  rewrite <- Sc, <- Su, Hc, Hu.
  split; [vm_compute; reflexivity |]. split; [vm_compute; reflexivity |].
  split; [exact Hkeys |]. split; vm_compute; reflexivity.
Defined.

(** Claim C3 as stated fails on a listed class named [__proto__]: the
    probe fails, the class listing succeeds and lists the class, the
    response is a success of the fallback path, and its coverage map has
    an entry for the other class only. *)
Lemma proto_class_counterexample :
  exists response s',
    @getCoverageData (Demo.fallback Demo.proto_classes) Demo.config "dev"
      (Demo.ready (Demo.fallback Demo.proto_classes) tt) = (Normal response, s') /\
    Response.toolingAPIUsed response = false /\
    Response.success response = true /\
    omap class_name Demo.proto_classes = ["__proto__"; "OrderHelper"] /\
    Response.coverage response !! "__proto__" = None /\
    Response.coverage response = {[ "OrderHelper" := zero_entry ]}.
Proof.
  pose (out := @getCoverageData (Demo.fallback Demo.proto_classes) Demo.config "dev"
                 (Demo.ready (Demo.fallback Demo.proto_classes) tt)).
  exists (Demo.returned initial_response (fst out)), (snd out).
  repeat split; vm_compute; reflexivity.
Qed.

(** Claim C3, amended, where the Tooling API is refused: the probe, then the class
    listing, and a map of zeros for the two listed classes. *)
Lemma coverage_query_follows_probe_witness :
  (sfCommand (Demo.ready (Demo.fallback Demo.listed_classes) tt) = Some ["sf"] /\
   runCommand Demo.config (["sf"] ++ probe_args "dev") no_options
     (Demo.ready (Demo.fallback Demo.listed_classes) tt)
     = (Normal (Demo.exit1 "not available"),
        Demo.probed (Demo.ready (Demo.fallback Demo.listed_classes) tt)) /\
   runCommand Demo.config (["sf"] ++ fallback_args "dev") no_options
     (Demo.probed (Demo.ready (Demo.fallback Demo.listed_classes) tt))
     = (Normal (Demo.exit0 "{rows}"),
        Demo.queried false (Demo.ready (Demo.fallback Demo.listed_classes) tt))) /\
  map argv
    (spawned (snd (getCoverageData Demo.config "dev"
                     (Demo.ready (Demo.fallback Demo.listed_classes) tt))))
    = [probe_args "dev"; fallback_args "dev"] /\
  exists response,
    getCoverageData Demo.config "dev"
      (Demo.ready (Demo.fallback Demo.listed_classes) tt)
      = (Normal response,
         Demo.queried false (Demo.ready (Demo.fallback Demo.listed_classes) tt)) /\
    Response.toolingAPIUsed response = false /\
    Response.success response = true /\
    Response.coverage response
      = {[ "AccountService" := zero_entry; "OrderHelper" := zero_entry ]}.
Proof.
  pose (s := Demo.ready (Demo.fallback Demo.listed_classes) tt).
  assert (H1 : sfCommand s = Some ["sf"]) by reflexivity.
  assert (H2 : runCommand Demo.config (["sf"] ++ probe_args "dev") no_options s
               = (Normal (Demo.exit1 "not available"), Demo.probed s))
    by reflexivity.
  assert (H3 : runCommand Demo.config
                 (["sf"] ++ (if CommandResult.success (Demo.exit1 "not available")
                             then tooling_args "dev" else fallback_args "dev"))
                 no_options (Demo.probed s)
               = (Normal (Demo.exit0 "{rows}"), Demo.queried false s))
    by reflexivity.
  split; [repeat split; assumption |].
  destruct (coverage_query_follows_probe Demo.config "dev" s ["sf"] H1)
    as (_ & Hruns).
  destruct (Hruns _ _ H2) as (Hlog & Hquery).
  split; [etransitivity; [exact (f_equal (map argv) Hlog) | reflexivity] |].
  destruct (Hquery _ _ H3) as (response & Hrun & Hflag & Hzero).
  exists response. split; [exact Hrun |].
  split; [exact Hflag |].
  destruct (Hzero eq_refl eq_refl (Demo.rows Demo.listed_classes) eq_refl)
    as (Hok & _ & _).
  split; [exact Hok |].
  rewrite (getCoverageData_runs Demo.config "dev" s ["sf"] _ _ _ _ H1 H2 H3) in Hrun.
  injection Hrun as <-. vm_compute. reflexivity.
Defined.

(** Claim C10 in the same world. *)
Lemma fallback_success_carries_error_witness :
  (sfCommand (Demo.ready (Demo.fallback Demo.listed_classes) tt) = Some ["sf"] /\
   runCommand Demo.config (["sf"] ++ probe_args "dev") no_options
     (Demo.ready (Demo.fallback Demo.listed_classes) tt)
     = (Normal (Demo.exit1 "not available"),
        Demo.probed (Demo.ready (Demo.fallback Demo.listed_classes) tt)) /\
   CommandResult.success (Demo.exit1 "not available") = false /\
   runCommand Demo.config (["sf"] ++ fallback_args "dev") no_options
     (Demo.probed (Demo.ready (Demo.fallback Demo.listed_classes) tt))
     = (Normal (Demo.exit0 "{rows}"),
        Demo.queried false (Demo.ready (Demo.fallback Demo.listed_classes) tt)) /\
   CommandResult.success (Demo.exit0 "{rows}") = true /\
   @JSON_parse (Demo.fallback Demo.listed_classes)
     (CommandResult.stdout (Demo.exit0 "{rows}"))
     = inr (Demo.rows Demo.listed_classes)) /\
  exists response,
    getCoverageData Demo.config "dev"
      (Demo.ready (Demo.fallback Demo.listed_classes) tt)
      = (Normal response,
         Demo.queried false (Demo.ready (Demo.fallback Demo.listed_classes) tt)) /\
    Response.success response = true /\
    Response.error response
      = Some "Tooling API not available - showing class list only".
Proof.
  pose (s := Demo.ready (Demo.fallback Demo.listed_classes) tt).
  assert (H1 : sfCommand s = Some ["sf"]) by reflexivity.
  assert (H2 : runCommand Demo.config (["sf"] ++ probe_args "dev") no_options s
               = (Normal (Demo.exit1 "not available"), Demo.probed s))
    by reflexivity.
  assert (H3 : CommandResult.success (Demo.exit1 "not available") = false)
    by reflexivity.
  assert (H4 : runCommand Demo.config (["sf"] ++ fallback_args "dev") no_options
                 (Demo.probed s)
               = (Normal (Demo.exit0 "{rows}"), Demo.queried false s))
    by reflexivity.
  assert (H5 : CommandResult.success (Demo.exit0 "{rows}") = true) by reflexivity.
  assert (H6 : @JSON_parse (Demo.fallback Demo.listed_classes)
                 (CommandResult.stdout (Demo.exit0 "{rows}"))
               = inr (Demo.rows Demo.listed_classes)) by reflexivity.
  split; [repeat split; assumption |].
  exact (fallback_success_carries_error Demo.config "dev" s ["sf"] _ _ _ _ _
           H1 H2 H3 H4 H5 H6).
Defined.

(** Claim C2 as stated fails when [spawn] itself throws, as it does on
    an argument with a NUL byte: asked for the coverage of an org whose
    alias has one, [runCommand] is rejected with the [TypeError] of
    [spawn] at the probe, and so is [getCoverageData], on a service that
    is initialized. *)
Lemma spawn_throw_counterexample :
  exists s',
    sfCommand (Demo.ready (Demo.tooling Demo.usual_rows) tt) = Some ["sf"] /\
    @child_process_spawn (Demo.tooling Demo.usual_rows)
      (spawn_call Demo.config (["sf"] ++ probe_args Demo.nul_alias) no_options) tt
      = (inl TypeError, tt) /\
    runCommand Demo.config (["sf"] ++ probe_args Demo.nul_alias) no_options
      (Demo.ready (Demo.tooling Demo.usual_rows) tt) = (Throw TypeError, s') /\
    getCoverageData Demo.config Demo.nul_alias
      (Demo.ready (Demo.tooling Demo.usual_rows) tt) = (Throw TypeError, s').
Proof.
  exists (Demo.after (Demo.ready (Demo.tooling Demo.usual_rows) tt)
            [["sf"] ++ probe_args Demo.nul_alias]).
  repeat split; reflexivity.
Qed.

(** Claim C2, amended, where the aggregate query exits with status 1: the result
    carries the trimmed standard error and the response repeats it. *)
Lemma failed_subprocess_is_reported_witness :
  (@child_process_spawn Demo.refused
     (spawn_call Demo.config (["sf"] ++ tooling_args "dev") no_options)
     (world (Demo.probed (Demo.ready Demo.refused tt)))
     = (inr (Demo.failed "ERROR: session expired  "), tt) /\
   until_settled (Demo.failed "ERROR: session expired  ")
     = Some ([stderr_data "ERROR: session expired  "], close_event (Some 1)) /\
   is_failure (close_event (Some 1)) = true /\
   sfCommand (Demo.ready Demo.refused tt) = Some ["sf"] /\
   runCommand Demo.config (["sf"] ++ probe_args "dev") no_options
     (Demo.ready Demo.refused tt)
     = (Normal (Demo.exit0 "{count}"), Demo.probed (Demo.ready Demo.refused tt)) /\
   runCommand Demo.config (["sf"] ++ tooling_args "dev") no_options
     (Demo.probed (Demo.ready Demo.refused tt))
     = (Normal (Demo.exit1 "ERROR: session expired"),
        Demo.queried true (Demo.ready Demo.refused tt)) /\
   CommandResult.success (Demo.exit1 "ERROR: session expired") = false) /\
  (exists result s',
      runCommand Demo.config (["sf"] ++ tooling_args "dev") no_options
        (Demo.probed (Demo.ready Demo.refused tt)) = (Normal result, s') /\
      CommandResult.success result = false /\
      CommandResult.stderr result = "ERROR: session expired") /\
  (exists response,
      getCoverageData Demo.config "dev" (Demo.ready Demo.refused tt)
        = (Normal response, Demo.queried true (Demo.ready Demo.refused tt)) /\
      Response.success response = false /\
      Response.error response = Some "Query failed: ERROR: session expired").
Proof.
  pose (s := Demo.ready Demo.refused tt).
  assert (H1 : @child_process_spawn Demo.refused
                 (spawn_call Demo.config (["sf"] ++ tooling_args "dev") no_options)
                 (world (Demo.probed s))
               = (inr (Demo.failed "ERROR: session expired  "), tt))
    by reflexivity.
  assert (H2 : until_settled (Demo.failed "ERROR: session expired  ")
               = Some ([stderr_data "ERROR: session expired  "], close_event (Some 1)))
    by reflexivity.
  assert (H3 : is_failure (close_event (Some 1)) = true) by reflexivity.
  assert (H4 : sfCommand s = Some ["sf"]) by reflexivity.
  assert (H5 : runCommand Demo.config (["sf"] ++ probe_args "dev") no_options s
               = (Normal (Demo.exit0 "{count}"), Demo.probed s))
    by reflexivity.
  assert (H6 : runCommand Demo.config
                 (["sf"] ++ (if CommandResult.success (Demo.exit0 "{count}")
                             then tooling_args "dev" else fallback_args "dev"))
                 no_options (Demo.probed s)
               = (Normal (Demo.exit1 "ERROR: session expired"), Demo.queried true s))
    by reflexivity.
  assert (H7 : CommandResult.success (Demo.exit1 "ERROR: session expired") = false)
    by reflexivity.
  destruct (@failed_subprocess_is_reported Demo.refused Demo.config)
    as (Hrun & _ & Hcov & _).
  split; [repeat split; assumption |]. split.
  - destruct (Hrun _ _ _ _ _ _ _ H1 H2 H3) as (result & s' & Hr & Hs & He).
    exists result, s'. repeat split; assumption.
  - exact (Hcov "dev" s ["sf"] _ _ _ _ H4 H5 H6 H7).
Defined.


(** Claim C7 as stated fails on an org that has neither an alias nor a
    username: it is returned, with an empty alias, an empty username and
    no identifier. *)
Lemma nameless_org_counterexample :
  exists d s',
    @getAvailableOrgs (Demo.with_orgs [Demo.nameless_org] []) Demo.config
      (Demo.ready (Demo.with_orgs [Demo.nameless_org] []) tt) = (Normal [d], s') /\
    OrgDescriptor.alias d = EmptyString /\
    OrgDescriptor.username d = EmptyString /\
    OrgDescriptor.identifier d = None /\
    ~ (OrgDescriptor.alias d <> EmptyString \/ OrgDescriptor.username d <> EmptyString).
Proof.
  exists (org_descriptor "Production/Sandbox" Demo.nameless_org).
  eexists. split; [reflexivity |].
  repeat split. intros [H | H]; apply H; reflexivity.
Qed.

(** Claim C7, amended, on a sandbox with an alias and a scratch org
    without one. *)
Lemma org_descriptors_witness :
  (sfCommand (Demo.ready (Demo.with_orgs [Demo.named_org] [Demo.scratch_org]) tt)
     = Some ["sf"] /\
   runCommand Demo.config (["sf"] ++ ["org"; "list"; "--json"]) no_options
     (Demo.ready (Demo.with_orgs [Demo.named_org] [Demo.scratch_org]) tt)
     = (Normal (Demo.exit0 "{orgs}"),
        Demo.after (Demo.ready (Demo.with_orgs [Demo.named_org] [Demo.scratch_org]) tt)
          [["sf"; "org"; "list"; "--json"]]) /\
   CommandResult.success (Demo.exit0 "{orgs}") = true /\
   @JSON_parse (Demo.with_orgs [Demo.named_org] [Demo.scratch_org])
     (CommandResult.stdout (Demo.exit0 "{orgs}"))
     = inr (Demo.org_lists [Demo.named_org] [Demo.scratch_org])) /\
  getAvailableOrgs Demo.config
    (Demo.ready (Demo.with_orgs [Demo.named_org] [Demo.scratch_org]) tt)
    = (Normal
         [ {| OrgDescriptor.alias := "dev";
              OrgDescriptor.username := "dev@example.com";
              OrgDescriptor.type := "Production/Sandbox";
              OrgDescriptor.identifier := Some "dev" |};
           {| OrgDescriptor.alias := EmptyString;
              OrgDescriptor.username := "test-abc@example.com";
              OrgDescriptor.type := "Scratch Org";
              OrgDescriptor.identifier := Some "test-abc@example.com" |} ],
       Demo.after (Demo.ready (Demo.with_orgs [Demo.named_org] [Demo.scratch_org]) tt)
         [["sf"; "org"; "list"; "--json"]]).
Proof.
  pose (s := Demo.ready (Demo.with_orgs [Demo.named_org] [Demo.scratch_org]) tt).
  assert (H1 : sfCommand s = Some ["sf"]) by reflexivity.
  assert (H2 : runCommand Demo.config (["sf"] ++ ["org"; "list"; "--json"]) no_options s
               = (Normal (Demo.exit0 "{orgs}"),
                  Demo.after s [["sf"; "org"; "list"; "--json"]]))
    by reflexivity.
  assert (H3 : CommandResult.success (Demo.exit0 "{orgs}") = true) by reflexivity.
  assert (H4 : @JSON_parse (Demo.with_orgs [Demo.named_org] [Demo.scratch_org])
                 (CommandResult.stdout (Demo.exit0 "{orgs}"))
               = inr (Demo.org_lists [Demo.named_org] [Demo.scratch_org]))
    by reflexivity.
  split; [repeat split; assumption |].
  destruct (org_descriptors Demo.config s ["sf"] _ _ _ H1 H2 H3 H4)
    as (orgs & Hrun & -> & _).
  exact Hrun.
Defined.


(** Claim C6 where no CLI is installed. *)
Lemma tool_not_found_is_fatal_witness :
  findSFCLI Demo.config (@Demo.start Demo.bare tt None)
    = (Normal None,
       Demo.after (@Demo.start Demo.bare tt None)
         [["sf"; "--version"]; ["npx"; "sf"; "--version"];
          ["npm"; "config"; "get"; "prefix"]]) /\
  initialize Demo.config (@Demo.start Demo.bare tt None)
    = (Throw (Error "SF CLI not found. Please install SF CLI."),
       Demo.after (@Demo.start Demo.bare tt None)
         [["sf"; "--version"]; ["npx"; "sf"; "--version"];
          ["npm"; "config"; "get"; "prefix"]]) /\
  init Demo.config (@Demo.start Demo.bare tt None)
    = (Exit 1,
       Demo.after (@Demo.start Demo.bare tt None)
         [["sf"; "--version"]; ["npx"; "sf"; "--version"];
          ["npm"; "config"; "get"; "prefix"]]) /\
  serverStarted
    (Demo.after (@Demo.start Demo.bare tt None)
       [["sf"; "--version"]; ["npx"; "sf"; "--version"];
        ["npm"; "config"; "get"; "prefix"]]) = false.
Proof.
  pose (s := @Demo.start Demo.bare tt None).
  assert (H : findSFCLI Demo.config s
              = (Normal None,
                 Demo.after s [["sf"; "--version"]; ["npx"; "sf"; "--version"];
                               ["npm"; "config"; "get"; "prefix"]]))
    by reflexivity.
  destruct (tool_not_found_is_fatal Demo.config s _ H) as (s'' & Hi & Ha & Hc & Hs).
  split; [exact H |].
  assert (Hs'' : s'' = Demo.after s [["sf"; "--version"]; ["npx"; "sf"; "--version"];
                                     ["npm"; "config"; "get"; "prefix"]]).
  { assert (Hinit : initialize Demo.config s
                    = (Throw (Error "SF CLI not found. Please install SF CLI."),
                       Demo.after s [["sf"; "--version"]; ["npx"; "sf"; "--version"];
                                     ["npm"; "config"; "get"; "prefix"]]))
      by reflexivity.
    rewrite Hinit in Hi. injection Hi as <-. reflexivity. }
  subst s''. split; [exact Hi |]. split; [exact Ha |]. exact Hs.
Defined.

(** ** Concrete runs of the further properties *)

(** Property X1 on a child that writes on both pipes, closes with status
    0 and goes on writing. *)
Lemma runCommand_first_settlement_witness :
  ([ stdout_data " @salesforce/cli/2.15.9"; stderr_data "warning "; stdout_data " linux-x64
"; close_event (Some 0); stdout_data "late"; close_event (Some 1) ]
   = [ stdout_data " @salesforce/cli/2.15.9"; stderr_data "warning "; stdout_data " linux-x64
" ] ++ close_event (Some 0) :: [ stdout_data "late"; close_event (Some 1) ] /\
   forallb is_data [ stdout_data " @salesforce/cli/2.15.9"; stderr_data "warning ";
                     stdout_data " linux-x64
" ] = true /\
   is_data (close_event (Some 0)) = false) /\
  runCommand Demo.config ["sf"; "--version"] no_options (@Demo.start WebDemo.chatty tt None)
  = (Normal {| CommandResult.success := true;
               CommandResult.stdout := "@salesforce/cli/2.15.9 linux-x64";
               CommandResult.stderr := "warning";
               CommandResult.code := Some 0 |},
     Demo.after (@Demo.start WebDemo.chatty tt None) [["sf"; "--version"]]).
Proof.
  pose proof (@runCommand_first_settlement WebDemo.chatty Demo.config
                ["sf"; "--version"] no_options (@Demo.start WebDemo.chatty tt None)) as H.
  cbv zeta in H.
  change (fst (@child_process_spawn WebDemo.chatty
                 (spawn_call Demo.config ["sf"; "--version"] no_options)
                 (world (@Demo.start WebDemo.chatty tt None))))
    with (@inr JsError _
            [ stdout_data " @salesforce/cli/2.15.9"; stderr_data "warning ";
              stdout_data " linux-x64
"; close_event (Some 0); stdout_data "late"; close_event (Some 1) ]) in H.
  cbv iota in H. destruct H as [H _].
  assert (H1 : [ stdout_data " @salesforce/cli/2.15.9"; stderr_data "warning ";
                 stdout_data " linux-x64
"; close_event (Some 0); stdout_data "late"; close_event (Some 1) ]
               = [ stdout_data " @salesforce/cli/2.15.9"; stderr_data "warning ";
                   stdout_data " linux-x64
" ] ++ close_event (Some 0) :: [ stdout_data "late"; close_event (Some 1) ])
    by reflexivity.
  assert (H2 : forallb is_data [ stdout_data " @salesforce/cli/2.15.9";
                                 stderr_data "warning "; stdout_data " linux-x64
" ] = true) by reflexivity.
  assert (H3 : is_data (close_event (Some 0)) = false) by reflexivity.
  split; [repeat split; assumption |].
  destruct (H _ _ _ H1 H2 H3) as [Hrun _].
  etransitivity; [exact Hrun | reflexivity].
Defined.

(** Property X4 where only the copy under the npm prefix works. *)
Lemma findSFCLI_sound_witness :
  findSFCLI Demo.config (@Demo.start Demo.under_prefix tt None)
    = (Normal (Some ["/usr/local/bin/sf"]),
       Demo.after (@Demo.start Demo.under_prefix tt None)
         [["sf"; "--version"]; ["npx"; "sf"; "--version"];
          ["npm"; "config"; "get"; "prefix"]; ["/usr/local/bin/sf"; "--version"]]) /\
  last (spawned
          (Demo.after (@Demo.start Demo.under_prefix tt None)
             [["sf"; "--version"]; ["npx"; "sf"; "--version"];
              ["npm"; "config"; "get"; "prefix"]; ["/usr/local/bin/sf"; "--version"]]))
    = Some (spawn_call Demo.config (["/usr/local/bin/sf"] ++ ["--version"]) no_options) /\
  exists s0 result,
    runCommand Demo.config (["/usr/local/bin/sf"] ++ ["--version"]) no_options s0
      = (Normal result,
         Demo.after (@Demo.start Demo.under_prefix tt None)
           [["sf"; "--version"]; ["npx"; "sf"; "--version"];
            ["npm"; "config"; "get"; "prefix"]; ["/usr/local/bin/sf"; "--version"]]) /\
    CommandResult.success result = true.
Proof.
  assert (H : findSFCLI Demo.config (@Demo.start Demo.under_prefix tt None)
              = (Normal (Some ["/usr/local/bin/sf"]),
                 Demo.after (@Demo.start Demo.under_prefix tt None)
                   [["sf"; "--version"]; ["npx"; "sf"; "--version"];
                    ["npm"; "config"; "get"; "prefix"];
                    ["/usr/local/bin/sf"; "--version"]])) by reflexivity.
  split; [exact H |].
  destruct (findSFCLI_sound Demo.config _ _ _ H)
    as (_ & Hlast & s0 & result & Hrun & Hok & _).
  split; [exact Hlast |].
  exists s0, result. split; assumption.
Defined.

(** Property X6 on a service that has not been initialized. *)
Lemma uninitialized_service_throws_witness :
  sfCommand (@Demo.start (Demo.tooling Demo.usual_rows) tt None) = None /\
  getAvailableOrgs Demo.config (@Demo.start (Demo.tooling Demo.usual_rows) tt None)
    = (Throw TypeError, @Demo.start (Demo.tooling Demo.usual_rows) tt None) /\
  getOrgInfo Demo.config "dev" (@Demo.start (Demo.tooling Demo.usual_rows) tt None)
    = (Throw TypeError, @Demo.start (Demo.tooling Demo.usual_rows) tt None) /\
  getCoverageData Demo.config "dev" (@Demo.start (Demo.tooling Demo.usual_rows) tt None)
    = (Throw TypeError, @Demo.start (Demo.tooling Demo.usual_rows) tt None).
Proof.
  assert (H : sfCommand (@Demo.start (Demo.tooling Demo.usual_rows) tt None) = None)
    by reflexivity.
  split; [exact H |].
  exact (@uninitialized_service_throws (Demo.tooling Demo.usual_rows) Demo.config
           _ "dev" H).
Defined.

(** Property X7 on the coverage query of the usual rows. *)
Lemma initialized_service_is_stable_witness :
  sfCommand (Demo.ready (Demo.tooling Demo.usual_rows) tt) = Some ["sf"] /\
  getCoverageData Demo.config "dev" (Demo.ready (Demo.tooling Demo.usual_rows) tt)
    = (Normal (@response_of (Demo.tooling Demo.usual_rows) true (Demo.exit0 "{rows}")),
       Demo.queried true (Demo.ready (Demo.tooling Demo.usual_rows) tt)) /\
  sfCommand (Demo.queried true (Demo.ready (Demo.tooling Demo.usual_rows) tt))
    = Some ["sf"] /\
  serverStarted (Demo.queried true (Demo.ready (Demo.tooling Demo.usual_rows) tt))
    = serverStarted (Demo.ready (Demo.tooling Demo.usual_rows) tt).
Proof.
  pose (s := Demo.ready (Demo.tooling Demo.usual_rows) tt).
  assert (H : sfCommand s = Some ["sf"]) by reflexivity.
  assert (Hrun : getCoverageData Demo.config "dev" s
                 = (Normal (@response_of (Demo.tooling Demo.usual_rows) true (Demo.exit0 "{rows}")), Demo.queried true s))
    by reflexivity.
  destruct (initialized_service_is_stable Demo.config s ["sf"] "dev" H) as (_ & _ & Hcov).
  destruct (Hcov _ _ Hrun) as (_ & Hcmd & Hserver).
  split; [exact H |]. split; [exact Hrun |]. split; assumption.
Defined.

(** Property X8 on an org without alias and id: the name is the username,
    the id is [Unknown]. *)
Lemma getOrgInfo_answer_witness :
  (sfCommand (Demo.ready WebDemo.displayed tt) = Some ["sf"] /\
   runCommand Demo.config (["sf"] ++ ["org"; "display"; "--target-org"; "dev"; "--json"])
     no_options (Demo.ready WebDemo.displayed tt)
     = (Normal (Demo.exit0 "{org}"),
        Demo.after (Demo.ready WebDemo.displayed tt)
          [["sf"; "org"; "display"; "--target-org"; "dev"; "--json"]])) /\
  getOrgInfo Demo.config "dev" (Demo.ready WebDemo.displayed tt)
    = (Normal (Some {| OrgInfo.name := "dev@example.com";
                       OrgInfo.url := "https://example.my.salesforce.com";
                       OrgInfo.username := "dev@example.com";
                       OrgInfo.id := "Unknown" |}),
       Demo.after (Demo.ready WebDemo.displayed tt)
         [["sf"; "org"; "display"; "--target-org"; "dev"; "--json"]]).
Proof.
  pose (s := Demo.ready WebDemo.displayed tt).
  assert (H1 : sfCommand s = Some ["sf"]) by reflexivity.
  assert (H2 : runCommand Demo.config
                 (["sf"] ++ ["org"; "display"; "--target-org"; "dev"; "--json"])
                 no_options s
               = (Normal (Demo.exit0 "{org}"),
                  Demo.after s [["sf"; "org"; "display"; "--target-org"; "dev"; "--json"]]))
    by reflexivity.
  split; [split; assumption |].
  destruct (getOrgInfo_answer Demo.config "dev" s ["sf"] _ _ H1 H2) as (answer & Hrun & _).
  etransitivity; [exact Hrun |]. 
  assert (Hc : getOrgInfo Demo.config "dev" s
    = (Normal (Some {| OrgInfo.name := "dev@example.com";
                       OrgInfo.url := "https://example.my.salesforce.com";
                       OrgInfo.username := "dev@example.com";
                       OrgInfo.id := "Unknown" |}),
       Demo.after s [["sf"; "org"; "display"; "--target-org"; "dev"; "--json"]]))
    by reflexivity.
  rewrite Hc in Hrun. symmetry. exact Hrun.
Defined.

(** Property X9 on a success of the Tooling API path. *)
Lemma error_is_null_iff_witness :
  exists response s',
    @getCoverageData (Demo.tooling Demo.usual_rows) Demo.config "dev"
      (Demo.ready (Demo.tooling Demo.usual_rows) tt) = (Normal response, s') /\
    Response.success response = true /\
    Response.toolingAPIUsed response = true /\
    Response.error response = None.
Proof.
  pose (out := @getCoverageData (Demo.tooling Demo.usual_rows) Demo.config "dev"
                 (Demo.ready (Demo.tooling Demo.usual_rows) tt)).
  exists (Demo.returned initial_response (fst out)), (snd out).
  assert (Hrun : out = (Normal (Demo.returned initial_response (fst out)), snd out))
    by reflexivity.
  assert (Hs : Response.success (Demo.returned initial_response (fst out)) = true)
    by (vm_compute; reflexivity).
  assert (Ht : Response.toolingAPIUsed (Demo.returned initial_response (fst out)) = true)
    by (vm_compute; reflexivity).
  split; [exact Hrun |]. split; [exact Hs |]. split; [exact Ht |].
  apply (@error_is_null_iff (Demo.tooling Demo.usual_rows) Demo.config "dev" _ _ _ Hrun).
  split; assumption.
Defined.

(** Property X10 on the usual rows: 23 lines covered out of 160. *)
Lemma overall_percentage_of_totals_witness :
  exists response s',
    @getCoverageData (Demo.tooling Demo.usual_rows) Demo.config "dev"
      (Demo.ready (Demo.tooling Demo.usual_rows) tt) = (Normal response, s') /\
    Response.success response = true /\
    Response.totalCovered response = Number.canonical 23 /\
    Response.totalUncovered response = Number.canonical 137 /\
    0 <= 23 /\ 0 <= 137 /\ 23 + 137 < 2 ^ 53 /\
    Response.overallPercentage response
      = round_percent (Number.canonical 23) (Number.canonical 160) /\
    is_percentage (Response.overallPercentage response) = true.
Proof.
  pose (out := @getCoverageData (Demo.tooling Demo.usual_rows) Demo.config "dev"
                 (Demo.ready (Demo.tooling Demo.usual_rows) tt)).
  exists (Demo.returned initial_response (fst out)), (snd out).
  assert (Hrun : out = (Normal (Demo.returned initial_response (fst out)), snd out))
    by reflexivity.
  assert (Hs : Response.success (Demo.returned initial_response (fst out)) = true)
    by (vm_compute; reflexivity).
  assert (Hc : Response.totalCovered (Demo.returned initial_response (fst out))
               = Number.canonical 23)
    by (vm_compute; reflexivity).
  assert (Hu : Response.totalUncovered (Demo.returned initial_response (fst out))
               = Number.canonical 137)
    by (vm_compute; reflexivity).
  assert (Hc0 : 0 <= 23) by lia.
  assert (Hu0 : 0 <= 137) by lia.
  assert (Hsum : 23 + 137 < 2 ^ 53) by (vm_compute; reflexivity).
  pose proof (@overall_percentage_of_totals (Demo.tooling Demo.usual_rows) Demo.config
                "dev" _ _ _ Hrun) as H.
  cbv zeta in H. destruct H as (Heq & _ & Hrange & _).
  split; [exact Hrun |]. split; [exact Hs |].
  split; [exact Hc |]. split; [exact Hu |].
  split; [exact Hc0 |]. split; [exact Hu0 |]. split; [exact Hsum |]. split.
  - rewrite (Heq Hs), Hc, Hu. reflexivity.
  - exact (Hrange 23 137 Hc Hu Hc0 Hu0 Hsum).
Defined.

(** Property X10 where a [null] row stops the processing: the totals
    keep the lines of the rows in front of it, and the overall
    percentage stays 0. *)
Example overall_percentage_after_null_row :
  let RT := Demo.runtime [ ("sf" :: probe_args "dev", Demo.ok "{count}");
                           ("sf" :: tooling_args "dev", Demo.ok "{rows}") ]
                         []
                         [ ("{rows}", Demo.rows_then_null Demo.usual_rows) ] in
  exists response s',
    @getCoverageData RT Demo.config "dev" (Demo.ready RT tt) = (Normal response, s') /\
    Response.success response = false /\
    Response.error response
      = Some "Failed to parse data: Cannot read properties of null (reading 'ApexClassOrTrigger')" /\
    Response.totalCovered response = Number.canonical 23 /\
    Response.totalUncovered response = Number.canonical 137 /\
    Response.overallPercentage response = Number.zero /\
    Response.coverage response !! "AccountService"
      = Some (entry_of (Demo.coverage_row "AccountService" 23 137)).
Proof.
  intros RT.
  pose (out := @getCoverageData RT Demo.config "dev" (Demo.ready RT tt)).
  exists (Demo.returned initial_response (fst out)), (snd out).
  repeat split; vm_compute; reflexivity.
Qed.

(** Property X11 on a class with 7 lines, all covered, and a class with
    12 lines, none covered. *)
Lemma full_and_empty_classes_witness :
  exists response s',
    @getCoverageData (Demo.tooling WebDemo.extreme_rows) Demo.config "dev"
      (Demo.ready (Demo.tooling WebDemo.extreme_rows) tt) = (Normal response, s') /\
    Response.coverage response !! "Covered"
      = Some (entry_of (Demo.coverage_row "Covered" 7 0)) /\
    CoverageEntry.covered (entry_of (Demo.coverage_row "Covered" 7 0))
      = S754_finite false 7881299347898368 (-50) /\
    CoverageEntry.uncovered (entry_of (Demo.coverage_row "Covered" 7 0)) = Number.zero /\
    CoverageEntry.percentage (entry_of (Demo.coverage_row "Covered" 7 0))
      = Number.canonical 100 /\
    Response.coverage response !! "Untested"
      = Some (entry_of (Demo.coverage_row "Untested" 0 12)) /\
    CoverageEntry.covered (entry_of (Demo.coverage_row "Untested" 0 12)) = Number.zero /\
    CoverageEntry.percentage (entry_of (Demo.coverage_row "Untested" 0 12))
      = Number.zero.
Proof.
  pose (out := @getCoverageData (Demo.tooling WebDemo.extreme_rows) Demo.config "dev"
                 (Demo.ready (Demo.tooling WebDemo.extreme_rows) tt)).
  pose (response := Demo.returned initial_response (fst out)).
  exists response, (snd out).
  assert (Hrun : out = (Normal response, snd out)) by reflexivity.
  assert (H1 : Response.coverage response !! "Covered"
               = Some (entry_of (Demo.coverage_row "Covered" 7 0)))
    by (vm_compute; reflexivity).
  assert (H2 : Response.coverage response !! "Untested"
               = Some (entry_of (Demo.coverage_row "Untested" 0 12)))
    by (vm_compute; reflexivity).
  assert (H3 : CoverageEntry.covered (entry_of (Demo.coverage_row "Covered" 7 0))
               = S754_finite false 7881299347898368 (-50))
    by reflexivity.
  assert (H4 : CoverageEntry.uncovered (entry_of (Demo.coverage_row "Covered" 7 0))
               = Number.zero)
    by reflexivity.
  assert (H5 : CoverageEntry.covered (entry_of (Demo.coverage_row "Untested" 0 12))
               = Number.zero)
    by reflexivity.
  destruct (@full_and_empty_classes (Demo.tooling WebDemo.extreme_rows) Demo.config
              "dev" _ _ _ Hrun _ _ H1) as [Hfull _].
  destruct (@full_and_empty_classes (Demo.tooling WebDemo.extreme_rows) Demo.config
              "dev" _ _ _ Hrun _ _ H2) as [_ Hempty].
  split; [exact Hrun |]. split; [exact H1 |]. split; [exact H3 |]. split; [exact H4 |].
  split; [exact (Hfull _ _ H3 H4) |]. split; [exact H2 |]. split; [exact H5 |].
  exact (Hempty H5).
Defined.

(** Property X14 where the aggregate query exits with status 1: the
    response is a failure and the status is 200. *)
Lemma api_coverage_status_200_witness :
  (@url_parse_pathname _ (WebDemo.web Demo.refused [] []) "/api/coverage/dev"
     = inr (Some ("/api/coverage/" +:+ "dev")) /\
   @decodeURIComponent _ (WebDemo.web Demo.refused [] []) (first_segment "dev") = inr "dev" /\
   getCoverageData Demo.config "dev" (Demo.ready Demo.refused tt)
     = (Normal (@response_of Demo.refused true (Demo.exit1 "ERROR: session expired")),
        Demo.queried true (Demo.ready Demo.refused tt)) /\
   Response.success (@response_of Demo.refused true (Demo.exit1 "ERROR: session expired"))
     = false) /\
  @handleRequest _ (WebDemo.web Demo.refused [] []) WebDemo.config "/api/coverage/dev"
    (WebDemo.arrival Demo.refused tt)
  = (Normal tt,
     {| Web.service := Demo.queried true (Demo.ready Demo.refused tt);
        Web.res := security_headers WebDemo.config ++
                   [ res_writeHead 200 "application/json; charset=utf-8";
                     res_end "{success: false}" ] |}).
Proof.
  assert (H1 : @url_parse_pathname _ (WebDemo.web Demo.refused [] []) "/api/coverage/dev"
               = inr (Some ("/api/coverage/" +:+ "dev"))) by reflexivity.
  assert (H2 : @decodeURIComponent _ (WebDemo.web Demo.refused [] []) (first_segment "dev")
               = inr "dev") by reflexivity.
  assert (H3 : getCoverageData Demo.config "dev" (Demo.ready Demo.refused tt)
               = (Normal (@response_of Demo.refused true
                            (Demo.exit1 "ERROR: session expired")),
                  Demo.queried true (Demo.ready Demo.refused tt))) by reflexivity.
  assert (H4 : Response.success
                 (@response_of Demo.refused true (Demo.exit1 "ERROR: session expired"))
               = false) by reflexivity.
  split; [repeat split; assumption |].
  exact (@api_coverage_status_200 _ (WebDemo.web Demo.refused [] []) WebDemo.config
           "/api/coverage/dev" "dev" "dev" (WebDemo.arrival Demo.refused tt) _ _ H1 H2 H3).
Defined.

(** Property X15 where the CLI cannot be run for the org [ghost]; what
    follows the org segment in the URL is ignored. *)
Lemma unknown_org_status_404_witness :
  (@url_parse_pathname _ (WebDemo.web Demo.bare [] []) "/coverage/ghost/history"
     = inr (Some ("/coverage/" +:+ "ghost/history")) /\
   @decodeURIComponent _ (WebDemo.web Demo.bare [] []) (first_segment "ghost/history")
     = inr "ghost" /\
   getOrgInfo Demo.config "ghost" (Demo.ready Demo.bare tt)
     = (Normal None,
        Demo.after (Demo.ready Demo.bare tt)
          [["sf"; "org"; "display"; "--target-org"; "ghost"; "--json"]]) /\
   @templateEngine_render _ (WebDemo.web Demo.bare [] []) "pages/error"
     (org_not_found_data "Organization Not Found" "ghost") tt
     = (Some (inr "pages/error: Organization Not Found (ghost)"), tt)) /\
  @handleRequest _ (WebDemo.web Demo.bare [] []) WebDemo.config "/coverage/ghost/history"
    (WebDemo.arrival Demo.bare tt)
  = (Normal tt,
     {| Web.service :=
          Demo.after (Demo.ready Demo.bare tt)
            [["sf"; "org"; "display"; "--target-org"; "ghost"; "--json"]];
        Web.res := security_headers WebDemo.config ++
                   [ res_writeHead 404 "text/html; charset=utf-8";
                     res_end "pages/error: Organization Not Found (ghost)" ] |}).
Proof.
  assert (H1 : @url_parse_pathname _ (WebDemo.web Demo.bare [] []) "/coverage/ghost/history"
               = inr (Some ("/coverage/" +:+ "ghost/history"))) by reflexivity.
  assert (H2 : @decodeURIComponent _ (WebDemo.web Demo.bare [] [])
                 (first_segment "ghost/history") = inr "ghost") by reflexivity.
  assert (H3 : getOrgInfo Demo.config "ghost" (Demo.ready Demo.bare tt)
               = (Normal None,
                  Demo.after (Demo.ready Demo.bare tt)
                    [["sf"; "org"; "display"; "--target-org"; "ghost"; "--json"]]))
    by reflexivity.
  assert (H4 : @templateEngine_render _ (WebDemo.web Demo.bare [] []) "pages/error"
                 (org_not_found_data "Organization Not Found" "ghost")
                 (world (Demo.after (Demo.ready Demo.bare tt)
                    [["sf"; "org"; "display"; "--target-org"; "ghost"; "--json"]]))
               = (Some (inr "pages/error: Organization Not Found (ghost)"), tt))
    by reflexivity.
  split; [repeat split; assumption |].
  destruct (@unknown_org_status_404 _ (WebDemo.web Demo.bare [] []) WebDemo.config
              "/coverage/ghost/history" "ghost/history" "ghost"
              (WebDemo.arrival Demo.bare tt) _ _ _ H1 H2 H3 H4) as [Hrun _].
  etransitivity; [exact Hrun | reflexivity].
Defined.

(** Property X16 on a truncated percent escape. *)
Lemma malformed_escape_status_500_witness :
  ((@url_parse_pathname _ (WebDemo.web Demo.bare [] []) "/coverage/%E0%A4%A"
      = inr (Some ("/coverage/" +:+ "%E0%A4%A")) \/
    @url_parse_pathname _ (WebDemo.web Demo.bare [] []) "/coverage/%E0%A4%A"
      = inr (Some ("/api/coverage/" +:+ "%E0%A4%A"))) /\
   @decodeURIComponent _ (WebDemo.web Demo.bare [] []) (first_segment "%E0%A4%A")
     = inl (Error "URI malformed") /\
   @templateEngine_render _ (WebDemo.web Demo.bare [] []) "pages/error"
     (error_data "Server Error" "Internal server error") tt
     = (Some (inr "pages/error: Server Error (Internal server error)"), tt)) /\
  @handleRequest _ (WebDemo.web Demo.bare [] []) WebDemo.config "/coverage/%E0%A4%A"
    (WebDemo.arrival Demo.bare tt)
  = (Normal tt,
     {| Web.service := Demo.ready Demo.bare tt;
        Web.res := security_headers WebDemo.config ++
                   [ res_writeHead 500 "text/html; charset=utf-8";
                     res_end "pages/error: Server Error (Internal server error)" ] |}).
Proof.
  assert (H1 : @url_parse_pathname _ (WebDemo.web Demo.bare [] []) "/coverage/%E0%A4%A"
                 = inr (Some ("/coverage/" +:+ "%E0%A4%A")) \/
               @url_parse_pathname _ (WebDemo.web Demo.bare [] []) "/coverage/%E0%A4%A"
                 = inr (Some ("/api/coverage/" +:+ "%E0%A4%A"))) by (left; reflexivity).
  assert (H2 : @decodeURIComponent _ (WebDemo.web Demo.bare [] [])
                 (first_segment "%E0%A4%A") = inl (Error "URI malformed")) by reflexivity.
  assert (H3 : @templateEngine_render _ (WebDemo.web Demo.bare [] []) "pages/error"
                 (error_data "Server Error" "Internal server error")
                 (world (Web.service (WebDemo.arrival Demo.bare tt)))
               = (Some (inr "pages/error: Server Error (Internal server error)"), tt))
    by reflexivity.
  split; [repeat split; assumption |].
  etransitivity;
    [exact (@malformed_escape_status_500 _ (WebDemo.web Demo.bare [] []) WebDemo.config
              "/coverage/%E0%A4%A" "%E0%A4%A" _ (WebDemo.arrival Demo.bare tt) _ _
              H1 H2 H3)
    | reflexivity].
Defined.

(** Property X17 where [org list] cannot be spawned. *)
Lemma org_list_failure_status_200_witness :
  (sfCommand (Web.service (WebDemo.arrival Demo.bare tt)) = Some ["sf"] /\
   runCommand Demo.config (["sf"] ++ ["org"; "list"; "--json"]) no_options
     (Web.service (WebDemo.arrival Demo.bare tt))
     = (Normal Demo.not_spawned,
        Demo.after (Demo.ready Demo.bare tt) [["sf"; "org"; "list"; "--json"]]) /\
   CommandResult.success Demo.not_spawned = false /\
   @url_parse_pathname _ (WebDemo.web Demo.bare [] []) "/api/orgs" = inr (Some "/api/orgs")) /\
  @handleRequest _ (WebDemo.web Demo.bare [] []) WebDemo.config "/api/orgs"
    (WebDemo.arrival Demo.bare tt)
  = (Normal tt,
     {| Web.service :=
          Demo.after (Demo.ready Demo.bare tt) [["sf"; "org"; "list"; "--json"]];
        Web.res := security_headers WebDemo.config ++
                   [ res_writeHead 200 "application/json; charset=utf-8";
                     res_end "[]" ] |}).
Proof.
  assert (H1 : sfCommand (Web.service (WebDemo.arrival Demo.bare tt)) = Some ["sf"])
    by reflexivity.
  assert (H2 : runCommand Demo.config (["sf"] ++ ["org"; "list"; "--json"]) no_options
                 (Web.service (WebDemo.arrival Demo.bare tt))
               = (Normal Demo.not_spawned,
                  Demo.after (Demo.ready Demo.bare tt) [["sf"; "org"; "list"; "--json"]]))
    by reflexivity.
  assert (H3 : CommandResult.success Demo.not_spawned = false) by reflexivity.
  assert (H4 : @url_parse_pathname _ (WebDemo.web Demo.bare [] []) "/api/orgs"
               = inr (Some "/api/orgs")) by reflexivity.
  split; [repeat split; assumption |].
  destruct (@org_list_failure_status_200 _ (WebDemo.web Demo.bare [] []) WebDemo.config
              "/api/orgs" (WebDemo.arrival Demo.bare tt) ["sf"] _ _ H1 H2 H3)
    as [Hapi _].
  exact (Hapi H4).
Defined.

(** Property X2 on the same child: the output is trimmed once and for all. *)
Lemma runCommand_output_is_trimmed_witness :
  runCommand Demo.config ["sf"; "--version"] no_options (@Demo.start WebDemo.chatty tt None)
    = (Normal {| CommandResult.success := true;
                 CommandResult.stdout := "@salesforce/cli/2.15.9 linux-x64";
                 CommandResult.stderr := "warning";
                 CommandResult.code := Some 0 |},
       Demo.after (@Demo.start WebDemo.chatty tt None) [["sf"; "--version"]]) /\
  JsString.trim "@salesforce/cli/2.15.9 linux-x64" = "@salesforce/cli/2.15.9 linux-x64" /\
  JsString.trim "warning" = "warning".
Proof.
  assert (H : runCommand Demo.config ["sf"; "--version"] no_options
                (@Demo.start WebDemo.chatty tt None)
              = (Normal {| CommandResult.success := true;
                           CommandResult.stdout := "@salesforce/cli/2.15.9 linux-x64";
                           CommandResult.stderr := "warning";
                           CommandResult.code := Some 0 |},
                 Demo.after (@Demo.start WebDemo.chatty tt None) [["sf"; "--version"]]))
    by reflexivity.
  destruct (@runCommand_output_is_trimmed WebDemo.chatty Demo.config _ _ _ _ _ H)
    as (Hout & Herr & _).
  split; [exact H |]. split; [exact Hout |].
  apply Herr. discriminate.
Defined.

(** Property X12 on the usual rows: the class with 23 of its 160 lines
    covered, whose exact percentage 14.375 is a tie between 14.37 and
    14.38. *)
Lemma percentages_are_accurate_witness :
  exists response s',
    @getCoverageData (Demo.tooling Demo.usual_rows) Demo.config "dev"
      (Demo.ready (Demo.tooling Demo.usual_rows) tt) = (Normal response, s') /\
    Response.coverage response !! "AccountService"
      = Some (entry_of (Demo.coverage_row "AccountService" 23 137)) /\
    CoverageEntry.covered (entry_of (Demo.coverage_row "AccountService" 23 137))
      = Number.canonical 23 /\
    CoverageEntry.uncovered (entry_of (Demo.coverage_row "AccountService" 23 137))
      = Number.canonical 137 /\
    0 <= 23 /\ 0 <= 137 /\ 0 < 23 + 137 < 2 ^ 53 /\
    exists k,
      CoverageEntry.percentage (entry_of (Demo.coverage_row "AccountService" 23 137))
        = Number.div (Number.of_Z k) (Number.of_Z 100) /\
      0 <= k <= 10000 /\
      2 ^ 36 * Z.abs (k * (23 + 137) - 10000 * 23) <= (2 ^ 35 + 1) * (23 + 137).
Proof.
  pose (out := @getCoverageData (Demo.tooling Demo.usual_rows) Demo.config "dev"
                 (Demo.ready (Demo.tooling Demo.usual_rows) tt)).
  pose (e := entry_of (Demo.coverage_row "AccountService" 23 137)).
  exists (Demo.returned initial_response (fst out)), (snd out).
  assert (Hrun : out = (Normal (Demo.returned initial_response (fst out)), snd out))
    by reflexivity.
  assert (Hlookup : Response.coverage (Demo.returned initial_response (fst out))
                      !! "AccountService" = Some e)
    by (vm_compute; reflexivity).
  assert (Hc : CoverageEntry.covered e = Number.canonical 23) by reflexivity.
  assert (Hu : CoverageEntry.uncovered e = Number.canonical 137) by reflexivity.
  assert (Hc0 : 0 <= 23) by lia.
  assert (Hu0 : 0 <= 137) by lia.
  assert (Hsum : 0 < 23 + 137 < 2 ^ 53) by (split; vm_compute; reflexivity).
  destruct (@percentages_are_accurate (Demo.tooling Demo.usual_rows) Demo.config "dev"
              _ _ _ Hrun) as [Hentries _].
  split; [exact Hrun |]. split; [exact Hlookup |].
  split; [exact Hc |]. split; [exact Hu |].
  split; [exact Hc0 |]. split; [exact Hu0 |]. split; [exact Hsum |].
  exact (Hentries _ _ 23 137 Hlookup Hc Hu Hc0 Hu0 Hsum).
Defined.

(** Property X18 on [/coverage], which lacks the slash of the prefix. *)
Lemma unrouted_request_status_witness :
  (@url_parse_pathname _ (WebDemo.web Demo.bare [] []) "/coverage" = inr (Some "/coverage") /\
   startsWith "/coverage" "/coverage/" = false /\
   startsWith "/coverage" "/api/coverage/" = false /\
   @templateEngine_render _ (WebDemo.web Demo.bare [] []) "pages/error"
     (error_data "404 - Page Not Found" "The requested page could not be found.") tt
     = (Some (inr "pages/error: 404 - Page Not Found (The requested page could not be found.)"),
        tt)) /\
  @handleRequest _ (WebDemo.web Demo.bare [] []) WebDemo.config "/coverage"
    (WebDemo.arrival Demo.bare tt)
  = (Normal tt,
     {| Web.service := Demo.ready Demo.bare tt;
        Web.res := security_headers WebDemo.config ++
                   [ res_writeHead 404 "text/html; charset=utf-8";
                     res_end "pages/error: 404 - Page Not Found (The requested page could not be found.)" ] |}).
Proof.
  assert (H1 : @url_parse_pathname _ (WebDemo.web Demo.bare [] []) "/coverage"
               = inr (Some "/coverage")) by reflexivity.
  assert (H2 : startsWith "/coverage" "/coverage/" = false) by reflexivity.
  assert (H3 : startsWith "/coverage" "/api/coverage/" = false) by reflexivity.
  assert (H4 : @templateEngine_render _ (WebDemo.web Demo.bare [] []) "pages/error"
                 (error_data "404 - Page Not Found"
                    "The requested page could not be found.")
                 (world (Web.service (WebDemo.arrival Demo.bare tt)))
               = (Some (inr "pages/error: 404 - Page Not Found (The requested page could not be found.)"),
                  tt)) by reflexivity.
  split; [repeat split; assumption |].
  destruct (@unrouted_request_status _ (WebDemo.web Demo.bare [] []) WebDemo.config
              "/coverage" (WebDemo.arrival Demo.bare tt)
              (Some (inr "pages/error: 404 - Page Not Found (The requested page could not be found.)"))
              tt) as [Hunknown _].
  etransitivity;
    [exact (Hunknown "/coverage" H1 ltac:(discriminate) ltac:(discriminate)
              ltac:(discriminate) ltac:(discriminate) H2 H3 H4)
    | reflexivity].
Defined.

(** Property X19 on the style sheet, where the file is in place. *)
Lemma static_file_status_witness :
  (@url_parse_pathname _
     (WebDemo.web Demo.bare [] [("/srv/app/src/../public/css/styles.css", "body {}")])
     "/css/styles.css" = inr (Some "/css/styles.css") /\
   @fs_readFile _
     (WebDemo.web Demo.bare [] [("/srv/app/src/../public/css/styles.css", "body {}")])
     (@path_join Demo.bare
        [@dirname _ (WebDemo.web Demo.bare []
                       [("/srv/app/src/../public/css/styles.css", "body {}")]);
         ".."; "public/css/styles.css"]) tt
     = (inr "body {}", tt)) /\
  @handleRequest _
    (WebDemo.web Demo.bare [] [("/srv/app/src/../public/css/styles.css", "body {}")])
    WebDemo.config "/css/styles.css" (WebDemo.arrival Demo.bare tt)
  = (Normal tt,
     {| Web.service := Demo.ready Demo.bare tt;
        Web.res := security_headers WebDemo.config ++
                   [ res_writeHead 200 "text/css"; res_end "body {}" ] |}).
Proof.
  pose (W := WebDemo.web Demo.bare []
               [("/srv/app/src/../public/css/styles.css", "body {}")]).
  assert (H1 : @url_parse_pathname _ W "/css/styles.css" = inr (Some "/css/styles.css"))
    by reflexivity.
  assert (H2 : ("/css/styles.css", "public/css/styles.css", "text/css")
               ∈ [ ("/css/styles.css", "public/css/styles.css", "text/css");
                   ("/js/app.js", "public/js/app.js", "application/javascript") ])
    by (left).
  assert (H3 : @fs_readFile _ W
                 (@path_join Demo.bare [@dirname _ W; ".."; "public/css/styles.css"])
                 (world (Web.service (WebDemo.arrival Demo.bare tt)))
               = (inr "body {}", tt)) by reflexivity.
  split; [split; assumption |].
  etransitivity;
    [exact (@static_file_status _ W WebDemo.config "/css/styles.css"
              (WebDemo.arrival Demo.bare tt) _ _ _ _ _ H1 H2 H3)
    | reflexivity].
Defined.

(** Property X20 where the template of the home page is missing. *)
Lemma render_failure_status_500_witness :
  (@url_parse_pathname _ (WebDemo.web Demo.bare ["pages/home"] []) "/" = inr (Some "/") /\
   getAvailableOrgs Demo.config (Demo.ready Demo.bare tt)
     = (Normal [],
        Demo.after (Demo.ready Demo.bare tt) [["sf"; "org"; "list"; "--json"]]) /\
   @templateEngine_render _ (WebDemo.web Demo.bare ["pages/home"] []) "pages/home"
     (home_data "Salesforce Coverage Viewer" []) tt
     = (Some (inl (Error "ENOENT: no such template")), tt) /\
   @templateEngine_render _ (WebDemo.web Demo.bare ["pages/home"] []) "pages/error"
     (error_data "Server Error" "Internal server error") tt
     = (Some (inr "pages/error: Server Error (Internal server error)"), tt)) /\
  @handleRequest _ (WebDemo.web Demo.bare ["pages/home"] []) WebDemo.config "/"
    (WebDemo.arrival Demo.bare tt)
  = (Normal tt,
     {| Web.service :=
          Demo.after (Demo.ready Demo.bare tt) [["sf"; "org"; "list"; "--json"]];
        Web.res := security_headers WebDemo.config ++
                   [ res_writeHead 500 "text/html; charset=utf-8";
                     res_end "pages/error: Server Error (Internal server error)" ] |}).
Proof.
  pose (W := WebDemo.web Demo.bare ["pages/home"] []).
  assert (H1 : @url_parse_pathname _ W "/" = inr (Some "/")) by reflexivity.
  assert (H2 : getAvailableOrgs Demo.config (Demo.ready Demo.bare tt)
               = (Normal [],
                  Demo.after (Demo.ready Demo.bare tt) [["sf"; "org"; "list"; "--json"]]))
    by reflexivity.
  assert (H3 : @templateEngine_render _ W "pages/home"
                 (home_data "Salesforce Coverage Viewer" []) tt
               = (Some (inl (Error "ENOENT: no such template")), tt)) by reflexivity.
  assert (H4 : @templateEngine_render _ W "pages/error"
                 (error_data "Server Error" "Internal server error") tt
               = (Some (inr "pages/error: Server Error (Internal server error)"), tt))
    by reflexivity.
  split; [repeat split; assumption |].
  etransitivity;
    [exact (@render_failure_status_500 _ W WebDemo.config "/"
              (WebDemo.arrival Demo.bare tt) _ _ _ _ _ _ H1 H2 H3 H4)
    | reflexivity].
Defined.

(** Property X21 on a row named [__proto__] with 5 covered and 5
    uncovered lines, next to a class with 1 and 1: the totals are 6 and 6
    and the map has the class only. *)
Lemma proto_row_is_not_stored_witness :
  exists response s',
    @getCoverageData (Demo.tooling WebDemo.proto_rows) Demo.config "dev"
      (Demo.ready (Demo.tooling WebDemo.proto_rows) tt) = (Normal response, s') /\
    Response.coverage response !! "__proto__" = None /\
    Response.coverage response !! "Account"
      = Some (entry_of (Demo.coverage_row "Account" 1 1)) /\
    Response.totalCovered response = Number.canonical 6 /\
    Response.totalUncovered response = Number.canonical 6.
Proof.
  pose (out := @getCoverageData (Demo.tooling WebDemo.proto_rows) Demo.config "dev"
                 (Demo.ready (Demo.tooling WebDemo.proto_rows) tt)).
  pose (response := Demo.returned initial_response (fst out)).
  exists response, (snd out).
  assert (Hrun : out = (Normal response, snd out)) by reflexivity.
  destruct (@proto_row_is_not_stored (Demo.tooling WebDemo.proto_rows) Demo.config
              "dev" _ _ _ Hrun) as [Hproto _].
  split; [exact Hrun |]. split; [exact Hproto |].
  repeat split; vm_compute; reflexivity.
Defined.

(** Property X22 on the org [dev], whose name is its username. *)
Lemma coverage_page_status_200_witness :
  (@url_parse_pathname _ (WebDemo.web WebDemo.serving [] []) "/coverage/dev"
     = inr (Some ("/coverage/" +:+ "dev")) /\
   @decodeURIComponent _ (WebDemo.web WebDemo.serving [] []) (first_segment "dev") = inr "dev" /\
   getOrgInfo Demo.config "dev" (Demo.ready WebDemo.serving tt)
     = (Normal (Some {| OrgInfo.name := "dev@example.com";
                        OrgInfo.url := "https://example.my.salesforce.com";
                        OrgInfo.username := "dev@example.com";
                        OrgInfo.id := "Unknown" |}),
        Demo.after (Demo.ready WebDemo.serving tt)
          [["sf"; "org"; "display"; "--target-org"; "dev"; "--json"]])) /\
  fst (@handleRequest _ (WebDemo.web WebDemo.serving [] []) WebDemo.config "/coverage/dev"
         (WebDemo.arrival WebDemo.serving tt)) = Normal tt /\
  Web.res (snd (@handleRequest _ (WebDemo.web WebDemo.serving [] []) WebDemo.config "/coverage/dev"
                  (WebDemo.arrival WebDemo.serving tt)))
  = security_headers WebDemo.config ++
    [ res_writeHead 200 "text/html; charset=utf-8";
      res_end "pages/coverage: Coverage Report: dev@example.com" ].
Proof.
  pose (W := WebDemo.web WebDemo.serving [] []).
  pose (info := {| OrgInfo.name := "dev@example.com";
                   OrgInfo.url := "https://example.my.salesforce.com";
                   OrgInfo.username := "dev@example.com";
                   OrgInfo.id := "Unknown" |}).
  pose (s1 := Demo.after (Demo.ready WebDemo.serving tt)
                [["sf"; "org"; "display"; "--target-org"; "dev"; "--json"]]).
  pose (out := @getCoverageData WebDemo.serving Demo.config "dev" s1).
  pose (response := Demo.returned initial_response (fst out)).
  assert (H1 : @url_parse_pathname _ W "/coverage/dev" = inr (Some ("/coverage/" +:+ "dev")))
    by reflexivity.
  assert (H2 : @decodeURIComponent _ W (first_segment "dev") = inr "dev") by reflexivity.
  assert (H3 : getOrgInfo Demo.config "dev" (Demo.ready WebDemo.serving tt)
               = (Normal (Some info), s1)) by reflexivity.
  assert (H4 : out = (Normal response, snd out)) by reflexivity.
  assert (H5 : @templateEngine_render _ W "pages/coverage"
                 (coverage_data ("Coverage Report: " +:+ OrgInfo.name info) info response)
                 (world (snd out))
               = (Some (inr "pages/coverage: Coverage Report: dev@example.com"), tt))
    by reflexivity.
  destruct (@coverage_page_status_200 _ W WebDemo.config "/coverage/dev" "dev" "dev"
              (WebDemo.arrival WebDemo.serving tt) _ _ _ _ _ _ H1 H2 H3 H4 H5) as [Hrun _].
  split; [repeat split; assumption |].
  split; [exact (f_equal fst Hrun) | exact (f_equal (fun p => Web.res (snd p)) Hrun)].
Defined.

(** Property X5 where the port is no port number: the command is found
    and stored, [listen] throws, and the process exits with status 1
    without a server. *)
Example init_bad_port :
  fst (init Demo.config (@Demo.start (Demo.bad_port Demo.npx_only) tt None)) = Exit 1 /\
  sfCommand (snd (init Demo.config (@Demo.start (Demo.bad_port Demo.npx_only) tt None)))
    = Some ["npx"; "sf"] /\
  serverStarted (snd (init Demo.config (@Demo.start (Demo.bad_port Demo.npx_only) tt None)))
    = false.
Proof. repeat split; reflexivity. Qed.

(** Property X13 on a URL whose host [url.parse] rejects: the handler
    is rejected with the error of [url.parse] and the response is left
    untouched. *)
Example handleRequest_bad_url :
  @handleRequest _ (WebDemo.web Demo.bare [] []) WebDemo.config "http://[/"
    (WebDemo.arrival Demo.bare tt)
  = (Throw TypeError, WebDemo.arrival Demo.bare tt).
Proof. reflexivity. Qed.
